(** * Maximus Engagimus: cache layer, optimistic data hooks and auth bootstrap

    A shallow embedding of
      - [lib/cache]  (getCached, setCached, clearCache, clearAllCaches,
        fetchWithCache),
      - [hooks/useClients]  (useClients.create / update, useClient.update),
      - [contexts/AuthContext]  (ensureOrganization, initializeAuth, signOut),
    together with the properties the specification states about them, and
    of the functions next to them:
      - [hooks/useClients]  (fetchClients, remove, toggleActive; fetchClient
        and the keyword, sample-comment and industry-site mutations of
        [useClient]; [useClientSelect]),
      - [hooks/useGenerator]  (markOptionSaved),
      - [contexts/AuthContext]  (lastSessionCheckRef, the auth-event
        listener, signIn, signUp, resetPassword, updatePassword,
        updateProfile, refreshProfile, the computed flags),
    with further properties read off the code.

    Modelling conventions.
      - JavaScript values are the inductive type [value]; numbers are the
        integers (floating point is not modelled), objects are association
        lists in property-creation order.
      - [localStorage] is a finite map from string keys to string values
        plus a fault oracle that decides which calls of the medium raise.
      - [JSON.stringify], [JSON.parse] and the string-to-number coercion are
        builtins of the host: they are the fields of the class [Host], and
        every definition is parametric in them.  [reference_host] is an
        executable instance for integer-valued JSON documents.
      - [Date.now()] is an explicit argument of every function that reads it.
      - A [try { .. } catch (err) { .. }] block is [try_catch]; an awaited
        remote call is represented by its outcome. *)

From Stdlib Require Import ZArith Ascii String List Bool Lia.
From stdpp Require Import base option list strings gmap fin_maps pretty.

Set Warnings "-register-all".
Local Open Scope Z_scope.

(* ===================================================================== *)
(** * JavaScript values *)
(* ===================================================================== *)

Inductive value : Type :=
| VUndefined
| VNull
| VBool (b : bool)
| VNum (n : Z)
| VStr (s : string)
| VArr (elems : list value)
| VObj (fields : list (string * value)).

(** The fields of a plain object, in creation order. *)
Abbreviation obj := (list (string * value)).

(** A thrown value: an [Error]-like object with the three properties the
    code inspects ([err.name], [err.message], [err.code]). *)
Record JSError : Type := mkError {
  err_name : string;
  err_message : string;
  err_code : option string
}.

Definition TypeError (msg : string) : JSError := mkError "TypeError" msg None.
Definition Error (msg : string) : JSError := mkError "Error" msg None.

(** The completion of a synchronous evaluation. *)
Inductive Completion (A : Type) : Type :=
| Normal (a : A)
| Throw (e : JSError).
Arguments Normal {A} a.
Arguments Throw {A} e.

(** The settlement of an awaited promise. *)
Inductive Outcome (A : Type) : Type :=
| Resolved (a : A)
| Rejected (e : JSError).
Arguments Resolved {A} a.
Arguments Rejected {A} e.

(** [Promise.race([p, timeout])]: either the timer fires first or [p]
    settles first. *)
Inductive Raced (A : Type) : Type :=
| TimedOut
| Settled (o : Outcome A).
Arguments TimedOut {A}.
Arguments Settled {A} o.

Definition race {A} (r : Raced A) (timeoutMessage : string) : Outcome A :=
  match r with
  | TimedOut => Rejected (Error timeoutMessage)
  | Settled o => o
  end.

(** ToBoolean. *)
Definition truthy (v : value) : bool :=
  match v with
  | VUndefined | VNull => false
  | VBool b => b
  | VNum n => negb (n =? 0)
  | VStr s => negb (String.eqb s "")
  | VArr _ | VObj _ => true
  end.

(** [a || b] *)
Definition js_or (a b : value) : value := if truthy a then a else b.

(** Own-property lookup in a list of fields. *)
Fixpoint lookup_field (k : string) (fs : obj) : value :=
  match fs with
  | [] => VUndefined
  | (k', v) :: rest => if String.eqb k k' then v else lookup_field k rest
  end.

Fixpoint has_field (k : string) (fs : obj) : bool :=
  match fs with
  | [] => false
  | (k', _) :: rest => String.eqb k k' || has_field k rest
  end.

(** [o[k] = v]: overwrite in place when the property exists, append
    otherwise. *)
Fixpoint set_field (k : string) (v : value) (fs : obj) : obj :=
  match fs with
  | [] => [(k, v)]
  | (k', v') :: rest =>
      if String.eqb k k' then (k, v) :: rest else (k', v') :: set_field k v rest
  end.

(** [v.k]: a [TypeError] on [null] and [undefined]; primitives and arrays
    have none of the property names this program reads. *)
Definition get_prop (v : value) (k : string) : Completion value :=
  match v with
  | VUndefined | VNull =>
      Throw (TypeError ("Cannot read properties of null (reading '" +:+ k +:+ "')"))
  | VObj fs => Normal (lookup_field k fs)
  | _ => Normal VUndefined
  end.

(** [v?.k] *)
Definition get_prop_opt (v : value) (k : string) : value :=
  match v with
  | VObj fs => lookup_field k fs
  | _ => VUndefined
  end.

(** [a === b] on the values the program compares: primitives by value;
    two object or array literals are never the same reference. *)
Definition strict_eq (a b : value) : bool :=
  match a, b with
  | VUndefined, VUndefined => true
  | VNull, VNull => true
  | VBool x, VBool y => Bool.eqb x y
  | VNum x, VNum y => x =? y
  | VStr x, VStr y => String.eqb x y
  | _, _ => false
  end.

(** [{ ...base, ...extra }] on field lists. *)
Definition spread (base extra : obj) : obj :=
  fold_left (fun acc kv => set_field (fst kv) (snd kv) acc) extra base.

(** The properties copied by [...v] inside an object literal: those of a
    plain object; [null], [undefined], numbers and booleans have none.
    (The indices of a string or an array would be copied; the program
    spreads neither.) *)
Definition spread_fields (v : value) : obj :=
  match v with
  | VObj fs => fs
  | _ => []
  end.

(* ===================================================================== *)
(** * The host: JSON and number coercion *)
(* ===================================================================== *)

Class Host : Type := {
  (** [JSON.stringify(v)]; raises on values it cannot serialise. *)
  JSON_stringify : value -> Completion string;
  (** [JSON.parse(text)]; raises [SyntaxError] on malformed text. *)
  JSON_parse : string -> Completion value;
  (** ToNumber on a string or an object; [None] is [NaN]. *)
  ToNumber_other : value -> option Z
}.

(** ToNumber; [None] is [NaN]. *)
Definition ToNumber {host : Host} (v : value) : option Z :=
  match v with
  | VUndefined => None
  | VNull => Some 0
  | VBool b => Some (if b then 1 else 0)
  | VNum n => Some n
  | _ => ToNumber_other v
  end.

(** [n > v] for a number [n]: false as soon as [v] coerces to [NaN]. *)
Definition js_gt {host : Host} (n : Z) (v : value) : bool :=
  match ToNumber v with
  | Some m => m <? n
  | None => false
  end.

(* ===================================================================== *)
(** * The persistent key-value medium ([localStorage]) *)
(* ===================================================================== *)

Inductive StorageOp : Type :=
| OpGetItem (k : string)
| OpSetItem (k text : string)
| OpRemoveItem (k : string)
| OpKeys.

(** [items] is what the medium holds; [fault] tells, from the current
    content, which call raises (quota exceeded, access denied, ...); a
    call that raises leaves the content as it was.  [calls] is the
    journal of the calls made on the medium so far. *)
Record Storage : Type := mkStorage {
  items : gmap string string;
  fault : gmap string string -> StorageOp -> option JSError;
  calls : list StorageOp
}.

Definition with_items (st : Storage) (m : gmap string string) : Storage :=
  mkStorage m (fault st) (calls st).

Definition journal (op : StorageOp) (st : Storage) : Storage :=
  mkStorage (items st) (fault st) (calls st ++ [op]).

(** The medium raises no error, whatever it is asked. *)
Definition reliable (st : Storage) : Prop :=
  forall m op, fault st m op = None.

(** Computations over a state [S] that may raise. *)
Definition Eff (S A : Type) : Type := S -> Completion A * S.

Definition ret {S A} (a : A) : Eff S A := fun st => (Normal a, st).

Definition bind {S A B} (c : Eff S A) (k : A -> Eff S B) : Eff S B :=
  fun st =>
    match c st with
    | (Normal a, st') => k a st'
    | (Throw e, st') => (Throw e, st')
    end.

Definition throw {S A} (e : JSError) : Eff S A := fun st => (Throw e, st).

Definition lift {S A} (c : Completion A) : Eff S A := fun st => (c, st).

(** [try { body } catch (err) { handler }] *)
Definition try_catch {S A} (body : Eff S A) (handler : JSError -> Eff S A) : Eff S A :=
  fun st =>
    match body st with
    | (Normal a, st') => (Normal a, st')
    | (Throw e, st') => handler e st'
    end.

(** [await p] for a promise that settles as [o]. *)
Definition await {S A} (o : Outcome A) : Eff S A :=
  match o with
  | Resolved a => ret a
  | Rejected e => throw e
  end.

Definition modify {S} (f : S -> S) : Eff S unit := fun st => (Normal tt, f st).

(** Run a computation on a component of a larger state. *)
Definition zoom {S T A} (get : T -> S) (put : S -> T -> T) (c : Eff S A) : Eff T A :=
  fun t => let '(r, s') := c (get t) in (r, put s' t).

Notation "'let*' x ':=' c 'in' k" := (bind c (fun x => k))
  (at level 10, x name, c at level 100, k at level 200, only parsing).

Definition guarded {A} (op : StorageOp) (run : Storage -> A * Storage) : Eff Storage A :=
  fun st =>
    match fault st (items st) op with
    | Some e => (Throw e, journal op st)
    | None => let '(a, st') := run (journal op st) in (Normal a, st')
    end.

(** [localStorage.getItem(k)] *)
Definition getItem (k : string) : Eff Storage (option string) :=
  guarded (OpGetItem k) (fun st => (items st !! k, st)).

(** [localStorage.setItem(k, text)] *)
Definition setItem (k text : string) : Eff Storage unit :=
  guarded (OpSetItem k text) (fun st => (tt, with_items st (<[k := text]> (items st)))).

(** [localStorage.removeItem(k)] *)
Definition removeItem (k : string) : Eff Storage unit :=
  guarded (OpRemoveItem k) (fun st => (tt, with_items st (delete k (items st)))).

(** [Object.keys(localStorage)] *)
Definition storage_keys : Eff Storage (list string) :=
  guarded OpKeys (fun st => ((map_to_list (items st)).*1, st)).

(** [console.warn] / [console.error]: no effect on the modelled state. *)
Definition console_log {S A} (_ : A) : Eff S unit := ret tt.

(* ===================================================================== *)
(** * lib/cache *)
(* ===================================================================== *)

Section Cache.
Context {host : Host}.

Definition CACHE_PREFIX : string := "app_cache_".
Definition DEFAULT_TTL : Z := 5 * 60 * 1000.

(** The object literal [{ data, expiresAt }]. *)
Definition cache_entry (data : value) (expiresAt : Z) : value :=
  VObj [("data", data); ("expiresAt", VNum expiresAt)].

Definition getCached (key : string) (now : Z) : Eff Storage value :=
  try_catch
    (let* cached := getItem (CACHE_PREFIX +:+ key) in
     match cached with
     | None => ret VNull
     | Some text =>
         if String.eqb text "" then ret VNull
         else
           let* entry := lift (JSON_parse text) in
           let* data := lift (get_prop entry "data") in
           let* expiresAt := lift (get_prop entry "expiresAt") in
           if js_gt now expiresAt then
             let* _ := removeItem (CACHE_PREFIX +:+ key) in
             ret VNull
           else ret data
     end)
    (fun err => let* _ := console_log err in ret VNull).

Definition setCached (key : string) (data : value) (ttl : Z) (now : Z) : Eff Storage unit :=
  try_catch
    (let expiresAt := now + ttl in
     let* text := lift (JSON_stringify (cache_entry data expiresAt)) in
     setItem (CACHE_PREFIX +:+ key) text)
    (fun err => console_log err).

(** [setCached(key, data, Infinity)].  The time-to-live of [setCached]
    is a finite number of milliseconds; with the one positive number that
    is not, [Date.now() + ttl] is [Infinity], which [JSON.stringify] writes
    as [null]. *)
Definition setCached_Infinity (key : string) (data : value) : Eff Storage unit :=
  try_catch
    (let* text := lift (JSON_stringify
                          (VObj [("data", data); ("expiresAt", VNull)])) in
     setItem (CACHE_PREFIX +:+ key) text)
    (fun err => console_log err).

Definition clearCache (key : string) : Eff Storage unit :=
  try_catch
    (removeItem (CACHE_PREFIX +:+ key))
    (fun err => console_log err).

(** [keys.forEach(key => { if (key.startsWith(CACHE_PREFIX)) removeItem(key) })] *)
Fixpoint forEach_remove_prefixed (ks : list string) : Eff Storage unit :=
  match ks with
  | [] => ret tt
  | key :: rest =>
      let* _ := (if String.prefix CACHE_PREFIX key then removeItem key else ret tt) in
      forEach_remove_prefixed rest
  end.

Definition clearAllCaches : Eff Storage unit :=
  try_catch
    (let* ks := storage_keys in forEach_remove_prefixed ks)
    (fun err => console_log err).

(** What [fetchWithCache] hands back: how its promise settles, and the
    work it left running in the background (fire and forget). *)
Record Fetched : Type := mkFetched {
  settled : Outcome value;
  background : Eff Storage unit
}.

(** [fetchFn] is represented by the settlement of the promise it
    returns; [now_done] is the clock when that promise settles. *)
Definition fetchWithCache (cacheKey : string) (fetchFn : Outcome value)
    (ttl : Z) (now now_done : Z) : Eff Storage Fetched :=
  let* cached := getCached cacheKey now in
  if truthy cached then
    ret (mkFetched (Resolved cached)
           match fetchFn with
           | Resolved freshData => setCached cacheKey freshData ttl now_done
           | Rejected err => console_log err
           end)
  else
    match fetchFn with
    | Resolved data =>
        let* _ := setCached cacheKey data ttl now_done in
        ret (mkFetched (Resolved data) (ret tt))
    | Rejected err => ret (mkFetched (Rejected err) (ret tt))
    end.

(** The text [setCached] writes for [data] and [expiresAt] is a non-empty
    text that parses back to an entry with the same expiry time and with
    [data'] as its data. *)
Definition reads_back (data : value) (expiresAt : Z) (data' : value) : Prop :=
  exists text fs,
    JSON_stringify (cache_entry data expiresAt) = Normal text /\
    text <> "" /\
    JSON_parse text = Normal (VObj fs) /\
    lookup_field "data" fs = data' /\
    lookup_field "expiresAt" fs = VNum expiresAt.

(** A medium call that names a key names a cache key. *)
Definition on_cache_key (op : StorageOp) : Prop :=
  match op with
  | OpGetItem k | OpSetItem k _ | OpRemoveItem k => String.prefix CACHE_PREFIX k = true
  | OpKeys => True
  end.

(** What a cache operation may do to the medium, started from [st]: every
    call it makes names a cache key (or lists the keys), and no entry
    under another key is changed. *)
Definition only_cache_keys {A} (c : Eff Storage A) (st : Storage) : Prop :=
  (exists new, calls (snd (c st)) = calls st ++ new /\ Forall on_cache_key new) /\
  (forall k, String.prefix CACHE_PREFIX k = false ->
             items (snd (c st)) !! k = items st !! k).

(** The computation completes normally from every state. *)
Definition never_throws {S A} (c : Eff S A) : Prop :=
  forall st, exists a st', c st = (Normal a, st').

End Cache.

(* ===================================================================== *)
(** * A reference host: JSON text for integer-valued documents *)
(* ===================================================================== *)

(** An executable [Host]: the JSON grammar restricted to integer number
    literals (a fraction or an exponent is rejected) and to characters
    below 256.  Properties of the program are proved for every [Host];
    this instance is the one concrete inputs are evaluated with. *)
Module ReferenceHost.

Definition dq : ascii := Ascii.ascii_of_nat 34.
Definition backslash : ascii := Ascii.ascii_of_nat 92.

Definition hex_digit (n : nat) : ascii :=
  Ascii.ascii_of_nat (if Nat.ltb n 10 then 48 + n else 87 + n).

Definition hex_value (c : ascii) : option nat :=
  let n := Ascii.nat_of_ascii c in
  if (Nat.leb 48 n && Nat.leb n 57)%bool then Some (n - 48)%nat
  else if (Nat.leb 97 n && Nat.leb n 102)%bool then Some (n - 87)%nat
  else if (Nat.leb 65 n && Nat.leb n 70)%bool then Some (n - 55)%nat
  else None.

(** The escape of one character inside a string literal. *)
Definition escape (c : ascii) : string :=
  let n := Ascii.nat_of_ascii c in
  let esc (x : ascii) := String backslash (String x EmptyString) in
  if Nat.eqb n 34 then esc dq
  else if Nat.eqb n 92 then esc backslash
  else if Nat.eqb n 8 then esc "b"%char
  else if Nat.eqb n 9 then esc "t"%char
  else if Nat.eqb n 10 then esc "n"%char
  else if Nat.eqb n 12 then esc "f"%char
  else if Nat.eqb n 13 then esc "r"%char
  else if Nat.ltb n 32 then
    String backslash (String "u" (String "0" (String "0"
      (String (hex_digit (n / 16)) (String (hex_digit (n mod 16)) EmptyString)))))
  else String c EmptyString.

(** QuoteJSONString, without the surrounding quotes. *)
Fixpoint quote_chars (s : string) : string :=
  match s with
  | EmptyString => EmptyString
  | String c r => escape c +:+ quote_chars r
  end.

Definition quote (s : string) : string :=
  String dq (quote_chars s +:+ String dq EmptyString).

Fixpoint join (sep : string) (parts : list string) : string :=
  match parts with
  | [] => ""
  | [p] => p
  | p :: rest => p +:+ sep +:+ join sep rest
  end.

(** SerializeJSONProperty: [None] stands for [undefined]. *)
Fixpoint serialize (v : value) : option string :=
  match v with
  | VUndefined => None
  | VNull => Some "null"
  | VBool true => Some "true"
  | VBool false => Some "false"
  | VNum n => Some (pretty n)
  | VStr s => Some (quote s)
  | VArr elems =>
      Some ("[" +:+ join "," (map (fun e => default "null" (serialize e)) elems) +:+ "]")
  | VObj fields =>
      Some ("{" +:+
            join "," (omap (fun kv =>
                        match serialize (snd kv) with
                        | Some t => Some (quote (fst kv) +:+ ":" +:+ t)
                        | None => None
                        end) fields) +:+ "}")
  end.

Definition stringify (v : value) : Completion string :=
  Normal (default "undefined" (serialize v)).

Definition is_ws (c : ascii) : bool :=
  let n := Ascii.nat_of_ascii c in
  (Nat.eqb n 32 || Nat.eqb n 9 || Nat.eqb n 10 || Nat.eqb n 13)%bool.

Definition is_digit (c : ascii) : bool :=
  let n := Ascii.nat_of_ascii c in (Nat.leb 48 n && Nat.leb n 57)%bool.

Fixpoint skip_ws (s : string) : string :=
  match s with
  | String c r => if is_ws c then skip_ws r else s
  | EmptyString => EmptyString
  end.

Fixpoint parse_digits (s : string) (acc : Z) : Z * string :=
  match s with
  | String c r =>
      if is_digit c
      then parse_digits r (10 * acc + Z.of_nat (Ascii.nat_of_ascii c - 48))
      else (acc, s)
  | EmptyString => (acc, s)
  end.

(** An unsigned integer literal: either 0 or a non-zero digit followed
    by digits; no fraction, no exponent. *)
Definition parse_nat (s : string) : option (Z * string) :=
  match s with
  | String c r =>
      if is_digit c then
        let '(n, rest) := parse_digits s 0 in
        let leading_zero :=
          match s with
          | String "0" (String d _) => is_digit d
          | _ => false
          end in
        let continues :=
          match rest with
          | String "." _ | String "e" _ | String "E" _ => true
          | _ => false
          end in
        if (leading_zero || continues)%bool then None else Some (n, rest)
      else None
  | EmptyString => None
  end.

(** An integer literal: an optional minus sign, then an unsigned one. *)
Definition parse_int (s : string) : option (Z * string) :=
  match s with
  | String "-" r =>
      match parse_nat r with
      | Some (n, rest) => Some (- n, rest)
      | None => None
      end
  | _ => parse_nat s
  end.

(** The characters of a string literal, after the opening quote. *)
Fixpoint parse_chars (s : string) : option (string * string) :=
  match s with
  | EmptyString => None
  | String c r =>
      let n := Ascii.nat_of_ascii c in
      if Nat.eqb n 34 then Some (EmptyString, r)
      else if Nat.ltb n 32 then None
      else if Nat.eqb n 92 then
        match r with
        | String e r' =>
            let put (x : ascii) :=
              match parse_chars r' with
              | Some (str, rest) => Some (String x str, rest)
              | None => None
              end in
            let m := Ascii.nat_of_ascii e in
            if Nat.eqb m 34 then put dq
            else if Nat.eqb m 92 then put backslash
            else if Nat.eqb m 47 then put "/"%char
            else if Nat.eqb m 98 then put (Ascii.ascii_of_nat 8)
            else if Nat.eqb m 116 then put (Ascii.ascii_of_nat 9)
            else if Nat.eqb m 110 then put (Ascii.ascii_of_nat 10)
            else if Nat.eqb m 102 then put (Ascii.ascii_of_nat 12)
            else if Nat.eqb m 114 then put (Ascii.ascii_of_nat 13)
            else if Nat.eqb m 117 then
              match r' with
              | String "0" (String "0" (String h (String l r''))) =>
                  match hex_value h, hex_value l, parse_chars r'' with
                  | Some a, Some b, Some (str, rest) =>
                      Some (String (Ascii.ascii_of_nat (16 * a + b)) str, rest)
                  | _, _, _ => None
                  end
              | _ => None
              end
            else None
        | EmptyString => None
        end
      else
        match parse_chars r with
        | Some (str, rest) => Some (String c str, rest)
        | None => None
        end
  end.

(** The elements of an array, after the opening bracket. *)
Fixpoint parse_elements (pv : string -> option (value * string)) (fuel : nat)
    (s : string) (acc : list value) : option (value * string) :=
  match fuel with
  | O => None
  | S f =>
      match pv s with
      | Some (v, rest) =>
          match skip_ws rest with
          | String "," r => parse_elements pv f r (acc ++ [v])
          | String "]" r => Some (VArr (acc ++ [v]), r)
          | _ => None
          end
      | None => None
      end
  end.

(** The members of an object, after the opening brace. *)
Fixpoint parse_members (pv : string -> option (value * string)) (fuel : nat)
    (s : string) (acc : obj) : option (value * string) :=
  match fuel with
  | O => None
  | S f =>
      match skip_ws s with
      | String c r =>
          if Nat.eqb (Ascii.nat_of_ascii c) 34 then
            match parse_chars r with
            | Some (k, rest) =>
                match skip_ws rest with
                | String ":" r1 =>
                    match pv r1 with
                    | Some (v, rest1) =>
                        match skip_ws rest1 with
                        | String "," r2 => parse_members pv f r2 (set_field k v acc)
                        | String "}" r2 => Some (VObj (set_field k v acc), r2)
                        | _ => None
                        end
                    | None => None
                    end
                | _ => None
                end
            | None => None
            end
          else None
      | EmptyString => None
      end
  end.

Fixpoint parse_value (fuel : nat) (s : string) : option (value * string) :=
  match fuel with
  | O => None
  | S f =>
      match skip_ws s with
      | String "n" (String "u" (String "l" (String "l" r))) => Some (VNull, r)
      | String "t" (String "r" (String "u" (String "e" r))) => Some (VBool true, r)
      | String "f" (String "a" (String "l" (String "s" (String "e" r)))) =>
          Some (VBool false, r)
      | String "[" r =>
          match skip_ws r with
          | String "]" r' => Some (VArr [], r')
          | _ => parse_elements (parse_value f) f r []
          end
      | String "{" r =>
          match skip_ws r with
          | String "}" r' => Some (VObj [], r')
          | _ => parse_members (parse_value f) f r []
          end
      | String c r =>
          if Nat.eqb (Ascii.nat_of_ascii c) 34 then
            match parse_chars r with
            | Some (str, rest) => Some (VStr str, rest)
            | None => None
            end
          else
            match parse_int (String c r) with
            | Some (n, rest) => Some (VNum n, rest)
            | None => None
            end
      | EmptyString => None
      end
  end.

Definition SyntaxError : JSError :=
  mkError "SyntaxError" "Unexpected token in JSON" None.

Definition parse (text : string) : Completion value :=
  match parse_value (S (String.length text)) text with
  | Some (v, rest) =>
      match skip_ws rest with
      | EmptyString => Normal v
      | _ => Throw SyntaxError
      end
  | None => Throw SyntaxError
  end.

(** StringToNumber on integer literals; the empty string and the empty
    array coerce to 0, every other string, array or object to [NaN]. *)
Definition to_number_other (v : value) : option Z :=
  match v with
  | VStr EmptyString => Some 0
  | VStr s =>
      match parse_int s with
      | Some (n, EmptyString) => Some n
      | _ => None
      end
  | VArr [] => Some 0
  | _ => None
  end.

(** What may follow a value inside a document: the end of the text, a
    comma, a closing bracket or a closing brace. *)
Definition is_delim (rest : string) : bool :=
  match rest with
  | EmptyString => true
  | String c _ =>
      let n := Ascii.nat_of_ascii c in
      (Nat.eqb n 44 || Nat.eqb n 93 || Nat.eqb n 125)%bool
  end.

(** The number of nodes of a value: the fuel that parsing it takes. *)
Fixpoint value_size (v : value) : nat :=
  match v with
  | VArr elems => S (list_sum (map value_size elems))
  | VObj fields => S (list_sum (map (fun kv => value_size (snd kv)) fields))
  | _ => 1
  end.

(** JSON data: no [undefined] anywhere, and objects with distinct keys. *)
Fixpoint json_data (v : value) : bool :=
  match v with
  | VUndefined => false
  | VNull | VBool _ | VNum _ | VStr _ => true
  | VArr elems => forallb json_data elems
  | VObj fields =>
      forallb (fun kv => json_data (snd kv)) fields &&
      bool_decide (NoDup (map fst fields))
  end.

(** The text begins with a character that can begin a value. *)
Definition starts_value (s : string) : Prop :=
  match s with
  | String c _ =>
      is_ws c = false /\ c <> "]"%char /\ c <> "}"%char
  | EmptyString => False
  end.

(** [pv] reads the serialisation of [e] back, whatever delimiter follows. *)
Definition parses_as (pv : string -> option (value * string)) (e : value) : Prop :=
  exists text, serialize e = Some text /\ starts_value text /\
    forall rest, is_delim rest = true -> pv (text +:+ rest) = Some (e, rest).

(** The text of an array element. *)
Definition print_elem (e : value) : string := default "null" (serialize e).

(** The text of an object member. *)
Definition print_member (kv : string * value) : string :=
  quote (fst kv) +:+ ":" +:+ default "null" (serialize (snd kv)).

End ReferenceHost.

Definition reference_host : Host :=
  {| JSON_stringify := ReferenceHost.stringify;
     JSON_parse := ReferenceHost.parse;
     ToNumber_other := ReferenceHost.to_number_other |}.

(* ===================================================================== *)
(** * React hook state *)
(* ===================================================================== *)

Inductive ToastKind : Type := ToastSuccess | ToastError.

(** What a hook does that its surroundings can observe, in order: a
    state update that took effect, a call of a remote data function, a
    notification. *)
Inductive Event (S : Type) : Type :=
| Rendered (s : S)
| RemoteCall (name : string)
| Toasted (kind : ToastKind) (message : string).
Arguments Rendered {S} s.
Arguments RemoteCall {S} name.
Arguments Toasted {S} kind message.

(** The state held by [useState]; an updater function that raises does so
    while React renders, and takes the component down. *)
Inductive RenderState (S : Type) : Type :=
| Live (s : S)
| Crashed (e : JSError).
Arguments Live {S} s.
Arguments Crashed {S} e.

Record HookWorld (S : Type) : Type := mkHookWorld {
  hw_storage : Storage;
  hw_state : RenderState S;
  hw_trace : list (Event S)
}.
Arguments mkHookWorld {S} _ _ _.
Arguments hw_storage {S} _.
Arguments hw_state {S} _.
Arguments hw_trace {S} _.

(** The [{ data, error }] pair every mutation returns. *)
Record Result (A : Type) : Type := mkResult {
  res_data : option A;
  res_error : option JSError
}.
Arguments mkResult {A} _ _.
Arguments res_data {A} _.
Arguments res_error {A} _.

Section Hooks.
Context {S : Type}.

(** [setState(prev => f(prev))] *)
Definition setState (f : S -> Completion S) : Eff (HookWorld S) unit :=
  modify (fun w =>
    match hw_state w with
    | Live s =>
        match f s with
        | Normal s' =>
            mkHookWorld (hw_storage w) (Live s') (hw_trace w ++ [Rendered s'])
        | Throw e => mkHookWorld (hw_storage w) (Crashed e) (hw_trace w)
        end
    | Crashed _ => w
    end).

Definition emit (ev : Event S) : Eff (HookWorld S) unit :=
  modify (fun w => mkHookWorld (hw_storage w) (hw_state w) (hw_trace w ++ [ev])).

(** [await f(..)] for a remote data function [f] whose promise settles
    as [o]. *)
Definition call_remote {A} (name : string) (o : Outcome A) : Eff (HookWorld S) A :=
  let* _ := emit (RemoteCall name) in
  await o.

Definition toast (kind : ToastKind) (message : string) : Eff (HookWorld S) unit :=
  emit (Toasted kind message).

Definition on_storage {A} (c : Eff Storage A) : Eff (HookWorld S) A :=
  zoom hw_storage (fun st w => mkHookWorld st (hw_state w) (hw_trace w)) c.

End Hooks.

(** Does a state update take effect before the first remote call of the
    trace?  This is what makes a mutation optimistic. *)
Fixpoint rendered_before_remote {S} (tr : list (Event S)) : bool :=
  match tr with
  | [] => false
  | Rendered _ :: _ => true
  | RemoteCall _ :: _ => false
  | Toasted _ _ :: rest => rendered_before_remote rest
  end.

Definition ReferenceError (name : string) : JSError :=
  mkError "ReferenceError" (name +:+ " is not defined") None.

(** [s.startsWith(p)]; a [TypeError] when [s] is not a string. *)
Definition startsWith (s : value) (p : string) : Completion bool :=
  match s with
  | VStr str => Normal (String.prefix p str)
  | _ => Throw (TypeError "startsWith is not a function")
  end.

(** [try { body } finally { fin }]: [fin] runs however [body] completes,
    and the completion of [body] stands unless [fin] itself raises. *)
Definition try_finally {S A} (body : Eff S A) (fin : Eff S unit) : Eff S A :=
  fun st =>
    let '(r, st') := body st in
    match fin st' with
    | (Normal _, st'') => (r, st'')
    | (Throw e, st'') => (Throw e, st'')
    end.

(** Evaluation in sequence inside an expression: the first part that
    raises ends it. *)
Definition and_then {A B} (c : Completion A) (k : A -> Completion B) : Completion B :=
  match c with
  | Normal a => k a
  | Throw e => Throw e
  end.

(** The elements that [...v] contributes to an array literal: those of an
    array, the characters of a string; anything else is not iterable. *)
Definition iterate (v : value) : Completion (list value) :=
  match v with
  | VArr elems => Normal elems
  | VStr s => Normal (map (fun c => VStr (String c EmptyString)) (list_ascii_of_string s))
  | _ => Throw (TypeError "value is not iterable")
  end.

(** [elems.filter(x => x.id !== id)] *)
Fixpoint filter_id_ne (id : value) (elems : list value) : Completion (list value) :=
  match elems with
  | [] => Normal []
  | x :: rest =>
      and_then (get_prop x "id") (fun x_id =>
      and_then (filter_id_ne id rest) (fun kept =>
      Normal (if strict_eq x_id id then kept else x :: kept)))
  end.

(** [v.filter(x => x.id !== id)]: only an array has the method. *)
Definition filter_by_id (v : value) (id : value) : Completion value :=
  match v with
  | VArr elems => and_then (filter_id_ne id elems) (fun kept => Normal (VArr kept))
  | VUndefined | VNull =>
      Throw (TypeError "Cannot read properties of undefined (reading 'filter')")
  | _ => Throw (TypeError "filter is not a function")
  end.

(** White space as [parseInt] and [trim] see it, among the characters
    below 256. *)
Definition is_js_space (c : ascii) : bool :=
  let n := Ascii.nat_of_ascii c in
  (Nat.eqb n 9 || Nat.eqb n 10 || Nat.eqb n 11 || Nat.eqb n 12 || Nat.eqb n 13 ||
   Nat.eqb n 32 || Nat.eqb n 160)%bool.

Fixpoint trim_start (s : string) : string :=
  match s with
  | String c r => if is_js_space c then trim_start r else s
  | EmptyString => EmptyString
  end.

(** [parseInt(s, 10)]: leading white space, an optional sign, then the
    longest run of decimal digits; [None] is [NaN]. *)
Definition parseInt (s : string) : option Z :=
  let '(negative, digits) :=
    match trim_start s with
    | String "-" r => (true, r)
    | String "+" r => (false, r)
    | t => (false, t)
    end in
  match digits with
  | String c _ =>
      if ReferenceHost.is_digit c then
        let n := fst (ReferenceHost.parse_digits digits 0) in
        Some (if negative then - n else n)
      else None
  | EmptyString => None
  end.

(** The three [useState] cells of a hook that fetches: what it shows
    ([clients], [client]), [loading] and [error]. *)
Record View : Type := mkView {
  view_data : value;
  view_loading : bool;
  view_error : value
}.

Definition setData (v : value) : Eff (HookWorld View) unit :=
  setState (fun s => Normal (mkView v (view_loading s) (view_error s))).
Definition setViewLoading (b : bool) : Eff (HookWorld View) unit :=
  setState (fun s => Normal (mkView (view_data s) b (view_error s))).
Definition setViewError (v : value) : Eff (HookWorld View) unit :=
  setState (fun s => Normal (mkView (view_data s) (view_loading s) v)).

(** The notifications of a trace, and the remote calls of a trace. *)
Fixpoint toasts {S} (tr : list (Event S)) : list (ToastKind * string) :=
  match tr with
  | [] => []
  | Toasted kind message :: rest => (kind, message) :: toasts rest
  | _ :: rest => toasts rest
  end.

Fixpoint remote_calls {S} (tr : list (Event S)) : list string :=
  match tr with
  | [] => []
  | RemoteCall name :: rest => name :: remote_calls rest
  | _ :: rest => remote_calls rest
  end.

(* ===================================================================== *)
(** * hooks/useClients *)
(* ===================================================================== *)

Module useClients.

(** [prev.filter(c => !c.id.startsWith('temp-'))] *)
Fixpoint filter_not_temp (prev : list obj) : Completion (list obj) :=
  match prev with
  | [] => Normal []
  | c :: rest =>
      match startsWith (lookup_field "id" c) "temp-" with
      | Throw e => Throw e
      | Normal is_temp =>
          match filter_not_temp rest with
          | Throw e => Throw e
          | Normal kept => Normal (if is_temp then kept else c :: kept)
          end
      end
  end.

(** [{ id: `temp-${Date.now()}`, ...clientData, created_at: iso }] *)
Definition optimistic_client (clientData : value) (now : Z) (iso : string) : obj :=
  set_field "created_at" (VStr iso)
    (spread [("id", VStr ("temp-" +:+ pretty now))] (spread_fields clientData)).

(** [create(clientData)]; [now] is [Date.now()], [iso] is
    [new Date().toISOString()], [remote] is how
    [createSupabaseClient(clientData)] settles. *)
Definition create (clientData : value) (now : Z) (iso : string)
    (remote : Outcome obj) : Eff (HookWorld (list obj)) (Result obj) :=
  try_catch
    (let optimisticClient := optimistic_client clientData now iso in
     let* _ := setState (fun prev => Normal (prev ++ [optimisticClient])) in
     let* newClient := call_remote "createSupabaseClient" remote in
     let* _ := setState (fun prev =>
                 Normal (map (fun c =>
                           if strict_eq (lookup_field "id" c)
                                        (lookup_field "id" optimisticClient)
                           then newClient else c) prev)) in
     let* _ := on_storage (clearCache "clients") in
     let* _ := toast ToastSuccess "Client created successfully" in
     ret (mkResult (Some newClient) None))
    (fun err =>
     let* _ := console_log err in
     let* _ := setState filter_not_temp in
     let* _ := toast ToastError "Failed to create client" in
     ret (mkResult None (Some err))).

(** [update(clientId, updates)]; [clients] is the collection captured by
    the closure at the last render, [remote] is how
    [updateClient(clientId, updates)] settles.

    [prevClients] is declared with [const] inside the [try] block, so its
    scope ends with that block: the reference to it in the [catch] block
    is to an undeclared identifier and raises [ReferenceError]. *)
Definition update (clients : list obj) (clientId : value) (updates : value)
    (remote : Outcome obj) : Eff (HookWorld (list obj)) (Result obj) :=
  try_catch
    (let prevClients := clients in
     let* _ := setState (fun prev =>
                 Normal (map (fun c =>
                           if strict_eq (lookup_field "id" c) clientId
                           then spread c (spread_fields updates) else c) prev)) in
     let* updatedClient := call_remote "updateClient" remote in
     let* _ := setState (fun prev =>
                 Normal (map (fun c =>
                           if strict_eq (lookup_field "id" c) clientId
                           then spread c updatedClient else c) prev)) in
     let* _ := on_storage (clearCache "clients") in
     let* _ := toast ToastSuccess "Client updated successfully" in
     ret (mkResult (Some updatedClient) None))
    (fun err =>
     let* _ := console_log err in
     let* prevClients := throw (ReferenceError "prevClients") in
     let* _ := setState (fun _ => Normal prevClients) in
     let* _ := toast ToastError "Failed to update client" in
     ret (mkResult None (Some err))).

(** [remove(clientId)]; [remote] is how [deleteClient(clientId)] settles.
    As in [update], [prevClients] is declared inside the [try] block and
    referred to in the [catch] block. *)
Definition remove (clients : list obj) (clientId : value) (remote : Outcome unit)
    : Eff (HookWorld (list obj)) (option JSError) :=
  try_catch
    (let prevClients := clients in
     let* _ := setState (fun prev =>
                 Normal (List.filter
                           (fun c => negb (strict_eq (lookup_field "id" c) clientId))
                           prev)) in
     let* _ := call_remote "deleteClient" remote in
     let* _ := on_storage (clearCache "clients") in
     let* _ := toast ToastSuccess "Client deleted successfully" in
     ret None)
    (fun err =>
     let* _ := console_log err in
     let* prevClients := throw (ReferenceError "prevClients") in
     let* _ := setState (fun _ => Normal prevClients) in
     let* _ := toast ToastError "Failed to delete client" in
     ret (Some err)).

(** [toggleActive(clientId, isActive)] *)
Definition toggleActive (clients : list obj) (clientId : value) (isActive : value)
    (remote : Outcome obj) : Eff (HookWorld (list obj)) (Result obj) :=
  update clients clientId (VObj [("is_active", isActive)]) remote.

Section Fetch.
Context {host : Host}.

(** [fetchClients()]; [now] is the clock at the cache read, [remote] is
    [getClients(activeOnly)] raced against the 2-second timer, [now_store]
    is the clock at the cache write. *)
Definition fetchClients (now : Z) (remote : Raced value) (now_store : Z)
    : Eff (HookWorld View) unit :=
  try_finally
    (let* cached := on_storage (getCached "clients" now) in
     let* _ :=
       if truthy cached then
         let* _ := setData cached in
         setViewError VNull
       else
         let* _ := setViewLoading true in
         setViewError VNull in
     try_catch
       (let* data := call_remote "getClients"
                       (race remote "Request timed out while fetching clients") in
        if truthy data then
          let* _ := setData (js_or data (VArr [])) in
          on_storage (setCached "clients" data (10 * 60 * 1000) now_store)
        else ret tt)
       (fun fetchErr =>
        if negb (truthy cached) then
          let* _ := setViewError (VStr (err_message fetchErr)) in
          toast ToastError "Failed to load clients"
        else ret tt))
    (setViewLoading false).

End Fetch.

End useClients.

(* ===================================================================== *)
(** * hooks/useClients: the single-client hook *)
(* ===================================================================== *)

Module useClient.

(** [update(updates)]; the state is [client] ([null] until loaded). *)
Definition update (updates : value) (remote : Outcome obj)
    : Eff (HookWorld value) (Result obj) :=
  try_catch
    (let* updatedClient := call_remote "updateClient" remote in
     let* _ := setState (fun prev =>
                 Normal (VObj (spread (spread_fields prev) updatedClient))) in
     let* _ := toast ToastSuccess "Client updated successfully" in
     ret (mkResult (Some updatedClient) None))
    (fun err =>
     let* _ := console_log err in
     let* _ := toast ToastError "Failed to update client" in
     ret (mkResult None (Some err))).

(** [remove()]; [remote] is how [deleteClient(clientId)] settles. *)
Definition remove (remote : Outcome unit) : Eff (HookWorld value) (option JSError) :=
  try_catch
    (let* _ := call_remote "deleteClient" remote in
     let* _ := toast ToastSuccess "Client deleted successfully" in
     ret None)
    (fun err =>
     let* _ := console_log err in
     let* _ := toast ToastError "Failed to delete client" in
     ret (Some err)).

(** [prev => ({ ...prev, [field]: [...(prev[field] || []), ...added] })];
    [added] is the evaluation of what follows the old elements. *)
Definition with_appended (field : string) (added : Completion (list value))
    (prev : value) : Completion value :=
  and_then (get_prop prev field) (fun current =>
  and_then (iterate (js_or current (VArr []))) (fun old =>
  and_then added (fun new =>
  Normal (VObj (set_field field (VArr (old ++ new)) (spread_fields prev)))))).

(** [prev => ({ ...prev, [field]: prev[field].filter(x => x.id !== id) })] *)
Definition with_removed (field : string) (id : value) (prev : value) : Completion value :=
  and_then (get_prop prev field) (fun current =>
  and_then (filter_by_id current id) (fun kept =>
  Normal (VObj (set_field field kept (spread_fields prev))))).

(** [addKeywords(keywords)]; [remote] is how
    [addClientKeywords(clientId, keywords)] settles. *)
Definition addKeywords (remote : Outcome value) : Eff (HookWorld value) (Result value) :=
  try_catch
    (let* newKeywords := call_remote "addClientKeywords" remote in
     let* _ := setState (with_appended "keywords" (iterate newKeywords)) in
     let* _ := toast ToastSuccess "Keywords added" in
     ret (mkResult (Some newKeywords) None))
    (fun err =>
     let* _ := console_log err in
     let* _ := toast ToastError "Failed to add keywords" in
     ret (mkResult None (Some err))).

(** [removeKeyword(keywordId)] *)
Definition removeKeyword (keywordId : value) (remote : Outcome unit)
    : Eff (HookWorld value) (option JSError) :=
  try_catch
    (let* _ := call_remote "removeClientKeyword" remote in
     let* _ := setState (with_removed "keywords" keywordId) in
     ret None)
    (fun err =>
     let* _ := console_log err in
     let* _ := toast ToastError "Failed to remove keyword" in
     ret (Some err)).

(** [addSampleComment(comment)] *)
Definition addSampleComment (remote : Outcome value)
    : Eff (HookWorld value) (Result value) :=
  try_catch
    (let* newComment := call_remote "addClientSampleComment" remote in
     let* _ := setState (with_appended "sample_comments" (Normal [newComment])) in
     let* _ := toast ToastSuccess "Sample comment added" in
     ret (mkResult (Some newComment) None))
    (fun err =>
     let* _ := console_log err in
     let* _ := toast ToastError "Failed to add sample comment" in
     ret (mkResult None (Some err))).

(** [removeSampleComment(commentId)] *)
Definition removeSampleComment (commentId : value) (remote : Outcome unit)
    : Eff (HookWorld value) (option JSError) :=
  try_catch
    (let* _ := call_remote "removeClientSampleComment" remote in
     let* _ := setState (with_removed "sample_comments" commentId) in
     ret None)
    (fun err =>
     let* _ := console_log err in
     let* _ := toast ToastError "Failed to remove sample comment" in
     ret (Some err)).

(** [addIndustrySite(site)] *)
Definition addIndustrySite (remote : Outcome value)
    : Eff (HookWorld value) (Result value) :=
  try_catch
    (let* newSite := call_remote "addClientIndustrySite" remote in
     let* _ := setState (with_appended "industry_sites" (Normal [newSite])) in
     let* _ := toast ToastSuccess "Industry site added" in
     ret (mkResult (Some newSite) None))
    (fun err =>
     let* _ := console_log err in
     let* _ := toast ToastError "Failed to add industry site" in
     ret (mkResult None (Some err))).

(** [removeIndustrySite(siteId)] *)
Definition removeIndustrySite (siteId : value) (remote : Outcome unit)
    : Eff (HookWorld value) (option JSError) :=
  try_catch
    (let* _ := call_remote "removeClientIndustrySite" remote in
     let* _ := setState (with_removed "industry_sites" siteId) in
     ret None)
    (fun err =>
     let* _ := console_log err in
     let* _ := toast ToastError "Failed to remove industry site" in
     ret (Some err)).

Section Fetch.
Context {host : Host}.

(** [fetchClient()] of [useClient(clientId)]; [None] is an [undefined]
    [clientId].  The other arguments are as in [useClients.fetchClients]. *)
Definition fetchClient (clientId : option string) (now : Z) (remote : Raced value)
    (now_store : Z) : Eff (HookWorld View) unit :=
  match clientId with
  | None => setViewLoading false
  | Some id =>
      if String.eqb id "" then setViewLoading false
      else
        try_finally
          (let cacheKey := "client_" +:+ id in
           let* cached := on_storage (getCached cacheKey now) in
           let* _ :=
             if truthy cached then
               let* _ := setData cached in
               setViewError VNull
             else
               let* _ := setViewLoading true in
               setViewError VNull in
           try_catch
             (let* data := call_remote "getClient"
                             (race remote "Request timed out while fetching client") in
              let* _ := setData data in
              on_storage (setCached cacheKey data (10 * 60 * 1000) now_store))
             (fun fetchErr =>
              if negb (truthy cached) then
                let* _ := setViewError (VStr (err_message fetchErr)) in
                toast ToastError "Failed to load client"
              else ret tt))
          (setViewLoading false)
  end.

End Fetch.

End useClient.

(* ===================================================================== *)
(** * hooks/useClients: the selection hook *)
(* ===================================================================== *)

Module useClientSelect.

(** [{ value: client.id, label: client.name, industry: client.industry,
       ...client }] *)
Definition clientOption (client : obj) : obj :=
  spread [("value", lookup_field "id" client);
          ("label", lookup_field "name" client);
          ("industry", lookup_field "industry" client)] client.

Definition clientOptions (clients : list obj) : list obj := map clientOption clients.

(** [clients.find(c => c.id === id)] *)
Definition getClientById (clients : list obj) (id : value) : value :=
  match List.find (fun c => strict_eq (lookup_field "id" c) id) clients with
  | Some c => VObj c
  | None => VUndefined
  end.

End useClientSelect.

(* ===================================================================== *)
(** * hooks/useGenerator: the marks on the generated options *)
(* ===================================================================== *)

Module useGenerator.

(** [prev.map((opt, idx) => idx === optionIndex ? { ...opt, [flag]: true } : opt)],
    from the position [idx] on. *)
Fixpoint mark_from (idx : Z) (optionIndex : value) (flag : string) (prev : list obj)
    : list obj :=
  match prev with
  | [] => []
  | opt :: rest =>
      (if strict_eq (VNum idx) optionIndex then set_field flag (VBool true) opt else opt)
      :: mark_from (idx + 1) optionIndex flag rest
  end.

(** [markOptionSaved(optionIndex)] *)
Definition markOptionSaved (optionIndex : value) : Eff (HookWorld (list obj)) unit :=
  setState (fun prev => Normal (mark_from 0 optionIndex "isSaved" prev)).

End useGenerator.

(* ===================================================================== *)
(** * contexts/AuthContext *)
(* ===================================================================== *)

Module AuthContext.

(** The state of [AuthProvider] next to the medium it caches in. *)
Record World : Type := mkWorld {
  storage : Storage;
  user : value;
  profile : value;
  organization : value;
  loading : bool;
  error : value
}.

(** The values of the [useState] calls at mount. *)
Definition initial (st : Storage) : World :=
  mkWorld st VNull VNull VNull true VNull.

Definition setUser (v : value) : Eff World unit :=
  modify (fun w => mkWorld (storage w) v (profile w) (organization w) (loading w) (error w)).
Definition setProfile (v : value) : Eff World unit :=
  modify (fun w => mkWorld (storage w) (user w) v (organization w) (loading w) (error w)).
Definition setOrganization (v : value) : Eff World unit :=
  modify (fun w => mkWorld (storage w) (user w) (profile w) v (loading w) (error w)).
Definition setLoading (b : bool) : Eff World unit :=
  modify (fun w => mkWorld (storage w) (user w) (profile w) (organization w) b (error w)).
Definition setError (v : value) : Eff World unit :=
  modify (fun w => mkWorld (storage w) (user w) (profile w) (organization w) (loading w) v).

Definition on_storage {A} (c : Eff Storage A) : Eff World A :=
  zoom storage
    (fun st w => mkWorld st (user w) (profile w) (organization w) (loading w) (error w)) c.

(** One call of [supabase.auth.getSession()]: it resolves with
    [result.data?.session] and [result.error], or it raises. *)
Inductive SessionAttempt : Type :=
| SessionResult (session : value) (error : option JSError)
| SessionThrew (e : JSError).

(** Everything [initializeAuth] obtains from outside the component. *)
Record BootEnv : Type := mkBootEnv {
  (** [process.env.NODE_ENV === 'production'] *)
  production : bool;
  (** the first and, after an [AbortError], the second [getSession()] *)
  getSession0 : SessionAttempt;
  getSession1 : SessionAttempt;
  (** the 2-second timer fires before [getSessionWithRetry()] settles *)
  session_timed_out : bool;
  (** [getUserProfile()] raced against its timer, first and second call *)
  getUserProfile0 : Raced (option obj);
  getUserProfile1 : Raced (option obj);
  (** in [ensureOrganization]: how the role update settles (it resolves
      with [{ error }] or it rejects; the call is awaited outside the
      [try]), then [data] and [error] of the organization insert and
      [error] of the user update (both inside the [try], where a rejection
      is handled as an error is) *)
  roleUpdate : Outcome (option JSError);
  orgInsert : value * option JSError;
  userUpdateError : option JSError;
  (** [error] of the insert into [users] *)
  userInsertError : option JSError;
  (** the value of [mounted] after the session check, after the profile
      fetch, and in the outer [catch] *)
  mounted_after_session : bool;
  mounted_after_profile : bool;
  mounted_on_error : bool;
  (** [Date.now()] at the successive cache calls *)
  now_boot : Z;
  now_profile_cache : Z;
  now_store : Z;
  now_fallback : Z
}.



(** [ensureOrganization(currentProfile, sessionUser)].  The organization
    name and slug only go into the insert request; the request is
    represented by its result.  The role update is awaited before the
    [try] block begins: when it rejects, so does [ensureOrganization]. *)
Definition ensureOrganization (env : BootEnv) (currentProfile : option obj)
    (sessionUser : value) : Eff World (option obj) :=
  match currentProfile with
  | None => ret None
  | Some p =>
      if truthy (lookup_field "organization" p) then
        if negb (strict_eq (lookup_field "role" p) (VStr "owner")) then
          let* _ := console_log "User has organization but role is not owner, fixing..." in
          let* updateError := await (roleUpdate env) in
          match updateError with
          | None => ret (Some (set_field "role" (VStr "owner") p))
          | Some _ => ret (Some p)
          end
        else ret (Some p)
      else
        try_catch
          (let '(org, orgError) := orgInsert env in
           let* _ := match orgError with
                     | Some e => throw e
                     | None => ret tt
                     end in
           let* org_id := lift (get_prop org "id") in
           let* _ := match userUpdateError env with
                     | Some e => throw e
                     | None => ret tt
                     end in
           let p1 := set_field "organization_id" org_id p in
           let p2 := set_field "organization" org p1 in
           let p3 := set_field "role" (VStr "owner") p2 in
           ret (Some p3))
          (fun err =>
           let* _ := console_log err in
           ret (Some p))
  end.


Section Bootstrap.
Context {host : Host}.




(** [setUser(session.user); setProfile(p); setOrganization(p?.organization || null)] *)
Definition show_profile (session_user p : value) : Eff World unit :=
  let* _ := setUser session_user in
  let* _ := setProfile p in
  setOrganization (js_or (get_prop_opt p "organization") VNull).









End Bootstrap.

(** The medium as it is now. *)
Definition the_medium : Eff World Storage := fun w => (Normal (storage w), w).

(** [signOut()]; [remote] is how [supabase.auth.signOut()] settles, given
    the medium as it is when the call is made: it resolves with
    [{ error }] or it rejects. *)
Definition signOut_at (remote : Storage -> Outcome (option JSError))
    : Eff World (option JSError) :=
  try_catch
    (let* _ := setError VNull in
     let* _ := on_storage (removeItem "dev:mockAuth") in
     let* _ := on_storage (clearCache "userProfile") in
     let* medium := the_medium in
     let* error := await (remote medium) in
     let* _ := match error with
               | Some e => throw e
               | None => ret tt
               end in
     let* _ := setUser VNull in
     let* _ := setProfile VNull in
     let* _ := setOrganization VNull in
     ret None)
    (fun err =>
     let* _ := setError (VStr (err_message err)) in
     ret (Some err)).

(** [signOut()] for a remote call that settles as [remote] whatever the
    medium holds. *)
Definition signOut (remote : Outcome (option JSError)) : Eff World (option JSError) :=
  signOut_at (fun _ => remote).

(** [lastSessionCheckRef()]; [now] is [Date.now()].  The stamp is kept
    under its own key of the medium, outside the cache layer, and the
    calls on the medium are not guarded by a [try]. *)
Definition lastSessionCheckRef (now : Z) : Eff Storage bool :=
  let key := "lastSessionCheck" in
  let* stored := getItem key in
  let text := match stored with
              | Some t => if String.eqb t "" then "0" else t
              | None => "0"
              end in
  match parseInt text with
  | Some last =>
      if 3600000 <? now - last then
        let* _ := setItem key (pretty now) in
        ret true
      else ret false
  | None => ret false
  end.

Section Listener.
Context {host : Host}.

(** The callback given to [supabase.auth.onAuthStateChange].  [mounted]
    is the flag when the event arrives, [mounted_after_profile] the flag
    when the profile fetch has settled; [getUserProfile] is the fetch
    raced against its 2-second timer and [now] the clock at the cache
    call. *)
Definition onAuthStateChange (mounted mounted_after_profile : bool) (event : string)
    (session : value) (getUserProfile : Raced (option obj)) (now : Z) : Eff World unit :=
  if mounted then
    let session_user := get_prop_opt session "user" in
    if truthy session_user then
      if String.eqb event "SIGNED_IN" then
        try_catch
          (let* profileData := await (race getUserProfile "Profile fetch timeout") in
           if mounted_after_profile then
             let* _ := setUser session_user in
             match profileData with
             | Some p =>
                 let* _ := on_storage
                             (setCached "userProfile" (VObj p) (10 * 60 * 1000) now) in
                 let* _ := setProfile (VObj p) in
                 setOrganization (js_or (get_prop_opt (VObj p) "organization") VNull)
             | None => ret tt
             end
           else ret tt)
          (fun profileErr =>
           let* _ := console_log profileErr in
           if mounted_after_profile then setUser session_user else ret tt)
      else
        let* cached := on_storage (getCached "userProfile" now) in
        if truthy cached then show_profile session_user cached
        else setUser session_user
    else
      let* _ := setUser VNull in
      let* _ := setProfile VNull in
      setOrganization VNull
  else ret tt.

End Listener.

(** The body shared, word for word, by [signIn], [signUp],
    [resetPassword] and [updatePassword]: the remote call resolves with
    [{ data, error }] or rejects. *)
Definition result_or_error (remote : Outcome (value * option JSError))
    : Eff World (Result value) :=
  try_catch
    (let* _ := setError VNull in
     let* response := await remote in
     let* _ := match snd response with
               | Some e => throw e
               | None => ret tt
               end in
     ret (mkResult (Some (fst response)) None))
    (fun err =>
     let* _ := setError (VStr (err_message err)) in
     ret (mkResult None (Some err))).

(** [signIn(email, password)]; [remote] is how
    [supabase.auth.signInWithPassword(..)] settles. *)
Definition signIn (remote : Outcome (value * option JSError)) : Eff World (Result value) :=
  result_or_error remote.

(** [signUp(..)]; [remote] is how [supabase.auth.signUp(..)] settles. *)
Definition signUp (remote : Outcome (value * option JSError)) : Eff World (Result value) :=
  result_or_error remote.

(** [resetPassword(email)]; [remote] is how
    [supabase.auth.resetPasswordForEmail(..)] settles. *)
Definition resetPassword (remote : Outcome (value * option JSError))
    : Eff World (Result value) :=
  result_or_error remote.

(** [updatePassword(newPassword)]; [remote] is how
    [supabase.auth.updateUser(..)] settles. *)
Definition updatePassword (remote : Outcome (value * option JSError))
    : Eff World (Result value) :=
  result_or_error remote.

(** [updateProfile(updates)]; [user] is the user captured at the last
    render: the query is built with [user.id] before it is sent, and
    [remote] is how the query settles. *)
Definition updateProfile (user : value) (remote : Outcome (value * option JSError))
    : Eff World (Result value) :=
  try_catch
    (let* _ := setError VNull in
     let* _ := lift (get_prop user "id") in
     let* response := await remote in
     let* _ := match snd response with
               | Some e => throw e
               | None => ret tt
               end in
     let data := fst response in
     let* _ := setProfile data in
     let* _ := setOrganization (js_or (get_prop_opt data "organization") VNull) in
     ret (mkResult (Some data) None))
    (fun err =>
     let* _ := setError (VStr (err_message err)) in
     ret (mkResult None (Some err))).

(** [refreshProfile()]; [remote] is [getUserProfile()] raced against its
    2-second timer. *)
Definition refreshProfile (remote : Raced (option obj)) : Eff World unit :=
  try_catch
    (let* profileData := await (race remote "Profile fetch timeout") in
     match profileData with
     | Some p =>
         let* _ := setProfile (VObj p) in
         setOrganization (js_or (get_prop_opt (VObj p) "organization") VNull)
     | None => ret tt
     end)
    (fun err => console_log err).

(** The computed fields of the context value. *)
Definition isAuthenticated (w : World) : bool := truthy (user w).
Definition isOwner (w : World) : bool :=
  strict_eq (get_prop_opt (profile w) "role") (VStr "owner").
Definition isAdmin (w : World) : bool :=
  (strict_eq (get_prop_opt (profile w) "role") (VStr "admin") ||
   strict_eq (get_prop_opt (profile w) "role") (VStr "owner"))%bool.

End AuthContext.

(* ===================================================================== *)
(** * Notions used by the statements *)
(* ===================================================================== *)

(** [only_cache_keys] from every state. *)
Definition keeps_to_cache_keys {A} (c : Eff Storage A) : Prop :=
  forall st, only_cache_keys c st.

(** [c] leaves [P] standing, however it completes. *)
Definition keeps {S A} (P : S -> Prop) (c : Eff S A) : Prop :=
  forall s, P s -> P (snd (c s)).

(** No identifier of the collection is a string that starts with
    ['temp-']. *)
Definition no_temp_ids (l : list obj) : Prop :=
  Forall (fun c => exists s, lookup_field "id" c = VStr s /\ String.prefix "temp-" s = false) l.

(** The field-level change [update] applies at once. *)
Definition optimistic_update (clientId updates : value) (l : list obj) : list obj :=
  map (fun c => if strict_eq (lookup_field "id" c) clientId
                then spread c (spread_fields updates) else c) l.

(** A mutation that failed with [e]: it returns [r], which carries [e],
    leaves the state and the medium as they were in [w], and sends the
    error notification [message]. *)
Definition failed_without_change {S A} (run : Completion A * HookWorld S)
    (w : HookWorld S) (r : A) (message : string) : Prop :=
  fst run = Normal r /\
  hw_state (snd run) = hw_state w /\
  hw_storage (snd run) = hw_storage w /\
  toasts (hw_trace (snd run)) = toasts (hw_trace w) ++ [(ToastError, message)].

(** None of the elements has the identifier [id]. *)
Definition no_element_with_id (id : value) (elems : list value) : Prop :=
  Forall (fun x => exists x_id, get_prop x "id" = Normal x_id /\ strict_eq x_id id = false)
         elems.

(** What a remote call that answers with [{ data, error }] amounts to:
    its data, or the error it resolved or rejected with. *)
Definition settles_as (remote : Outcome (value * option JSError)) : value + JSError :=
  match remote with
  | Resolved (data, None) => inl data
  | Resolved (_, Some e) => inr e
  | Rejected e => inr e
  end.

(** ** The shapes of the authentication state *)

Module AuthShapes.
Import AuthContext.

(** All three of user, profile and organization are [null]. *)
Definition Anonymous (w : World) : Prop :=
  user w = VNull /\ profile w = VNull /\ organization w = VNull.




(** A profile only next to a user, an organization only next to a
    profile. *)
Definition Consistent (w : World) : Prop :=
  (user w = VNull -> profile w = VNull) /\
  (profile w = VNull -> organization w = VNull).


End AuthShapes.

(** The removals of the medium raise no error. *)
Definition removals_succeed (st : Storage) : Prop :=
  forall m k, fault st m (OpRemoveItem k) = None.





(* ===================================================================== *)
(** * Concrete media, sessions and states *)
(* ===================================================================== *)

(** The medium the examples start from: empty, never raising. *)
Definition empty_storage : Storage := mkStorage ∅ (fun _ _ => None) [].

(** A medium whose quota is exhausted: every write raises. *)
Definition QuotaExceededError : JSError :=
  mkError "QuotaExceededError" "The quota has been exceeded." None.

Definition full_storage : Storage :=
  mkStorage ∅
    (fun _ op => match op with
                 | OpSetItem _ _ => Some QuotaExceededError
                 | _ => None
                 end) [].

(** A medium to which access is denied: every call raises. *)
Definition SecurityError : JSError :=
  mkError "SecurityError" "The operation is insecure." None.

Definition denied_storage : Storage :=
  mkStorage {[ "app_cache_k" := "{" ]} (fun _ _ => Some SecurityError) [].




(** A medium that also holds the theme and the session-check stamp. *)
Definition mixed_storage : Storage :=
  mkStorage
    (<["app_cache_clients" := "[]"]>
       (<["theme" := "dark"]>
          (<["app_cache_userProfile" := "{}"]>
             (<["lastSessionCheck" := "0"]> ∅))))
    (fun _ _ => None) [].

(** A medium with a cache entry that carries no expiry time. *)
Definition unstamped_text : string :=
  match ReferenceHost.stringify (VObj [("data", VNum 5)]) with
  | Normal text => text
  | Throw _ => EmptyString
  end.

Definition unstamped_storage : Storage :=
  mkStorage {[ "app_cache_theme" := unstamped_text ]} (fun _ _ => None) [].

(** A medium whose session-check stamp is not a number. *)
Definition garbled_stamp_storage : Storage :=
  mkStorage {[ "lastSessionCheck" := "yesterday" ]} (fun _ _ => None) [].

(** The cells of a fetching hook at mount. *)
Definition blank_view : View := mkView (VArr []) true VNull.

(** A session for the user [u1]. *)
Definition session_of_u1 : value :=
  VObj [("user", VObj [("id", VStr "u1"); ("email", VStr "u1@example.com")])].

(** A signed-in user whose profile fetch times out, with nothing cached. *)
Definition profile_timeout_env : AuthContext.BootEnv :=
  AuthContext.mkBootEnv true
    (AuthContext.SessionResult session_of_u1 None)
    (AuthContext.SessionResult session_of_u1 None)
    false
    TimedOut TimedOut
    (Resolved None) (VNull, None) None None
    true true true
    0 0 0 0.





(** A signed-in member of an organization; the update of the role rejects. *)
Definition role_update_rejects_env : AuthContext.BootEnv :=
  AuthContext.mkBootEnv true
    (AuthContext.SessionResult session_of_u1 None)
    (AuthContext.SessionResult session_of_u1 None)
    false
    TimedOut TimedOut
    (Rejected (Error "update denied")) (VNull, None) None None
    true true true
    0 0 0 0.

(** A signed-in state with the profile cached. *)
Definition signed_in_world : AuthContext.World :=
  AuthContext.mkWorld
    (mkStorage {[ "app_cache_userProfile" := "{}" ]} (fun _ _ => None) [])
    (VObj [("id", VStr "u1")])
    (VObj [("id", VStr "u1"); ("role", VStr "owner");
           ("organization", VObj [("id", VStr "o1")])])
    (VObj [("id", VStr "o1")])
    false VNull.

(** A signed-in state with the profile cached, on a medium that refuses to
    remove the cached profile. *)
Definition profile_locked_world : AuthContext.World :=
  AuthContext.mkWorld
    (mkStorage {[ "app_cache_userProfile" := "{}" ]}
       (fun _ op => match op with
                    | OpRemoveItem k =>
                        if String.eqb k "app_cache_userProfile"
                        then Some SecurityError else None
                    | _ => None
                    end) [])
    (VObj [("id", VStr "u1")])
    (VObj [("id", VStr "u1"); ("role", VStr "owner")])
    VNull false VNull.

(** A remote sign-out that fails exactly when the cached profile is gone. *)
Definition fails_once_cleared (st : Storage) : Outcome (option JSError) :=
  match items st !! "app_cache_userProfile" with
  | Some _ => Resolved None
  | None => Rejected (Error "network")
  end.

(* ===================================================================== *)
(** * Properties of the cache layer *)
(* ===================================================================== *)

Lemma prefix_app (p k : string) : String.prefix p (p +:+ k) = true.
Proof.
  induction p as [|a p IH]; simpl.
  - now destruct k.
  - destruct (ascii_dec a a); [exact IH | congruence].
Qed.

Lemma cache_key_prefixed (key : string) :
  String.prefix CACHE_PREFIX (CACHE_PREFIX +:+ key) = true.
Proof. apply prefix_app. Qed.

Section CacheFacts.
Context {host : Host}.

Lemma setCached_stores (st : Storage) (key : string) (data : value) (ttl now : Z)
    (text : string) :
  JSON_stringify (cache_entry data (now + ttl)) = Normal text ->
  fault st (items st) (OpSetItem (CACHE_PREFIX +:+ key) text) = None ->
  setCached key data ttl now st =
    (Normal tt,
     mkStorage (<[CACHE_PREFIX +:+ key := text]> (items st)) (fault st)
       (calls st ++ [OpSetItem (CACHE_PREFIX +:+ key) text])).
Proof.
  intros Hs Hf.
  unfold setCached, try_catch, bind, lift, setItem, guarded.
  rewrite Hs. simpl. rewrite Hf. reflexivity.
Qed.

Lemma getCached_hit (st : Storage) (key : string) (now : Z) (text : string) (fs : obj) :
  fault st (items st) (OpGetItem (CACHE_PREFIX +:+ key)) = None ->
  items st !! (CACHE_PREFIX +:+ key) = Some text ->
  text <> "" ->
  JSON_parse text = Normal (VObj fs) ->
  js_gt now (lookup_field "expiresAt" fs) = false ->
  getCached key now st =
    (Normal (lookup_field "data" fs), journal (OpGetItem (CACHE_PREFIX +:+ key)) st).
Proof.
  intros Hf Hi Hne Hp Hgt.
  unfold getCached, try_catch, bind, lift, getItem, guarded.
  rewrite Hf. simpl. rewrite Hi.
  apply String.eqb_neq in Hne. rewrite Hne, Hp. simpl. rewrite Hgt. reflexivity.
Qed.

Lemma getCached_expired (st : Storage) (key : string) (now : Z) (text : string) (fs : obj) :
  fault st (items st) (OpGetItem (CACHE_PREFIX +:+ key)) = None ->
  fault st (items st) (OpRemoveItem (CACHE_PREFIX +:+ key)) = None ->
  items st !! (CACHE_PREFIX +:+ key) = Some text ->
  text <> "" ->
  JSON_parse text = Normal (VObj fs) ->
  js_gt now (lookup_field "expiresAt" fs) = true ->
  getCached key now st =
    (Normal VNull,
     mkStorage (delete (CACHE_PREFIX +:+ key) (items st)) (fault st)
       (calls st ++ [OpGetItem (CACHE_PREFIX +:+ key); OpRemoveItem (CACHE_PREFIX +:+ key)])).
Proof.
  intros Hf Hr Hi Hne Hp Hgt.
  unfold getCached, try_catch, bind, lift, getItem, removeItem, guarded.
  rewrite Hf. simpl. rewrite Hi.
  apply String.eqb_neq in Hne. rewrite Hne, Hp. simpl. rewrite Hgt. simpl.
  rewrite Hr. simpl. unfold with_items, journal. simpl.
  rewrite <- app_assoc. reflexivity.
Qed.

Lemma js_gt_num (now e : Z) : js_gt now (VNum e) = (e <? now).
Proof. reflexivity. Qed.

(** A value written by [setCached] on a medium that accepts the write is
    served by [getCached] as long as the clock has not gone past
    [now + ttl]; the instant [now + ttl] itself is included. *)
Lemma getCached_setCached_fresh (st : Storage) (k : string) (v v' : value)
    (ttl t0 t1 : Z) :
  reliable st ->
  reads_back v (t0 + ttl) v' ->
  t1 <= t0 + ttl ->
  getCached k t1 (snd (setCached k v ttl t0 st)) =
    (Normal v', journal (OpGetItem (CACHE_PREFIX +:+ k)) (snd (setCached k v ttl t0 st))).
Proof.
  intros Hrel (text & fs & Hs & Hne & Hp & Hd & He) Hle.
  rewrite (setCached_stores st k v ttl t0 text Hs (Hrel _ _)). simpl.
  rewrite (getCached_hit _ k t1 text fs); simpl.
  - rewrite Hd. reflexivity.
  - apply Hrel.
  - apply lookup_insert_eq.
  - exact Hne.
  - exact Hp.
  - rewrite He, js_gt_num. apply Z.ltb_ge. exact Hle.
Qed.

(** Once the clock has gone past [now + ttl], the read is a miss and
    removes the entry. *)
Lemma getCached_setCached_stale (st : Storage) (k : string) (v v' : value)
    (ttl t0 t1 : Z) :
  reliable st ->
  reads_back v (t0 + ttl) v' ->
  t0 + ttl < t1 ->
  exists st2,
    getCached k t1 (snd (setCached k v ttl t0 st)) = (Normal VNull, st2) /\
    items st2 = delete (CACHE_PREFIX +:+ k) (items st) /\
    fault st2 = fault st.
Proof.
  intros Hrel (text & fs & Hs & Hne & Hp & Hd & He) Hlt.
  rewrite (setCached_stores st k v ttl t0 text Hs (Hrel _ _)). simpl.
  eexists. split; [|split].
  - apply (getCached_expired _ k t1 text fs); simpl.
    + apply Hrel.
    + apply Hrel.
    + apply lookup_insert_eq.
    + exact Hne.
    + exact Hp.
    + rewrite He, js_gt_num. apply Z.ltb_lt. exact Hlt.
  - simpl. apply delete_insert_eq.
  - reflexivity.
Qed.

End CacheFacts.

Lemma empty_storage_reliable : reliable empty_storage.
Proof. intros m op. reflexivity. Qed.

(** ** The reference host reads back what it writes *)

Module ReferenceHostFacts.
Import ReferenceHost.

(** *** Integer literals *)

Lemma pretty_N_char_digit (d : N) :
  (d < 10)%N ->
  is_digit (pretty_N_char d) = true /\
  Z.of_nat (Ascii.nat_of_ascii (pretty_N_char d) - 48) = Z.of_N d.
Proof.
  intros Hd.
  assert (H10 : (d = 0 \/ d = 1 \/ d = 2 \/ d = 3 \/ d = 4 \/
                 d = 5 \/ d = 6 \/ d = 7 \/ d = 8 \/ d = 9)%N) by lia.
  repeat (destruct H10 as [-> | H10]; [split; reflexivity|]). subst. split; reflexivity.
Qed.

(** Reading the digits that [pretty] prepends to [s] continues with [s];
    from 0 the number read so far is [x]. *)
Lemma parse_digits_pretty_go (x : N) :
  forall s acc, exists m,
    parse_digits (pretty_N_go x s) acc = parse_digits s m /\
    (acc = 0 -> m = Z.of_N x).
Proof.
  induction x as [x IH] using (well_founded_induction N.lt_wf_0).
  intros s acc. destruct (decide (x = 0)%N) as [->|Hx].
  - exists acc. rewrite pretty_N_go_0. split; [reflexivity | auto].
  - rewrite pretty_N_go_step by lia.
    destruct (IH (x `div` 10)%N) with
      (s := String (pretty_N_char (x `mod` 10)) s) (acc := acc) as (m & Hm & Hacc).
    { apply N.div_lt; lia. }
    destruct (pretty_N_char_digit (x `mod` 10)%N) as [Hd Hv].
    { apply N.mod_lt. lia. }
    exists (10 * m + Z.of_N (x `mod` 10)). split.
    + rewrite Hm. simpl. rewrite Hd, Hv. reflexivity.
    + intros ->. rewrite (Hacc eq_refl).
      rewrite (N.div_mod x 10) at 3 by lia. lia.
Qed.

(** A positive number is printed with a first digit other than 0. *)
Lemma pretty_go_first (x : N) :
  (0 < x)%N -> forall s, exists c r,
    pretty_N_go x s = String c r /\ is_digit c = true /\ c <> "0"%char.
Proof.
  induction x as [x IH] using (well_founded_induction N.lt_wf_0).
  intros Hx s. rewrite pretty_N_go_step by lia.
  destruct (decide (x `div` 10 = 0)%N) as [Hq|Hq].
  - rewrite Hq, pretty_N_go_0. do 2 eexists. split; [reflexivity|].
    assert (Hlt : (x < 10)%N).
    { pose proof (N.div_mod x 10 ltac:(lia)) as Hdm.
      pose proof (N.mod_lt x 10 ltac:(lia)) as Hm. rewrite Hq in Hdm.
      rewrite N.mul_0_r, N.add_0_l in Hdm. rewrite Hdm. exact Hm. }
    rewrite N.mod_small by lia.
    assert (H10 : (x = 1 \/ x = 2 \/ x = 3 \/ x = 4 \/ x = 5 \/
                   x = 6 \/ x = 7 \/ x = 8 \/ x = 9)%N) by lia.
    repeat (destruct H10 as [-> | H10]; [split; [reflexivity | discriminate]|]).
    subst. split; [reflexivity | discriminate].
  - apply IH; [apply N.div_lt; lia | apply N.neq_0_lt_0, Hq].
Qed.

Lemma parse_digits_stop (rest : string) (m : Z) :
  is_delim rest = true -> parse_digits rest m = (m, rest).
Proof.
  destruct rest as [|c r]; [reflexivity|]. simpl. intros Hd.
  destruct c as [[] [] [] [] [] [] [] []]; try reflexivity; discriminate.
Qed.

Lemma delim_not_continues (rest : string) :
  is_delim rest = true ->
  match rest with
  | String "." _ | String "e" _ | String "E" _ => true
  | _ => false
  end = false.
Proof.
  destruct rest as [|c r]; [reflexivity|]. simpl.
  destruct c as [[] [] [] [] [] [] [] []]; simpl; try reflexivity; discriminate.
Qed.

Lemma delim_not_digit (rest : string) :
  is_delim rest = true ->
  match rest with
  | String d _ => is_digit d
  | EmptyString => false
  end = false.
Proof.
  destruct rest as [|c r]; [reflexivity|]. simpl.
  destruct c as [[] [] [] [] [] [] [] []]; simpl; try reflexivity; discriminate.
Qed.

Lemma pretty_go_app (x : N) :
  forall s rest, pretty_N_go x s +:+ rest = pretty_N_go x (s +:+ rest).
Proof.
  induction x as [x IH] using (well_founded_induction N.lt_wf_0).
  intros s rest. destruct (decide (x = 0)%N) as [->|Hx].
  - rewrite !pretty_N_go_0. reflexivity.
  - rewrite (pretty_N_go_step x s), (pretty_N_go_step x (s +:+ rest)) by lia.
    rewrite IH by (apply N.div_lt; lia). reflexivity.
Qed.

Lemma parse_nat_pretty_pos (p : positive) (rest : string) :
  is_delim rest = true ->
  exists c r, pretty (N.pos p) +:+ rest = String c r /\ is_digit c = true /\
    parse_nat (String c r) = Some (Z.pos p, rest).
Proof.
  intros Hd. unfold pretty, pretty_N. simpl.
  destruct (pretty_go_first (N.pos p) ltac:(lia) "") as (c & r & Hgo & Hdig & Hnz).
  exists c, (r +:+ rest). rewrite Hgo. simpl. split; [reflexivity|].
  split; [exact Hdig|].
  assert (Hpd : parse_digits (String c (r +:+ rest)) 0 = (Z.pos p, rest)).
  { change (String c (r +:+ rest)) with (String c r +:+ rest).
    rewrite <- Hgo, pretty_go_app. change (EmptyString +:+ rest) with rest.
    destruct (parse_digits_pretty_go (N.pos p) rest 0) as (m & -> & Hm).
    rewrite (Hm eq_refl). apply parse_digits_stop, Hd. }
  assert (Hzero : match c with
                  | "0"%char => match r +:+ rest with
                                | EmptyString => false
                                | String d _ => is_digit d
                                end
                  | _ => false
                  end = false).
  { destruct c as [[] [] [] [] [] [] [] []]; try reflexivity. contradiction. }
  unfold parse_nat. rewrite Hdig, Hzero.
  simpl in Hpd. rewrite Hdig in Hpd. rewrite Hpd. simpl.
  rewrite (delim_not_continues rest Hd). reflexivity.
Qed.

(** The decimal numeral of [n], followed by a delimiter, parses as [n]. *)
Lemma parse_int_pretty (n : Z) (rest : string) :
  is_delim rest = true ->
  exists c r, pretty n +:+ rest = String c r /\
    (is_digit c = true \/ c = "-"%char) /\
    parse_int (String c r) = Some (n, rest).
Proof.
  intros Hd. destruct n as [|p|p].
  - exists "0"%char, rest. split; [reflexivity|]. split; [left; reflexivity|].
    unfold parse_int, parse_nat. simpl. rewrite (parse_digits_stop rest _ Hd).
    rewrite (delim_not_digit rest Hd), (delim_not_continues rest Hd). reflexivity.
  - destruct (parse_nat_pretty_pos p rest Hd) as (c & r & Heq & Hdig & Hp).
    exists c, r. split; [exact Heq|]. split; [left; exact Hdig|].
    unfold parse_int. rewrite Hp.
    destruct c as [[] [] [] [] [] [] [] []]; try reflexivity; discriminate.
  - destruct (parse_nat_pretty_pos p rest Hd) as (c & r & Heq & Hdig & Hp).
    exists "-"%char, (String c r). split.
    + change (pretty (Z.neg p)) with ("-" +:+ pretty (N.pos p)).
      change (("-" +:+ pretty (N.pos p)) +:+ rest)
        with (String "-" (pretty (N.pos p) +:+ rest)).
      rewrite Heq. reflexivity.
    + split; [right; reflexivity|].
      unfold parse_int. rewrite Hp. reflexivity.
Qed.

(** *** String literals *)

Lemma parse_chars_escape (c : ascii) (tail : string) :
  parse_chars (escape c +:+ tail) =
    match parse_chars tail with
    | Some (str, rest) => Some (String c str, rest)
    | None => None
    end.
Proof.
  destruct c as [[] [] [] [] [] [] [] []]; reflexivity.
Qed.

Lemma append_assoc (a b c : string) : (a +:+ b) +:+ c = a +:+ (b +:+ c).
Proof.
  induction a as [|x a IH]; [reflexivity|].
  change (String x ((a +:+ b) +:+ c) = String x (a +:+ (b +:+ c))). f_equal. exact IH.
Qed.

Lemma append_nil_r (a : string) : a +:+ EmptyString = a.
Proof.
  induction a as [|x a IH]; [reflexivity|].
  change (String x (a +:+ EmptyString) = String x a). f_equal. exact IH.
Qed.

(** The escaped characters of [s], followed by the closing quote, parse
    as [s]. *)
Lemma parse_chars_quote (s rest : string) :
  parse_chars (quote_chars s +:+ String dq rest) = Some (s, rest).
Proof.
  induction s as [|c s IH]; [reflexivity|].
  change (quote_chars (String c s)) with (escape c +:+ quote_chars s).
  rewrite append_assoc, parse_chars_escape, IH.
  reflexivity.
Qed.

(** *** Values *)

(** Induction on values that reaches into arrays and objects. *)
Lemma value_ind' (P : value -> Prop) :
  P VUndefined -> P VNull -> (forall b, P (VBool b)) -> (forall n, P (VNum n)) ->
  (forall s, P (VStr s)) ->
  (forall elems, Forall P elems -> P (VArr elems)) ->
  (forall fields, Forall (fun kv => P (snd kv)) fields -> P (VObj fields)) ->
  forall v, P v.
Proof.
  intros Hu Hn Hb Hz Hs Ha Ho.
  fix IH 1. intros [| |b|n|s|elems|fields];
    [exact Hu | exact Hn | apply Hb | apply Hz | apply Hs | |].
  - apply Ha. induction elems as [|e elems IHl]; constructor; [apply IH | exact IHl].
  - apply Ho. induction fields as [|[k e] fields IHl]; constructor; [apply IH | exact IHl].
Qed.

Lemma append_cons (c : ascii) (a b : string) : String c a +:+ b = String c (a +:+ b).
Proof. reflexivity. Qed.

Lemma starts_value_app (s rest : string) : starts_value s -> starts_value (s +:+ rest).
Proof. destruct s as [|c s]; [intros []|]. rewrite append_cons. auto. Qed.

Lemma skip_ws_starts (s : string) : starts_value s -> skip_ws s = s.
Proof.
  destruct s as [|c s]; [intros []|]. intros (Hw & _). simpl. rewrite Hw. reflexivity.
Qed.

Lemma parse_value_int (f : nat) (c : ascii) (r : string) (n : Z) (rest : string) :
  is_digit c = true \/ c = "-"%char ->
  parse_int (String c r) = Some (n, rest) ->
  parse_value (S f) (String c r) = Some (VNum n, rest) /\ starts_value (String c r).
Proof.
  intros Hc Hp.
  destruct Hc as [Hc | ->].
  - destruct c as [[] [] [] [] [] [] [] []]; try discriminate Hc;
      (split; [simpl; simpl in Hp; rewrite Hp; reflexivity
              | repeat split; discriminate]).
  - split; [simpl; simpl in Hp; rewrite Hp; reflexivity | repeat split; discriminate].
Qed.

Lemma parse_value_array (f : nat) (r : string) (out : option (value * string)) :
  starts_value r ->
  parse_elements (parse_value f) f r [] = out ->
  parse_value (S f) (String "[" r) = out.
Proof.
  destruct r as [|c r0]; [intros []|]. intros (Hw & Hb & _) Hout.
  destruct c as [[] [] [] [] [] [] [] []];
    try discriminate Hw; try (exfalso; apply Hb; reflexivity); exact Hout.
Qed.

Lemma parse_value_object (f : nat) (r : string) (out : option (value * string)) :
  starts_value r ->
  parse_members (parse_value f) f r [] = out ->
  parse_value (S f) (String "{" r) = out.
Proof.
  destruct r as [|c r0]; [intros []|]. intros (Hw & _ & Hb) Hout.
  destruct c as [[] [] [] [] [] [] [] []];
    try discriminate Hw; try (exfalso; apply Hb; reflexivity); exact Hout.
Qed.

Lemma parse_elements_serialize (pv : string -> option (value * string))
    (l : list value) :
  l <> [] ->
  Forall (parses_as pv) l ->
  forall n acc rest, (length l <= n)%nat ->
    parse_elements pv n (join "," (map print_elem l) +:+ String "]" rest) acc
      = Some (VArr (acc ++ l), rest).
Proof.
  intros Hne Hall. induction Hall as [|e l (text & Hs & Hst & Hpv) Hall IH];
    [contradiction|].
  intros n acc rest Hn. destruct n as [|n]; [simpl in Hn; lia|].
  destruct l as [|e2 l].
  - change (join "," (map print_elem [e])) with (print_elem e).
    unfold print_elem. rewrite Hs. simpl default.
    simpl parse_elements. rewrite Hpv by reflexivity. reflexivity.
  - change (join "," (map print_elem (e :: e2 :: l)))
      with (print_elem e +:+ "," +:+ join "," (map print_elem (e2 :: l))).
    unfold print_elem at 1. rewrite Hs. simpl default.
    rewrite append_assoc.
    change (("," +:+ join "," (map print_elem (e2 :: l))) +:+ String "]" rest)
      with (String "," (join "," (map print_elem (e2 :: l)) +:+ String "]" rest)).
    simpl parse_elements. rewrite Hpv by reflexivity.
    change (skip_ws (String "," ?x)) with (String "," x).
    cbv beta iota.
    rewrite IH; [|discriminate|simpl in *; lia].
    rewrite <- app_assoc. reflexivity.
Qed.

Lemma set_field_fresh (k : string) (v : value) (acc : obj) :
  k ∉ acc.*1 -> set_field k v acc = acc ++ [(k, v)].
Proof.
  induction acc as [|[k0 v0] acc IH]; [reflexivity|]. intros Hk. simpl in *.
  apply not_elem_of_cons in Hk as [Hne Hk].
  apply String.eqb_neq in Hne. rewrite Hne, IH by exact Hk. reflexivity.
Qed.

Lemma parse_members_serialize (pv : string -> option (value * string)) (fs : obj) :
  fs <> [] ->
  Forall (fun kv => parses_as pv (snd kv)) fs ->
  forall n acc rest, (length fs <= n)%nat -> NoDup (acc.*1 ++ fs.*1) ->
    parse_members pv n (join "," (map print_member fs) +:+ String "}" rest) acc
      = Some (VObj (acc ++ fs), rest).
Proof.
  intros Hne Hall. induction Hall as [|[k e] fs (text & Hs & Hst & Hpv) Hall IH];
    [contradiction|].
  intros n acc rest Hn Hnd. destruct n as [|n]; [simpl in Hn; lia|].
  simpl in Hs, Hpv.
  assert (Hk : k ∉ acc.*1).
  { apply NoDup_app in Hnd as (_ & Hdis & _). intros Hin.
    apply (Hdis k Hin). left. }
  assert (Hhead : forall tail, is_delim tail = true ->
             parse_members pv (S n) (print_member (k, e) +:+ tail) acc =
             match skip_ws tail with
             | String "," r2 => parse_members pv n r2 (acc ++ [(k, e)])
             | String "}" r2 => Some (VObj (acc ++ [(k, e)]), r2)
             | _ => None
             end).
  { intros tail Htail. unfold print_member, quote. simpl fst. simpl snd.
    rewrite Hs. simpl default.
    rewrite !append_assoc, !append_cons, append_assoc.
    simpl parse_members.
    change (String dq EmptyString +:+ String ":" (EmptyString +:+ text +:+ tail))
      with (String dq (String ":" (text +:+ tail))).
    rewrite parse_chars_quote.
    change (skip_ws (String ":" (text +:+ tail))) with (String ":" (text +:+ tail)).
    cbv beta iota. rewrite (Hpv tail Htail), (set_field_fresh k e acc Hk).
    reflexivity. }
  destruct fs as [|kv2 fs].
  - change (join "," (map print_member [(k, e)])) with (print_member (k, e)).
    rewrite Hhead by reflexivity. reflexivity.
  - change (join "," (map print_member ((k, e) :: kv2 :: fs)))
      with (print_member (k, e) +:+ "," +:+ join "," (map print_member (kv2 :: fs))).
    rewrite append_assoc.
    change (("," +:+ join "," (map print_member (kv2 :: fs))) +:+ String "}" rest)
      with (String "," (join "," (map print_member (kv2 :: fs)) +:+ String "}" rest)).
    rewrite Hhead by reflexivity.
    change (skip_ws (String "," ?x)) with (String "," x). cbv beta iota.
    rewrite IH; [|discriminate|simpl in *; lia|].
    + rewrite <- app_assoc. reflexivity.
    + rewrite fmap_app. simpl. rewrite <- app_assoc. exact Hnd.
Qed.

Lemma value_size_pos (v : value) : (1 <= value_size v)%nat.
Proof. destruct v; simpl; lia. Qed.

Lemma list_sum_bounds {A} (size : A -> nat) (l : list A) :
  (forall x, 1 <= size x)%nat ->
  (length l <= list_sum (map size l))%nat /\
  Forall (fun x => size x <= list_sum (map size l))%nat l.
Proof.
  intros Hpos. induction l as [|x l [IHlen IHall]]; simpl.
  - split; [lia | constructor].
  - specialize (Hpos x). split; [lia|]. constructor; [lia|].
    eapply Forall_impl; [exact IHall|]. simpl. intros y Hy. lia.
Qed.

Lemma pretty_starts (n : Z) : starts_value (pretty n).
Proof.
  destruct (parse_int_pretty n EmptyString eq_refl) as (c & r & Heq & Hc & Hp).
  rewrite append_nil_r in Heq. rewrite Heq.
  apply (parse_value_int 0 c r n EmptyString Hc Hp).
Qed.

Lemma join_starts (x : string) (l : list string) :
  starts_value x -> starts_value (join "," (x :: l)).
Proof.
  intros Hx. destruct l as [|y l]; [exact Hx|].
  change (join "," (x :: y :: l)) with (x +:+ "," +:+ join "," (y :: l)).
  apply starts_value_app, Hx.
Qed.

Lemma omap_all_some {A B} (F : A -> option B) (G : A -> B) (l : list A) :
  Forall (fun x => F x = Some (G x)) l -> omap F l = map G l.
Proof.
  induction 1 as [|x l Hx Hall IH]; [reflexivity|].
  change (omap F (x :: l))
    with (match F x with Some y => y :: omap F l | None => omap F l end).
  rewrite Hx, IH. reflexivity.
Qed.

Lemma omap_members (fields : obj) :
  Forall (fun kv => exists text, serialize (snd kv) = Some text) fields ->
  omap (fun kv => match serialize (snd kv) with
                  | Some t => Some (quote (fst kv) +:+ ":" +:+ t)
                  | None => None
                  end) fields = map print_member fields.
Proof.
  intros Hall. apply omap_all_some.
  eapply Forall_impl; [exact Hall|]. intros [k e] (text & Hs). simpl in *.
  unfold print_member. simpl. rewrite Hs. reflexivity.
Qed.

(** Parsing the serialisation of a JSON datum, followed by any delimiter,
    gives the datum back and stops at the delimiter. *)
Lemma serialize_parse (v : value) :
  json_data v = true ->
  forall fuel, (value_size v <= fuel)%nat -> parses_as (parse_value fuel) v.
Proof.
  induction v as [| |b|n|s|elems IH|fields IH] using value_ind';
    intros Hjd fuel Hfuel; try discriminate Hjd;
    (destruct fuel as [|f]; [pose proof (value_size_pos VNull); simpl in Hfuel; lia|]).
  - exists "null". repeat split; discriminate.
  - destruct b; [exists "true" | exists "false"]; repeat split; discriminate.
  - exists (pretty n). split; [reflexivity|]. split; [apply pretty_starts|].
    intros rest Hrest.
    destruct (parse_int_pretty n rest Hrest) as (c & r & -> & Hc & Hp).
    apply (parse_value_int f c r n rest Hc Hp).
  - exists (quote s). split; [reflexivity|]. split; [repeat split; discriminate|].
    intros rest Hrest. unfold quote.
    rewrite append_cons, append_assoc, append_cons.
    change (EmptyString +:+ rest) with rest.
    change (parse_value (S f) (String dq (quote_chars s +:+ String dq rest)))
      with (match parse_chars (quote_chars s +:+ String dq rest) with
            | Some (str, rest0) => Some (VStr str, rest0)
            | None => None
            end).
    rewrite parse_chars_quote. reflexivity.
  - simpl in Hjd, Hfuel.
    destruct (list_sum_bounds value_size elems value_size_pos) as [Hlen Hsizes].
    assert (Hall : Forall (parses_as (parse_value f)) elems).
    { rewrite forallb_forall in Hjd. rewrite Forall_forall in IH, Hsizes.
      apply Forall_forall. intros e He.
      apply IH; [exact He | apply Hjd, list_elem_of_In, He |].
      specialize (Hsizes e He). simpl in Hsizes. lia. }
    exists ("[" +:+ join "," (map print_elem elems) +:+ "]").
    split; [reflexivity|]. split; [repeat split; discriminate|].
    intros rest Hrest.
    rewrite append_cons. change (EmptyString +:+ ?x) with x.
    rewrite append_cons, append_assoc. change ("]" +:+ rest) with (String "]" rest).
    destruct elems as [|e elems]; [reflexivity|].
    apply parse_value_array.
    + apply starts_value_app. simpl map. apply join_starts.
      inversion Hall as [|? ? (text & Hs & Hst & _) _]; subst.
      unfold print_elem. rewrite Hs. exact Hst.
    + apply (parse_elements_serialize _ (e :: elems)); [discriminate | exact Hall | lia].
  - simpl in Hjd, Hfuel. apply andb_true_iff in Hjd as [Hjd Hnd].
    apply bool_decide_eq_true in Hnd.
    destruct (list_sum_bounds (fun kv : string * value => value_size (snd kv)) fields
                (fun kv => value_size_pos (snd kv))) as [Hlen Hsizes].
    assert (Hall : Forall (fun kv => parses_as (parse_value f) (snd kv)) fields).
    { rewrite forallb_forall in Hjd. rewrite Forall_forall in IH, Hsizes.
      apply Forall_forall. intros kv Hkv.
      apply IH; [exact Hkv | apply Hjd, list_elem_of_In, Hkv |].
      specialize (Hsizes kv Hkv). simpl in Hsizes. lia. }
    exists ("{" +:+ join "," (map print_member fields) +:+ "}").
    split.
    { simpl. rewrite omap_members; [reflexivity|].
      eapply Forall_impl; [exact Hall|]. intros kv (text & Hs & _). eauto. }
    split; [repeat split; discriminate|].
    intros rest Hrest.
    rewrite append_cons. change (EmptyString +:+ ?x) with x.
    rewrite append_cons, append_assoc. change ("}" +:+ rest) with (String "}" rest).
    destruct fields as [|kv fields]; [reflexivity|].
    apply parse_value_object.
    + apply starts_value_app. simpl map. apply join_starts.
      unfold print_member, quote. rewrite append_cons. repeat split; discriminate.
    + apply (parse_members_serialize _ (kv :: fields));
        [discriminate | exact Hall | lia | exact Hnd].
Qed.

Lemma length_append (a b : string) :
  String.length (a +:+ b) = (String.length a + String.length b)%nat.
Proof.
  induction a as [|x a IH]; [reflexivity|].
  rewrite append_cons. simpl. rewrite IH. reflexivity.
Qed.

Lemma join_length_sum {A} (size : A -> nat) (pr : A -> string) (l : list A) :
  Forall (fun x => size x <= String.length (pr x))%nat l ->
  (list_sum (map size l) <= String.length (join "," (map pr l)))%nat.
Proof.
  induction 1 as [|x l Hx Hall IH]; [simpl; lia|].
  destruct l as [|y l]; [simpl in *; lia|].
  change (join "," (map pr (x :: y :: l)))
    with (pr x +:+ "," +:+ join "," (map pr (y :: l))).
  rewrite !length_append. simpl in *. lia.
Qed.

(** The text of a JSON datum is at least as long as the datum has nodes:
    the fuel [parse] starts with is enough. *)
Lemma size_le_length (v : value) :
  json_data v = true ->
  forall text, serialize v = Some text -> (value_size v <= String.length text)%nat.
Proof.
  induction v as [| |b|n|s|elems IH|fields IH] using value_ind';
    intros Hjd text Hs; try discriminate Hjd.
  - injection Hs as <-. simpl. lia.
  - destruct b; injection Hs as <-; simpl; lia.
  - injection Hs as <-. pose proof (pretty_starts n) as Hst.
    destruct (pretty n); [destruct Hst | simpl; lia].
  - injection Hs as <-. unfold quote. simpl. lia.
  - simpl in Hjd. injection Hs as <-.
    change (String.length ("[" +:+ join "," (map print_elem elems) +:+ "]")
            >= value_size (VArr elems))%nat.
    rewrite append_cons. change (EmptyString +:+ ?x) with x.
    simpl String.length. rewrite length_append. simpl.
    assert (Hsum : (list_sum (map value_size elems)
                    <= String.length (join "," (map print_elem elems)))%nat).
    { apply join_length_sum. rewrite forallb_forall in Hjd.
      rewrite Forall_forall in IH. apply Forall_forall. intros e He.
      assert (Hje : json_data e = true) by (apply Hjd, list_elem_of_In, He).
      destruct (serialize_parse e Hje _ (le_n _)) as (te & Hse & _).
      unfold print_elem. rewrite Hse. simpl. apply (IH e He Hje te Hse). }
    lia.
  - simpl in Hjd. apply andb_true_iff in Hjd as [Hjd _].
    assert (Hall : Forall (fun kv => exists text, serialize (snd kv) = Some text) fields).
    { rewrite forallb_forall in Hjd. apply Forall_forall. intros kv Hkv.
      assert (Hje : json_data (snd kv) = true) by (apply Hjd, list_elem_of_In, Hkv).
      destruct (serialize_parse _ Hje _ (le_n _)) as (te & Hse & _). eauto. }
    simpl in Hs. rewrite (omap_members fields Hall) in Hs. injection Hs as <-.
    rewrite append_cons. change (EmptyString +:+ ?x) with x.
    simpl String.length. rewrite length_append. simpl.
    assert (Hsum : (list_sum (map (fun kv : string * value => value_size (snd kv)) fields)
                    <= String.length (join "," (map print_member fields)))%nat).
    { apply join_length_sum. rewrite forallb_forall in Hjd.
      rewrite Forall_forall in IH. apply Forall_forall. intros kv Hkv.
      assert (Hje : json_data (snd kv) = true) by (apply Hjd, list_elem_of_In, Hkv).
      destruct (serialize_parse _ Hje _ (le_n _)) as (te & Hse & _).
      unfold print_member. rewrite Hse. simpl default. rewrite !length_append.
      pose proof (IH kv Hkv Hje te Hse). lia. }
    lia.
Qed.

(** [JSON.parse(JSON.stringify(v))] is [v] for every JSON datum. *)
Theorem parse_stringify (v : value) :
  json_data v = true ->
  exists text, stringify v = Normal text /\ text <> EmptyString /\ parse text = Normal v.
Proof.
  intros Hjd.
  destruct (serialize_parse v Hjd (S (String.length (default "" (serialize v)))))
    as (text & Hs & Hst & Hp).
  { destruct (serialize_parse v Hjd _ (le_n _)) as (text & Hs & _).
    rewrite Hs. simpl. pose proof (size_le_length v Hjd text Hs). lia. }
  exists text. unfold stringify, parse. rewrite Hs in *. simpl in *.
  split; [reflexivity|]. split; [intros ->; destruct Hst|].
  specialize (Hp EmptyString eq_refl). rewrite append_nil_r in Hp. rewrite Hp.
  reflexivity.
Qed.

(** With the reference host, every cache entry that holds a JSON datum
    reads back. *)
Theorem reference_host_reads_back (v : value) (e : Z) :
  json_data v = true -> reads_back (host := reference_host) v e v.
Proof.
  intros Hjd.
  destruct (parse_stringify (cache_entry v e)) as (text & Hs & Hne & Hp).
  { simpl. rewrite Hjd. reflexivity. }
  exists text, [("data", v); ("expiresAt", VNum e)].
  repeat split; assumption.
Qed.

End ReferenceHostFacts.

(** ** C6: a value set is the value got, before its time-to-live elapses *)

(** C6, as the code has it.  For every key [k], value [v] and finite
    [ttl > 0], on a medium that raises no error: [setCached(k, v, ttl)] at
    time [t0] followed by [getCached(k)] at a time [t1] with
    [t0 <= t1 < t0 + ttl] returns what [v] reads back as from the JSON text
    of its entry; it returns [v] for every value whose entry survives the
    JSON round trip. *)
Theorem set_then_get_returns_value {host : Host} (st : Storage) (k : string) (v : value)
    (ttl t0 t1 : Z) :
  reliable st ->
  0 < ttl ->
  t0 <= t1 < t0 + ttl ->
  (forall v', reads_back v (t0 + ttl) v' ->
     fst (getCached k t1 (snd (setCached k v ttl t0 st))) = Normal v') /\
  (reads_back v (t0 + ttl) v ->
     fst (getCached k t1 (snd (setCached k v ttl t0 st))) = Normal v).
Proof.
  intros Hrel _ [_ Hlt].
  assert (Hget : forall v', reads_back v (t0 + ttl) v' ->
                   fst (getCached k t1 (snd (setCached k v ttl t0 st))) = Normal v').
  { intros v' Hrb.
    rewrite (getCached_setCached_fresh st k v v' ttl t0 t1 Hrel Hrb);
      [reflexivity | lia]. }
  split; [exact Hget | apply Hget].
Qed.

(** With the reference host the round-trip assumption holds for every
    JSON datum. *)
Corollary reference_host_set_then_get (st : Storage) (k : string) (v : value)
    (ttl t0 t1 : Z) :
  ReferenceHost.json_data v = true ->
  reliable st ->
  t0 <= t1 < t0 + ttl ->
  fst (getCached (host := reference_host) k t1
         (snd (setCached (host := reference_host) k v ttl t0 st))) = Normal v.
Proof.
  intros Hjd Hrel [_ Hlt].
  rewrite (getCached_setCached_fresh (host := reference_host) st k v v ttl t0 t1 Hrel);
    [reflexivity | apply ReferenceHostFacts.reference_host_reads_back, Hjd | lia].
Qed.

(** The scenario of the specification: [set("clients", [{id:1,name:"Acme"}],
    600000)], then [get("clients")] at once. *)
Lemma set_then_get_returns_value_witness :
  fst (getCached (host := reference_host) "clients" 1000
         (snd (setCached (host := reference_host) "clients"
                 (VArr [VObj [("id", VNum 1); ("name", VStr "Acme")]])
                 600000 1000 empty_storage)))
  = Normal (VArr [VObj [("id", VNum 1); ("name", VStr "Acme")]]).
Proof.
  apply (set_then_get_returns_value (host := reference_host)).
  - exact empty_storage_reliable.
  - lia.
  - lia.
  - do 2 eexists. split; [vm_compute; reflexivity|].
    split; [discriminate|].
    split; [vm_compute; reflexivity|].
    split; reflexivity.
Defined.

(** C6 as stated fails.  The array [[undefined, 1]] set with a
    time-to-live of ten minutes is got at once as [[null, 1]]: JSON has no
    [undefined].  And with the time-to-live [Infinity] the entry is written
    without an expiry time that JSON can hold, and the next read evicts
    it. *)
Lemma set_then_get_changes_the_value :
  fst (getCached (host := reference_host) "k" 1700000000000
         (snd (setCached (host := reference_host) "k" (VArr [VUndefined; VNum 1])
                 600000 1700000000000 empty_storage)))
    = Normal (VArr [VNull; VNum 1]) /\
  VArr [VNull; VNum 1] <> VArr [VUndefined; VNum 1] /\
  fst (getCached (host := reference_host) "k" 1700000000000
         (snd (setCached_Infinity (host := reference_host) "k" (VNum 7) empty_storage)))
    = Normal VNull /\
  VNull <> VNum 7.
Proof.
  split; [vm_compute; reflexivity|]. split; [discriminate|].
  split; [vm_compute; reflexivity | discriminate].
Qed.

(** ** C5: expiry *)

(** The listing [Object.keys(localStorage)] of a medium that raises no
    error. *)
Lemma storage_keys_reliable (st : Storage) :
  reliable st ->
  fst (storage_keys st) = Normal (map_to_list (items st)).*1.
Proof. intros Hrel. unfold storage_keys, guarded. rewrite Hrel. reflexivity. Qed.

(** C5, as the code has it.  For every key [k] and every entry stored by
    [setCached] with time-to-live [ttl] at time [t0], on a medium that raises
    no error: a [getCached(k)] at a time [t1 > t0 + ttl] returns [null] and
    removes the entry, so that the key is no longer stored and a subsequent
    listing of the stored keys does not contain it. *)
Theorem get_after_expiry_evicts {host : Host} (st : Storage) (k : string)
    (v v' : value) (ttl t0 t1 : Z) :
  reliable st ->
  reads_back v (t0 + ttl) v' ->
  t0 + ttl < t1 ->
  exists st2 ks,
    getCached k t1 (snd (setCached k v ttl t0 st)) = (Normal VNull, st2) /\
    items st2 !! (CACHE_PREFIX +:+ k) = None /\
    fst (storage_keys st2) = Normal ks /\
    (CACHE_PREFIX +:+ k) ∉ ks.
Proof.
  intros Hrel Hrb Hlt.
  destruct (getCached_setCached_stale st k v v' ttl t0 t1 Hrel Hrb Hlt)
    as (st2 & Hget & Hitems & Hfault).
  assert (Hrel2 : reliable st2) by (intros m op; rewrite Hfault; apply Hrel).
  exists st2, (map_to_list (items st2)).*1.
  split; [exact Hget|].
  split; [rewrite Hitems; apply lookup_delete_eq|].
  split; [apply storage_keys_reliable, Hrel2|].
  rewrite Hitems. intros Hin.
  apply list_elem_of_fmap in Hin as [[k' t] [Hk Hin]]. simpl in Hk. subst k'.
  apply elem_of_map_to_list in Hin. rewrite lookup_delete_eq in Hin. discriminate.
Qed.

Lemma get_after_expiry_evicts_witness :
  exists st2 ks,
    getCached (host := reference_host) "clients" 601001
      (snd (setCached (host := reference_host) "clients"
              (VArr [VObj [("id", VNum 1); ("name", VStr "Acme")]])
              600000 1000 empty_storage)) = (Normal VNull, st2) /\
    items st2 !! (CACHE_PREFIX +:+ "clients") = None /\
    fst (storage_keys st2) = Normal ks /\
    (CACHE_PREFIX +:+ "clients") ∉ ks.
Proof.
  apply (get_after_expiry_evicts (host := reference_host) empty_storage "clients"
           (VArr [VObj [("id", VNum 1); ("name", VStr "Acme")]])
           (VArr [VObj [("id", VNum 1); ("name", VStr "Acme")]])).
  - exact empty_storage_reliable.
  - do 2 eexists. split; [vm_compute; reflexivity|].
    split; [discriminate|].
    split; [vm_compute; reflexivity|].
    split; reflexivity.
  - lia.
Defined.

(** C5 as stated fails at the instant the time-to-live has elapsed: an
    entry set at time 0 with [ttl = 1000] and read at time 1000 is still
    served, and its key is still stored. *)
Lemma expiry_boundary_still_served :
  let st1 := snd (setCached (host := reference_host) "k" (VStr "v") 1000 0 empty_storage) in
  let r := getCached (host := reference_host) "k" (0 + 1000) st1 in
  fst r = Normal (VStr "v") /\
  fst r <> Normal VNull /\
  is_Some (items (snd r) !! (CACHE_PREFIX +:+ "k")).
Proof.
  vm_compute. split; [reflexivity|]. split; [discriminate|]. eexists. reflexivity.
Qed.

(** ** C7: errors of the medium stay inside the cache layer *)

Lemma try_catch_never_throws {S A} (body : Eff S A) (handler : JSError -> Eff S A) :
  (forall e, never_throws (handler e)) ->
  never_throws (try_catch body handler).
Proof.
  intros Hh st. unfold try_catch.
  destruct (body st) as [[a|e] st'].
  - eauto.
  - apply Hh.
Qed.

Lemma console_log_never_throws {S A} (x : A) : never_throws (S := S) (console_log x).
Proof. intros st. unfold console_log, ret. eauto. Qed.

Section CacheErrors.
Context {host : Host}.

Lemma getCached_never_throws (key : string) (now : Z) : never_throws (getCached key now).
Proof.
  apply try_catch_never_throws. intros e st.
  unfold bind, console_log, ret. eauto.
Qed.

Lemma setCached_never_throws (key : string) (data : value) (ttl now : Z) :
  never_throws (setCached key data ttl now).
Proof. apply try_catch_never_throws. intros e. apply console_log_never_throws. Qed.

Lemma clearCache_never_throws (key : string) : never_throws (clearCache key).
Proof. apply try_catch_never_throws. intros e. apply console_log_never_throws. Qed.









End CacheErrors.








(** ** C9: the cache layer keeps to its own keys *)

Lemma only_cache_keys_ret {A} (a : A) : keeps_to_cache_keys (ret a).
Proof.
  intros st. split.
  - exists []. simpl. rewrite app_nil_r. split; [reflexivity | constructor].
  - reflexivity.
Qed.


Lemma only_cache_keys_then {A} (c : Eff Storage A) (st mid : Storage) (next : Storage)
    : only_cache_keys c st -> snd (c st) = mid ->
      ((exists new, calls next = calls mid ++ new /\ Forall on_cache_key new) /\
       (forall k, String.prefix CACHE_PREFIX k = false -> items next !! k = items mid !! k)) ->
      (exists new, calls next = calls st ++ new /\ Forall on_cache_key new) /\
      (forall k, String.prefix CACHE_PREFIX k = false -> items next !! k = items st !! k).
Proof.
  intros [(n1 & Hc1 & Hf1) Hi1] <- [(n2 & Hc2 & Hf2) Hi2]. split.
  - exists (n1 ++ n2). rewrite Hc2, Hc1, app_assoc. split; [reflexivity|].
    apply Forall_app. split; assumption.
  - intros k Hk. rewrite (Hi2 k Hk). apply Hi1, Hk.
Qed.

Lemma only_cache_keys_bind {A B} (c : Eff Storage A) (k : A -> Eff Storage B) :
  keeps_to_cache_keys c ->
  (forall a, keeps_to_cache_keys (k a)) ->
  keeps_to_cache_keys (bind c k).
Proof.
  intros Hc Hk st. unfold only_cache_keys, bind.
  pose proof (Hc st) as Hst.
  destruct (c st) as [[a|e] mid] eqn:E.
  - apply (only_cache_keys_then c st mid); [exact Hst | rewrite E; reflexivity |].
    apply (Hk a mid).
  - unfold only_cache_keys in Hst. rewrite E in Hst. exact Hst.
Qed.

Lemma only_cache_keys_try_catch {A} (body : Eff Storage A)
    (handler : JSError -> Eff Storage A) :
  keeps_to_cache_keys body ->
  (forall e, keeps_to_cache_keys (handler e)) ->
  keeps_to_cache_keys (try_catch body handler).
Proof.
  intros Hb Hh st. unfold only_cache_keys, try_catch.
  pose proof (Hb st) as Hst.
  destruct (body st) as [[a|e] mid] eqn:E.
  - unfold only_cache_keys in Hst. rewrite E in Hst. exact Hst.
  - apply (only_cache_keys_then body st mid); [exact Hst | rewrite E; reflexivity |].
    apply (Hh e mid).
Qed.

Lemma only_cache_keys_guarded {A} (op : StorageOp) (run : Storage -> A * Storage) :
  on_cache_key op ->
  (forall st, calls (snd (run st)) = calls st) ->
  (forall st k, String.prefix CACHE_PREFIX k = false ->
                items (snd (run st)) !! k = items st !! k) ->
  keeps_to_cache_keys (guarded op run).
Proof.
  intros Hop Hcalls Hitems st. unfold only_cache_keys, guarded.
  destruct (fault st (items st) op).
  - split; [exists [op]; split; [reflexivity | repeat constructor; exact Hop]|].
    reflexivity.
  - pose proof (Hcalls (journal op st)) as Hc.
    pose proof (Hitems (journal op st)) as Hi.
    destruct (run (journal op st)) as [a st']. simpl in *. split.
    + exists [op]. split; [exact Hc | repeat constructor; exact Hop].
    + exact Hi.
Qed.



Lemma only_cache_keys_removeItem (k : string) :
  String.prefix CACHE_PREFIX k = true -> keeps_to_cache_keys (removeItem k).
Proof.
  intros Hk. apply only_cache_keys_guarded; [exact Hk | reflexivity |].
  intros st k' Hk'. simpl. apply lookup_delete_ne. congruence.
Qed.

Lemma only_cache_keys_storage_keys : keeps_to_cache_keys storage_keys.
Proof. apply only_cache_keys_guarded; [exact I | reflexivity | reflexivity]. Qed.

Lemma only_cache_keys_console_log {A} (x : A) : keeps_to_cache_keys (console_log x).
Proof. apply only_cache_keys_ret. Qed.

Lemma only_cache_keys_forEach (ks : list string) :
  keeps_to_cache_keys (forEach_remove_prefixed ks).
Proof.
  induction ks as [|key rest IH]; simpl.
  - apply only_cache_keys_ret.
  - apply only_cache_keys_bind; [|intros _; exact IH].
    destruct (String.prefix CACHE_PREFIX key) eqn:Hp.
    + apply only_cache_keys_removeItem, Hp.
    + apply only_cache_keys_ret.
Qed.

Section CacheFrame.
Context {host : Host}.



End CacheFrame.


Lemma only_cache_keys_clearAllCaches : keeps_to_cache_keys clearAllCaches.
Proof.
  apply only_cache_keys_try_catch.
  - apply only_cache_keys_bind; [apply only_cache_keys_storage_keys|].
    intros ks. apply only_cache_keys_forEach.
  - intros e. apply only_cache_keys_console_log.
Qed.

(** On a medium that raises no error, the loop of [clearAllCaches] over
    [ks] completes, only deletes, and deletes every cache key of [ks]. *)
Lemma forEach_remove_prefixed_reliable (ks : list string) (st : Storage) :
  reliable st ->
  exists st',
    forEach_remove_prefixed ks st = (Normal tt, st') /\
    fault st' = fault st /\
    (forall k, items st !! k = None -> items st' !! k = None) /\
    (forall k, k ∈ ks -> String.prefix CACHE_PREFIX k = true -> items st' !! k = None).
Proof.
  revert st. induction ks as [|key rest IH]; intros st Hrel; simpl.
  - exists st. repeat split; [auto | intros k Hin; inversion Hin].
  - unfold bind.
    assert (Hstep : exists mid,
               (if String.prefix CACHE_PREFIX key then removeItem key else ret tt) st
                 = (Normal tt, mid) /\
               fault mid = fault st /\
               (forall k, items st !! k = None -> items mid !! k = None) /\
               (String.prefix CACHE_PREFIX key = true -> items mid !! key = None)).
    { destruct (String.prefix CACHE_PREFIX key).
      - unfold removeItem, guarded. rewrite Hrel. simpl. eexists.
        split; [reflexivity|]. split; [reflexivity|]. simpl. split.
        + intros k Hk. destruct (decide (key = k)) as [->|Hne].
          * apply lookup_delete_eq.
          * rewrite lookup_delete_ne; assumption.
        + intros _. apply lookup_delete_eq.
      - exists st. repeat split; [auto | discriminate]. }
    destruct Hstep as (mid & -> & Hfm & Hnone & Hkey).
    assert (Hrelm : reliable mid) by (intros m op; rewrite Hfm; apply Hrel).
    destruct (IH mid Hrelm) as (st' & -> & Hf' & Hnone' & Hks').
    exists st'. split; [reflexivity|]. split; [congruence|]. split.
    + intros k Hk. apply Hnone', Hnone, Hk.
    + intros k Hin Hp. apply elem_of_cons in Hin as [->|Hin].
      * apply Hnone', Hkey, Hp.
      * apply Hks'; assumption.
Qed.

Lemma clearAllCaches_reliable (st : Storage) (k : string) :
  reliable st ->
  items (snd (clearAllCaches st)) !! k =
    if String.prefix CACHE_PREFIX k then None else items st !! k.
Proof.
  intros Hrel.
  destruct (String.prefix CACHE_PREFIX k) eqn:Hp;
    [|apply (only_cache_keys_clearAllCaches st), Hp].
  unfold clearAllCaches, try_catch, bind, storage_keys, guarded.
  rewrite Hrel. simpl.
  assert (Hrelj : reliable (journal OpKeys st)) by (intros m op; apply Hrel).
  destruct (forEach_remove_prefixed_reliable (map_to_list (items st)).*1 _ Hrelj)
    as (st' & -> & _ & Hnone & Hks). simpl.
  destruct (items st !! k) as [text|] eqn:Hk.
  - apply Hks; [|exact Hp].
    apply list_elem_of_fmap. exists (k, text). split; [reflexivity|].
    apply elem_of_map_to_list. exact Hk.
  - apply Hnone. exact Hk.
Qed.



(** ** C3: revalidation with a failing fetch *)

Section Revalidation.
Context {host : Host}.

(** [getCached] changes the stored entries only when it evicts, and then
    it returns [null]. *)
Lemma getCached_keeps_entries (st : Storage) (key : string) (now : Z) :
  fst (getCached key now st) = Normal VNull \/
  items (snd (getCached key now st)) = items st.
Proof.
  unfold getCached, try_catch, bind, lift, getItem, removeItem, guarded, console_log, ret.
  destruct (fault st (items st) (OpGetItem (CACHE_PREFIX +:+ key))); [left; reflexivity|].
  simpl. destruct (items st !! (CACHE_PREFIX +:+ key)) as [text|]; [|left; reflexivity].
  destruct (String.eqb text ""); [left; reflexivity|].
  destruct (JSON_parse text) as [entry|e]; [|left; reflexivity].
  destruct (get_prop entry "data") as [data|e]; [|left; reflexivity].
  destruct (get_prop entry "expiresAt") as [expiresAt|e]; [|left; reflexivity].
  destruct (js_gt now expiresAt); [|right; reflexivity].
  simpl. destruct (fault st (items st) (OpRemoveItem (CACHE_PREFIX +:+ key)));
    left; reflexivity.
Qed.

Lemma getCached_truthy_keeps_entries (st : Storage) (key : string) (now : Z) :
  (exists v, fst (getCached key now st) = Normal v /\ truthy v = true) ->
  items (snd (getCached key now st)) = items st.
Proof.
  intros (v & Hv & Ht).
  destruct (getCached_keeps_entries st key now) as [Hnull|Hkeep]; [|exact Hkeep].
  rewrite Hnull in Hv. injection Hv as <-. discriminate.
Qed.

End Revalidation.

(** C3, as the code has it.  With a fetch function that fails with [e],
    [fetchWithCache] settles by what [getCached] returns: when that value
    is truthy it resolves with it, the work left in the background changes
    nothing, and the stored entries are as before the call; when it is
    falsy (no entry, an expired or unreadable entry, or an entry whose value
    is [null], [false], [0] or the empty string) it rejects with [e]. *)
Theorem fetchWithCache_failing_fetch {host : Host} (st : Storage) (key : string)
    (e : JSError) (ttl now now_done : Z) :
  exists cached st1 f,
    getCached key now st = (Normal cached, st1) /\
    fetchWithCache key (Rejected e) ttl now now_done st = (Normal f, st1) /\
    settled f = (if truthy cached then Resolved cached else Rejected e) /\
    (forall st', background f st' = (Normal tt, st')) /\
    (truthy cached = true -> items st1 = items st).
Proof.
  destruct (getCached_never_throws key now st) as (cached & st1 & Hget).
  pose proof (getCached_truthy_keeps_entries st key now) as Hkeep.
  rewrite Hget in Hkeep. simpl in Hkeep.
  exists cached, st1. unfold fetchWithCache, bind. rewrite Hget.
  destruct (truthy cached) eqn:Ht; eexists;
    (split; [reflexivity|]); (split; [reflexivity|]); simpl;
    (split; [reflexivity|]); (split; [reflexivity|]).
  - intros _. apply Hkeep. exists cached. split; [reflexivity | exact Ht].
  - discriminate.
Qed.

(** C3 as stated fails for an entry whose cached value is falsy: the
    counter 0 is stored and unexpired, yet a failing fetch is surfaced. *)
Lemma fetchWithCache_falsy_entry_rejects :
  let st := snd (setCached (host := reference_host) "count" (VNum 0) 600000 0 empty_storage) in
  is_Some (items st !! (CACHE_PREFIX +:+ "count")) /\
  fst (getCached (host := reference_host) "count" 1 st) = Normal (VNum 0) /\
  match fst (fetchWithCache (host := reference_host) "count"
               (Rejected (Error "network")) 600000 1 2 st) with
  | Normal f => settled f = Rejected (Error "network")
  | Throw _ => False
  end.
Proof.
  vm_compute. split; [eexists; reflexivity|]. split; reflexivity.
Qed.

Lemma fetchWithCache_failing_fetch_witness :
  exists cached st1 f,
    getCached (host := reference_host) "clients" 1
      (snd (setCached (host := reference_host) "clients" (VArr []) 600000 0 empty_storage))
      = (Normal cached, st1) /\
    fetchWithCache (host := reference_host) "clients" (Rejected (Error "network")) 600000 1 2
      (snd (setCached (host := reference_host) "clients" (VArr []) 600000 0 empty_storage))
      = (Normal f, st1) /\
    settled f = (if truthy cached then Resolved cached else Rejected (Error "network")) /\
    (forall st', background f st' = (Normal tt, st')) /\
    (truthy cached = true ->
     items st1 =
     items (snd (setCached (host := reference_host) "clients" (VArr []) 600000 0 empty_storage))).
Proof.
  apply (fetchWithCache_failing_fetch (host := reference_host)).
Defined.

(* ===================================================================== *)
(** * Properties of the data hooks *)
(* ===================================================================== *)

(** ** C1: rollback of a failed create *)

(** What a failed [create] leaves: the filter over the collection with
    the tentative entity appended. *)
Lemma create_failure (st : Storage) (prev : list obj) (tr : list (Event (list obj)))
    (clientData : value) (now : Z) (iso : string) (e : JSError) :
  let applied := prev ++ [useClients.optimistic_client clientData now iso] in
  useClients.create clientData now iso (Rejected e) (mkHookWorld st (Live prev) tr) =
    (Normal (mkResult None (Some e)),
     match useClients.filter_not_temp applied with
     | Normal kept =>
         mkHookWorld st (Live kept)
           (tr ++ [Rendered applied; RemoteCall "createSupabaseClient";
                   Rendered kept; Toasted ToastError "Failed to create client"])
     | Throw err =>
         mkHookWorld st (Crashed err)
           (tr ++ [Rendered applied; RemoteCall "createSupabaseClient";
                   Toasted ToastError "Failed to create client"])
     end).
Proof.
  intros applied.
  unfold useClients.create, try_catch, bind, setState, call_remote, emit, toast,
    modify, await, throw, console_log, ret. simpl. fold applied.
  destruct (useClients.filter_not_temp applied) as [kept|err]; simpl;
    repeat rewrite <- app_assoc; reflexivity.
Qed.

Lemma filter_not_temp_app (l : list obj) (c : obj) (s : string) :
  no_temp_ids l ->
  lookup_field "id" c = VStr s ->
  String.prefix "temp-" s = true ->
  useClients.filter_not_temp (l ++ [c]) = Normal l.
Proof.
  intros Hl Hc Hp. induction Hl as [|x l (sx & Hx & Hpx) Hl IH]; simpl.
  - rewrite Hc. simpl. rewrite Hp. reflexivity.
  - rewrite Hx. simpl. rewrite Hpx, IH. reflexivity.
Qed.

Lemma lookup_set_field_ne (k k' : string) (v : value) (fs : obj) :
  k <> k' -> lookup_field k (set_field k' v fs) = lookup_field k fs.
Proof.
  intros Hne. induction fs as [|[k0 v0] fs IH]; simpl.
  - apply String.eqb_neq in Hne. rewrite Hne. reflexivity.
  - destruct (String.eqb k' k0) eqn:E'; simpl.
    + apply String.eqb_eq in E'. subst k0.
      apply String.eqb_neq in Hne. rewrite Hne. reflexivity.
    + destruct (String.eqb k k0); [reflexivity | exact IH].
Qed.

Lemma lookup_spread_absent (k : string) (base extra : obj) :
  has_field k extra = false ->
  lookup_field k (spread base extra) = lookup_field k base.
Proof.
  unfold spread. revert base. induction extra as [|[k0 v0] extra IH]; intros base Hk; simpl.
  - reflexivity.
  - simpl in Hk. apply orb_false_elim in Hk as [Hk0 Hk].
    rewrite (IH _ Hk). simpl. apply lookup_set_field_ne.
    apply String.eqb_neq. exact Hk0.
Qed.

(** The rollback does restore the collection when no identifier in it
    starts with ['temp-'] and the data carry no [id] of their own. *)
Lemma create_failure_restores (st : Storage) (prev : list obj)
    (tr : list (Event (list obj))) (clientData : value) (now : Z) (iso : string)
    (e : JSError) :
  no_temp_ids prev ->
  has_field "id" (spread_fields clientData) = false ->
  hw_state (snd (useClients.create clientData now iso (Rejected e)
                   (mkHookWorld st (Live prev) tr))) = Live prev.
Proof.
  intros Hprev Hid. rewrite create_failure. simpl.
  rewrite (filter_not_temp_app prev _ ("temp-" +:+ pretty now) Hprev).
  - reflexivity.
  - unfold useClients.optimistic_client.
    rewrite lookup_set_field_ne by discriminate.
    rewrite lookup_spread_absent by exact Hid. reflexivity.
  - apply prefix_app.
Qed.

(** C1 (the code departs from it).  A collection that holds the tentative
    entity of an earlier, still pending create: when a second create
    fails, the rollback removes both tentative entities, so the final
    collection is not the collection before the call. *)
Theorem create_rollback_drops_pending_entity :
  let pending := [("id", VStr "temp-1700000000000"); ("name", VStr "FirstCo");
                  ("created_at", VStr "2023-11-14T22:13:20.000Z")] in
  let before := [[("id", VStr "c1"); ("name", VStr "Acme")]; pending] in
  let run := useClients.create (VObj [("name", VStr "NewCo")]) 1700000000500
               "2023-11-14T22:13:20.500Z" (Rejected (Error "network"))
               (mkHookWorld empty_storage (Live before) []) in
  hw_state (snd run) = Live [[("id", VStr "c1"); ("name", VStr "Acme")]] /\
  hw_state (snd run) <> Live before.
Proof.
  vm_compute. split; [reflexivity | discriminate].
Qed.

(** ** C2: rollback of a failed update *)

(** A failed [update] never reaches its rollback: the handler raises
    [ReferenceError], the promise of [update] rejects with it, and the
    collection stays as the optimistic change left it. *)
Lemma update_failure (st : Storage) (prev clients : list obj)
    (tr : list (Event (list obj))) (clientId updates : value) (e : JSError) :
  useClients.update clients clientId updates (Rejected e) (mkHookWorld st (Live prev) tr) =
    (Throw (ReferenceError "prevClients"),
     mkHookWorld st (Live (optimistic_update clientId updates prev))
       (tr ++ [Rendered (optimistic_update clientId updates prev);
               RemoteCall "updateClient"])).
Proof.
  unfold useClients.update, try_catch, bind, setState, call_remote, emit, toast,
    modify, await, throw, console_log, ret. simpl.
  rewrite <- app_assoc. reflexivity.
Qed.

(** C2 (the code departs from it).  When the remote update fails, the
    final collection is not the snapshot taken before the optimistic
    change: the change to the updated entity is still there, no error
    notification is sent, and [update] rejects with [ReferenceError]
    instead of returning a result that carries the error. *)
Theorem update_failure_is_not_rolled_back :
  let before := [[("id", VStr "c1"); ("name", VStr "Acme")];
                 [("id", VStr "c2"); ("name", VStr "Beta")]] in
  let run := useClients.update before (VStr "c1") (VObj [("name", VStr "Renamed")])
               (Rejected (Error "network"))
               (mkHookWorld empty_storage (Live before) []) in
  fst run = Throw (ReferenceError "prevClients") /\
  hw_state (snd run) = Live [[("id", VStr "c1"); ("name", VStr "Renamed")];
                             [("id", VStr "c2"); ("name", VStr "Beta")]] /\
  hw_state (snd run) <> Live before /\
  hw_trace (snd run) =
    [Rendered [[("id", VStr "c1"); ("name", VStr "Renamed")];
               [("id", VStr "c2"); ("name", VStr "Beta")]];
     RemoteCall "updateClient"].
Proof.
  intros before run. unfold run. rewrite update_failure.
  vm_compute. repeat split; discriminate.
Qed.

(** ** C4: the single-client hook is not optimistic *)

(** C4, as the code has it.  [useClient.update] calls the remote update
    first, without touching the client state; when the call fails the state
    is left as it was, an error notification is sent and the result
    carries the error; when it succeeds the response is merged over the
    state. *)
Theorem useClient_update_is_not_optimistic (st : Storage) (client : value)
    (tr : list (Event value)) (updates : value) (remote : Outcome obj) :
  exists r w' rest,
    useClient.update updates remote (mkHookWorld st (Live client) tr) = (Normal r, w') /\
    hw_trace w' = tr ++ RemoteCall "updateClient" :: rest /\
    match remote with
    | Rejected e =>
        hw_state w' = Live client /\
        r = mkResult None (Some e) /\
        rest = [Toasted ToastError "Failed to update client"]
    | Resolved updatedClient =>
        hw_state w' = Live (VObj (spread (spread_fields client) updatedClient)) /\
        r = mkResult (Some updatedClient) None
    end.
Proof.
  unfold useClient.update, try_catch, bind, setState, call_remote, emit, toast,
    modify, await, throw, console_log, ret.
  destruct remote as [updatedClient|e]; simpl; do 3 eexists;
    (split; [reflexivity|]); simpl; repeat rewrite <- app_assoc; simpl;
    (split; [reflexivity|]); repeat split.
Qed.

(** C4 as stated fails: a failing [useClient.update] makes no state
    update before the remote call (none at all, in fact), whereas
    [useClients.update] does. *)
Lemma useClient_update_applies_nothing_first :
  let client := VObj [("id", VStr "c1"); ("name", VStr "Acme")] in
  let run := useClient.update (VObj [("name", VStr "Renamed")]) (Rejected (Error "network"))
               (mkHookWorld empty_storage (Live client) []) in
  hw_trace (snd run) =
    [RemoteCall "updateClient"; Toasted ToastError "Failed to update client"] /\
  rendered_before_remote (hw_trace (snd run)) = false /\
  rendered_before_remote
    (hw_trace (snd (useClients.update [[("id", VStr "c1"); ("name", VStr "Acme")]]
                      (VStr "c1") (VObj [("name", VStr "Renamed")])
                      (Rejected (Error "network"))
                      (mkHookWorld empty_storage
                         (Live [[("id", VStr "c1"); ("name", VStr "Acme")]]) []))))
    = true.
Proof.
  vm_compute. repeat split.
Qed.

(* ===================================================================== *)
(** * Properties of the authentication context *)
(* ===================================================================== *)

(** ** Invariants of effectful computations *)

Lemma keeps_pure {S A} (P : S -> Prop) (c : Eff S A) :
  (forall s, snd (c s) = s) -> keeps P c.
Proof. intros Hc s Hs. rewrite Hc. exact Hs. Qed.

Lemma keeps_ret {S A} (P : S -> Prop) (a : A) : keeps P (ret a).
Proof. apply keeps_pure. reflexivity. Qed.

Lemma keeps_throw {S A} (P : S -> Prop) (e : JSError) : keeps P (throw (A := A) e).
Proof. apply keeps_pure. reflexivity. Qed.

Lemma keeps_lift {S A} (P : S -> Prop) (c : Completion A) : keeps P (lift c).
Proof. apply keeps_pure. reflexivity. Qed.

Lemma keeps_await {S A} (P : S -> Prop) (o : Outcome A) : keeps P (await o).
Proof. apply keeps_pure. intros s. destruct o; reflexivity. Qed.

Lemma keeps_console_log {S A} (P : S -> Prop) (x : A) : keeps P (console_log x).
Proof. apply keeps_pure. reflexivity. Qed.



Create HintDb keeps.
#[local] Hint Resolve keeps_ret keeps_throw keeps_lift keeps_await keeps_console_log
  : keeps.

(** ** The shapes of the authentication state *)

Module AuthFacts.
Import AuthContext AuthShapes.





Lemma truthy_not_null (v : value) : truthy v = true -> v <> VNull.
Proof. intros Hv ->. discriminate. Qed.

Lemma ensureOrganization_pure (env : BootEnv) (p : option obj) (u : value) (w : World) :
  snd (ensureOrganization env p u w) = w.
Proof.
  unfold ensureOrganization, try_catch, bind, lift, throw, ret, console_log.
  destruct p as [p|]; [|reflexivity].
  destruct (truthy (lookup_field "organization" p)).
  - destruct (negb (strict_eq (lookup_field "role" p) (VStr "owner"))); [|reflexivity].
    destruct (roleUpdate env) as [[e|]|e]; reflexivity.
  - destruct (orgInsert env) as [org [orgError|]]; [reflexivity|]. simpl.
    destruct (get_prop org "id"); [|reflexivity]. simpl.
    destruct (userUpdateError env); reflexivity.
Qed.




Section BootstrapFacts.
Context {host : Host}.







End BootstrapFacts.
End AuthFacts.

(** ** C10: a failed remote sign-out *)

Lemma getCached_absent {host : Host} (st : Storage) (key : string) (now : Z) :
  items st !! (CACHE_PREFIX +:+ key) = None ->
  fst (getCached key now st) = Normal VNull.
Proof.
  intros Hi. unfold getCached, try_catch, bind, getItem, guarded.
  destruct (fault st (items st) (OpGetItem (CACHE_PREFIX +:+ key))); [reflexivity|].
  simpl. rewrite Hi. reflexivity.
Qed.

Lemma removeItem_reliable (st : Storage) (k : string) :
  reliable st ->
  removeItem k st =
    (Normal tt, mkStorage (delete k (items st)) (fault st) (calls st ++ [OpRemoveItem k])).
Proof. intros Hrel. unfold removeItem, guarded. rewrite Hrel. reflexivity. Qed.

Lemma removeItem_keeps_reliable (st : Storage) (k : string) :
  reliable st -> reliable (snd (removeItem k st)).
Proof.
  intros Hrel. rewrite (removeItem_reliable st k Hrel). intros m op. apply Hrel.
Qed.

Lemma clearCache_reliable (st : Storage) (key : string) :
  reliable st ->
  clearCache key st =
    (Normal tt,
     mkStorage (delete (CACHE_PREFIX +:+ key) (items st)) (fault st)
       (calls st ++ [OpRemoveItem (CACHE_PREFIX +:+ key)])).
Proof.
  intros Hrel. unfold clearCache, try_catch.
  rewrite (removeItem_reliable st _ Hrel). reflexivity.
Qed.

Lemma removeItem_succeeds (st : Storage) (k : string) :
  removals_succeed st ->
  removeItem k st =
    (Normal tt, mkStorage (delete k (items st)) (fault st) (calls st ++ [OpRemoveItem k])).
Proof. intros Hrel. unfold removeItem, guarded. rewrite Hrel. reflexivity. Qed.

Lemma clearCache_succeeds (st : Storage) (key : string) :
  removals_succeed st ->
  clearCache key st =
    (Normal tt,
     mkStorage (delete (CACHE_PREFIX +:+ key) (items st)) (fault st)
       (calls st ++ [OpRemoveItem (CACHE_PREFIX +:+ key)])).
Proof.
  intros Hrel. unfold clearCache, try_catch.
  rewrite (removeItem_succeeds st _ Hrel). reflexivity.
Qed.

(** C10, as the code has it.  On a medium whose removals raise no error,
    the remote sign-out is called on a medium from which the cached user
    profile is already removed, so that reading it is a miss: [at_call] is
    the medium at that call, whose outcome [remote] may depend on it.  When
    the call fails with [e] (it rejects, or it resolves with an error),
    [signOut] returns [{ error: e }], user, profile and organization are as
    before and the message of [e] is kept in the state; when it succeeds
    [signOut] returns [{ error: null }] and the three are [null]. *)
Theorem signOut_remote_failure (w : AuthContext.World)
    (remote : Storage -> Outcome (option JSError)) :
  removals_succeed (AuthContext.storage w) ->
  exists at_call,
    items at_call =
      delete (CACHE_PREFIX +:+ "userProfile")
        (delete "dev:mockAuth" (items (AuthContext.storage w))) /\
    items at_call !! (CACHE_PREFIX +:+ "userProfile") = None /\
    (forall (host : Host) now, fst (getCached "userProfile" now at_call) = Normal VNull) /\
    (forall e,
       remote at_call = Rejected e \/ remote at_call = Resolved (Some e) ->
       AuthContext.signOut_at remote w =
         (Normal (Some e),
          AuthContext.mkWorld at_call (AuthContext.user w) (AuthContext.profile w)
            (AuthContext.organization w) (AuthContext.loading w)
            (VStr (err_message e)))) /\
    (remote at_call = Resolved None ->
     AuthContext.signOut_at remote w =
       (Normal None,
        AuthContext.mkWorld at_call VNull VNull VNull (AuthContext.loading w) VNull)).
Proof.
  intros Hrel.
  pose proof (removeItem_succeeds (AuthContext.storage w) "dev:mockAuth" Hrel) as H1.
  assert (Hrel1 : removals_succeed (snd (removeItem "dev:mockAuth" (AuthContext.storage w))))
    by (rewrite H1; intros m k; apply Hrel).
  pose proof (clearCache_succeeds _ "userProfile" Hrel1) as H2.
  rewrite H1 in H2. simpl in H2.
  eexists. split; [|split; [|split; [|split]]].
  4:{ intros e Hremote.
      unfold AuthContext.signOut_at, AuthContext.the_medium, try_catch, bind,
        AuthContext.on_storage, zoom, AuthContext.setError, AuthContext.setUser,
        AuthContext.setProfile, AuthContext.setOrganization, modify.
      simpl. rewrite H1. simpl. rewrite H2. simpl.
      destruct Hremote as [-> | ->]; reflexivity. }
  4:{ intros Hremote.
      unfold AuthContext.signOut_at, AuthContext.the_medium, try_catch, bind,
        AuthContext.on_storage, zoom, AuthContext.setError, AuthContext.setUser,
        AuthContext.setProfile, AuthContext.setOrganization, modify.
      simpl. rewrite H1. simpl. rewrite H2. simpl. rewrite Hremote. reflexivity. }
  - reflexivity.
  - simpl. apply lookup_delete_eq.
  - intros host now. apply getCached_absent. simpl. apply lookup_delete_eq.
Qed.

(** A remote call that fails because the cached profile is gone. *)
Lemma signOut_remote_failure_witness :
  exists at_call,
    items at_call !! (CACHE_PREFIX +:+ "userProfile") = None /\
    AuthContext.signOut_at fails_once_cleared signed_in_world =
      (Normal (Some (Error "network")),
       AuthContext.mkWorld at_call (AuthContext.user signed_in_world)
         (AuthContext.profile signed_in_world) (AuthContext.organization signed_in_world)
         false (VStr "network")).
Proof.
  destruct (signOut_remote_failure signed_in_world fails_once_cleared)
    as (at_call & Hitems & Hgone & _ & Hfail & _).
  { intros m k. reflexivity. }
  exists at_call. split; [exact Hgone|].
  apply (Hfail (Error "network")). left.
  unfold fails_once_cleared. change "app_cache_userProfile" with (CACHE_PREFIX +:+ "userProfile").
  rewrite Hgone. reflexivity.
Defined.

(** C10 as stated fails on a medium that refuses to remove the cached
    profile: [clearCache] swallows the error, the remote sign-out fails,
    [signOut] returns the error, and the profile is still cached. *)
Lemma signOut_failure_with_profile_still_cached :
  let r := AuthContext.signOut (Rejected (Error "network")) profile_locked_world in
  fst r = Normal (Some (Error "network")) /\
  items (AuthContext.storage (snd r)) !! (CACHE_PREFIX +:+ "userProfile") = Some "{}".
Proof.
  vm_compute. split; reflexivity.
Qed.

(* ===================================================================== *)
(** * Further properties of the cache layer *)
(* ===================================================================== *)

Lemma cache_key_inj (k k' : string) :
  CACHE_PREFIX +:+ k = CACHE_PREFIX +:+ k' -> k = k'.
Proof. unfold CACHE_PREFIX. intros H. injection H. auto. Qed.

Lemma reliable_fault (st st' : Storage) :
  fault st' = fault st -> reliable st -> reliable st'.
Proof. intros Hf Hrel m op. rewrite Hf. apply Hrel. Qed.

Section CacheIsolation.
Context {host : Host}.

(** The cache operations leave the fault oracle of the medium alone. *)
Lemma getCached_fault (st : Storage) (key : string) (now : Z) :
  fault (snd (getCached key now st)) = fault st.
Proof.
  unfold getCached, try_catch, bind, lift, getItem, removeItem, guarded, console_log, ret.
  destruct (fault st (items st) (OpGetItem (CACHE_PREFIX +:+ key))); [reflexivity|].
  simpl. destruct (items st !! (CACHE_PREFIX +:+ key)) as [text|]; [|reflexivity].
  destruct (String.eqb text ""); [reflexivity|].
  destruct (JSON_parse text) as [entry|e]; [|reflexivity].
  destruct (get_prop entry "data") as [data|e]; [|reflexivity].
  destruct (get_prop entry "expiresAt") as [expiresAt|e]; [|reflexivity].
  destruct (js_gt now expiresAt); [|reflexivity].
  simpl. destruct (fault st (items st) (OpRemoveItem (CACHE_PREFIX +:+ key)));
    reflexivity.
Qed.

Lemma setCached_fault (st : Storage) (key : string) (data : value) (ttl now : Z) :
  fault (snd (setCached key data ttl now st)) = fault st.
Proof.
  unfold setCached, try_catch, bind, lift, setItem, guarded, console_log, ret.
  destruct (JSON_stringify (cache_entry data (now + ttl))) as [text|e]; [|reflexivity].
  simpl. destruct (fault st (items st) (OpSetItem (CACHE_PREFIX +:+ key) text));
    reflexivity.
Qed.

(** [getCached] and [setCached] change no entry but the one of their key. *)
Lemma getCached_other_key (st : Storage) (key : string) (now : Z) (k : string) :
  k <> CACHE_PREFIX +:+ key ->
  items (snd (getCached key now st)) !! k = items st !! k.
Proof.
  intros Hne.
  unfold getCached, try_catch, bind, lift, getItem, removeItem, guarded, console_log, ret.
  destruct (fault st (items st) (OpGetItem (CACHE_PREFIX +:+ key))); [reflexivity|].
  simpl. destruct (items st !! (CACHE_PREFIX +:+ key)) as [text|]; [|reflexivity].
  destruct (String.eqb text ""); [reflexivity|].
  destruct (JSON_parse text) as [entry|e]; [|reflexivity].
  destruct (get_prop entry "data") as [data|e]; [|reflexivity].
  destruct (get_prop entry "expiresAt") as [expiresAt|e]; [|reflexivity].
  destruct (js_gt now expiresAt); [|reflexivity].
  simpl. destruct (fault st (items st) (OpRemoveItem (CACHE_PREFIX +:+ key)));
    [reflexivity|].
  simpl. apply lookup_delete_ne. congruence.
Qed.

Lemma setCached_other_key (st : Storage) (key : string) (data : value) (ttl now : Z)
    (k : string) :
  k <> CACHE_PREFIX +:+ key ->
  items (snd (setCached key data ttl now st)) !! k = items st !! k.
Proof.
  intros Hne.
  unfold setCached, try_catch, bind, lift, setItem, guarded, console_log, ret.
  destruct (JSON_stringify (cache_entry data (now + ttl))) as [text|e]; [|reflexivity].
  simpl. destruct (fault st (items st) (OpSetItem (CACHE_PREFIX +:+ key) text));
    [reflexivity|].
  simpl. apply lookup_insert_ne. congruence.
Qed.

(** On a medium that raises no error, what [getCached] returns for a key
    depends on the entry under that key only. *)
Lemma getCached_depends_on_entry (st st' : Storage) (key : string) (now : Z) :
  reliable st -> reliable st' ->
  items st' !! (CACHE_PREFIX +:+ key) = items st !! (CACHE_PREFIX +:+ key) ->
  fst (getCached key now st') = fst (getCached key now st).
Proof.
  intros Hrel Hrel' Hi.
  unfold getCached, try_catch, bind, lift, getItem, removeItem, guarded, console_log, ret.
  rewrite Hrel, Hrel'. simpl. rewrite Hi.
  destruct (items st !! (CACHE_PREFIX +:+ key)) as [text|]; [|reflexivity].
  destruct (String.eqb text ""); [reflexivity|].
  destruct (JSON_parse text) as [entry|e]; [|reflexivity].
  destruct (get_prop entry "data") as [data|e]; [|reflexivity].
  destruct (get_prop entry "expiresAt") as [expiresAt|e]; [|reflexivity].
  destruct (js_gt now expiresAt); [|reflexivity].
  simpl. rewrite Hrel, Hrel'. reflexivity.
Qed.

End CacheIsolation.

(** X1.  Cache entries are per key: on a medium that raises no error, what
    [getCached(k)] returns is not changed by a [setCached], a [clearCache]
    or a [getCached] (which may evict) on another key [k']. *)
Theorem cache_keys_do_not_interfere {host : Host} (st : Storage) (k k' : string)
    (v : value) (ttl t now : Z) :
  k <> k' ->
  reliable st ->
  fst (getCached k now (snd (setCached k' v ttl t st))) = fst (getCached k now st) /\
  fst (getCached k now (snd (clearCache k' st))) = fst (getCached k now st) /\
  fst (getCached k now (snd (getCached k' t st))) = fst (getCached k now st).
Proof.
  intros Hne Hrel.
  assert (Hk : CACHE_PREFIX +:+ k <> CACHE_PREFIX +:+ k')
    by (intros H; apply Hne, cache_key_inj, H).
  split; [|split].
  - apply getCached_depends_on_entry; [exact Hrel | |].
    + apply (reliable_fault st); [apply setCached_fault | exact Hrel].
    + apply setCached_other_key, Hk.
  - rewrite (clearCache_reliable st k' Hrel). simpl.
    apply getCached_depends_on_entry; [exact Hrel | intros m op; apply Hrel |].
    simpl. apply lookup_delete_ne. congruence.
  - apply getCached_depends_on_entry; [exact Hrel | |].
    + apply (reliable_fault st); [apply getCached_fault | exact Hrel].
    + apply getCached_other_key, Hk.
Qed.

Lemma cache_keys_do_not_interfere_witness :
  let st := snd (setCached (host := reference_host) "clients" (VArr [VNum 1]) 600000 0
                   empty_storage) in
  fst (getCached (host := reference_host) "clients" 5
         (snd (setCached (host := reference_host) "userProfile" (VStr "p") 600000 1 st)))
    = fst (getCached (host := reference_host) "clients" 5 st) /\
  fst (getCached (host := reference_host) "clients" 5 (snd (clearCache "userProfile" st)))
    = fst (getCached (host := reference_host) "clients" 5 st) /\
  fst (getCached (host := reference_host) "clients" 5
         (snd (getCached (host := reference_host) "userProfile" 1 st)))
    = fst (getCached (host := reference_host) "clients" 5 st).
Proof.
  apply (cache_keys_do_not_interfere (host := reference_host)).
  - discriminate.
  - intros m op. reflexivity.
Defined.

(** X2.  On a medium that raises no error, a key that was cleared reads as
    a miss: [getCached(k)] returns [null] after [clearCache(k)], and
    [getCached] of every key returns [null] after [clearAllCaches()]. *)
Theorem cleared_key_is_a_miss {host : Host} (st : Storage) (k k' : string) (now : Z) :
  reliable st ->
  fst (getCached k now (snd (clearCache k st))) = Normal VNull /\
  fst (getCached k' now (snd (clearAllCaches st))) = Normal VNull.
Proof.
  intros Hrel. split.
  - apply getCached_absent. rewrite (clearCache_reliable st k Hrel). simpl.
    apply lookup_delete_eq.
  - apply getCached_absent. rewrite (clearAllCaches_reliable st _ Hrel).
    rewrite cache_key_prefixed. reflexivity.
Qed.

Lemma cleared_key_is_a_miss_witness :
  let st := snd (setCached (host := reference_host) "clients" (VArr [VNum 1]) 600000 0
                   empty_storage) in
  fst (getCached (host := reference_host) "clients" 5 st) = Normal (VArr [VNum 1]) /\
  fst (getCached (host := reference_host) "clients" 5 (snd (clearCache "clients" st)))
    = Normal VNull /\
  fst (getCached (host := reference_host) "clients" 5 (snd (clearAllCaches st)))
    = Normal VNull.
Proof.
  split; [vm_compute; reflexivity|].
  apply (cleared_key_is_a_miss (host := reference_host)).
  intros m op. reflexivity.
Defined.

(** X3.  With a fetch function that resolves with [fresh], on a medium
    that raises no error: [fetchWithCache] resolves with the cached value
    when [getCached] returns a truthy one and with [fresh] otherwise, and
    once the work it left in the background has run the cache serves
    [fresh] until its time-to-live has elapsed. *)
Theorem fetchWithCache_successful_fetch {host : Host} (st : Storage) (key : string)
    (fresh fresh' : value) (ttl now now_done later : Z) :
  reliable st ->
  reads_back fresh (now_done + ttl) fresh' ->
  later <= now_done + ttl ->
  exists cached f st1,
    fst (getCached key now st) = Normal cached /\
    fetchWithCache key (Resolved fresh) ttl now now_done st = (Normal f, st1) /\
    settled f = Resolved (if truthy cached then cached else fresh) /\
    fst (getCached key later (snd (background f st1))) = Normal fresh'.
Proof.
  intros Hrel Hrb Hle.
  destruct (getCached_never_throws key now st) as (cached & st0 & Hget).
  assert (Hrel0 : reliable st0).
  { apply (reliable_fault st); [|exact Hrel].
    pose proof (getCached_fault st key now) as Hf. rewrite Hget in Hf. exact Hf. }
  pose proof (getCached_setCached_fresh st0 key fresh fresh' ttl now_done later
                Hrel0 Hrb Hle) as Hfresh.
  exists cached. unfold fetchWithCache, bind. rewrite Hget. simpl.
  destruct (truthy cached).
  - do 2 eexists. split; [reflexivity|]. split; [reflexivity|]. split; [reflexivity|].
    simpl. rewrite Hfresh. reflexivity.
  - destruct (setCached_never_throws key fresh ttl now_done st0) as ([] & st1 & Hset).
    rewrite Hset in *. simpl in *.
    do 2 eexists. split; [reflexivity|]. split; [reflexivity|]. split; [reflexivity|].
    simpl. rewrite Hfresh. reflexivity.
Qed.

Lemma fetchWithCache_successful_fetch_witness :
  exists cached f st1,
    fst (getCached (host := reference_host) "clients" 1000 empty_storage) = Normal cached /\
    fetchWithCache (host := reference_host) "clients" (Resolved (VArr [VNum 7]))
      300000 1000 1200 empty_storage = (Normal f, st1) /\
    settled f = Resolved (if truthy cached then cached else VArr [VNum 7]) /\
    fst (getCached (host := reference_host) "clients" 2000 (snd (background f st1)))
      = Normal (VArr [VNum 7]).
Proof.
  apply (fetchWithCache_successful_fetch (host := reference_host)).
  - exact empty_storage_reliable.
  - do 2 eexists. split; [vm_compute; reflexivity|].
    split; [discriminate|].
    split; [vm_compute; reflexivity|].
    split; reflexivity.
  - lia.
Defined.

(** X4.  An entry whose [expiresAt] does not coerce to a number (it is
    missing, for instance) never expires: [getCached] serves its data at
    every time and leaves it stored. *)
Theorem entry_without_expiry_never_expires {host : Host} (st : Storage) (key : string)
    (text : string) (fs : obj) (now : Z) :
  fault st (items st) (OpGetItem (CACHE_PREFIX +:+ key)) = None ->
  items st !! (CACHE_PREFIX +:+ key) = Some text ->
  text <> EmptyString ->
  JSON_parse text = Normal (VObj fs) ->
  ToNumber (lookup_field "expiresAt" fs) = None ->
  fst (getCached key now st) = Normal (lookup_field "data" fs) /\
  items (snd (getCached key now st)) = items st.
Proof.
  intros Hf Hi Hne Hp Hnan.
  rewrite (getCached_hit st key now text fs Hf Hi Hne Hp).
  - split; reflexivity.
  - unfold js_gt. rewrite Hnan. reflexivity.
Qed.

Lemma entry_without_expiry_never_expires_witness :
  fst (getCached (host := reference_host) "theme" 99999999999 unstamped_storage)
    = Normal (VNum 5) /\
  items (snd (getCached (host := reference_host) "theme" 99999999999 unstamped_storage))
    = items unstamped_storage.
Proof.
  apply (entry_without_expiry_never_expires (host := reference_host) unstamped_storage
           "theme" unstamped_text [("data", VNum 5)]).
  - reflexivity.
  - reflexivity.
  - discriminate.
  - vm_compute. reflexivity.
  - reflexivity.
Defined.

(* ===================================================================== *)
(** * Further properties of the data hooks *)
(* ===================================================================== *)

(** ** Objects and traces *)

Lemma strict_eq_VStr (a : value) (s : string) :
  strict_eq a (VStr s) = true -> a = VStr s.
Proof.
  destruct a; simpl; try discriminate.
  intros H. apply String.eqb_eq in H. congruence.
Qed.

Lemma lookup_set_field_eq (k : string) (v : value) (fs : obj) :
  lookup_field k (set_field k v fs) = v.
Proof.
  induction fs as [|[k0 v0] fs IH]; simpl.
  - rewrite String.eqb_refl. reflexivity.
  - destruct (String.eqb k k0) eqn:E; simpl.
    + rewrite String.eqb_refl. reflexivity.
    + rewrite E. exact IH.
Qed.

Lemma has_field_In (k : string) (fs : obj) :
  has_field k fs = true <-> In k (map fst fs).
Proof.
  induction fs as [|[k0 v0] fs IH]; simpl.
  - split; [discriminate | contradiction].
  - rewrite orb_true_iff, IH, String.eqb_eq. split; intros [H|H]; auto.
Qed.

Lemma lookup_field_absent (k : string) (fs : obj) :
  has_field k fs = false -> lookup_field k fs = VUndefined.
Proof.
  induction fs as [|[k0 v0] fs IH]; simpl; [reflexivity|].
  destruct (String.eqb k k0); simpl; [discriminate | exact IH].
Qed.

Lemma set_field_twice (k : string) (v v' : value) (fs : obj) :
  set_field k v (set_field k v' fs) = set_field k v fs.
Proof.
  induction fs as [|[k0 v0] fs IH]; simpl.
  - rewrite String.eqb_refl. reflexivity.
  - destruct (String.eqb k k0) eqn:E; simpl.
    + rewrite String.eqb_refl. reflexivity.
    + rewrite E, IH. reflexivity.
Qed.

Lemma set_field_same (k : string) (fs : obj) :
  has_field k fs = true -> set_field k (lookup_field k fs) fs = fs.
Proof.
  induction fs as [|[k0 v0] fs IH]; simpl; [discriminate|].
  destruct (String.eqb k k0) eqn:E; simpl.
  - intros _. apply String.eqb_eq in E. subst. reflexivity.
  - intros H. rewrite (IH H). reflexivity.
Qed.

(** [{ ...base, ...extra }.k] when the keys of [extra] are distinct. *)
Lemma lookup_spread (k : string) (base extra : obj) :
  List.NoDup (map fst extra) ->
  lookup_field k (spread base extra) =
    if has_field k extra then lookup_field k extra else lookup_field k base.
Proof.
  unfold spread. revert base.
  induction extra as [|[k0 v0] extra IH]; intros base Hnd; simpl.
  - reflexivity.
  - inversion Hnd as [|? ? Hnotin Hnd']; subst.
    rewrite (IH _ Hnd').
    destruct (String.eqb k k0) eqn:E; simpl.
    + apply String.eqb_eq in E. subst k0.
      destruct (has_field k extra) eqn:Hh.
      * apply has_field_In in Hh. contradiction.
      * apply lookup_set_field_eq.
    + destruct (has_field k extra); [reflexivity|].
      apply lookup_set_field_ne. apply String.eqb_neq. exact E.
Qed.

Lemma lookup_map {A B} (f : A -> B) (l : list A) (i : nat) :
  map f l !! i = f <$> (l !! i).
Proof.
  revert i. induction l as [|a l IH]; intros [|i]; simpl; auto.
Qed.

Lemma toasts_app {S} (a b : list (Event S)) : toasts (a ++ b) = toasts a ++ toasts b.
Proof.
  induction a as [|[s|n|kd m] a IH]; simpl; [reflexivity | exact IH | exact IH |].
  rewrite IH. reflexivity.
Qed.

Lemma remote_calls_app {S} (a b : list (Event S)) :
  remote_calls (a ++ b) = remote_calls a ++ remote_calls b.
Proof.
  induction a as [|[s|n|kd m] a IH]; simpl; [reflexivity | exact IH | | exact IH].
  rewrite IH. reflexivity.
Qed.

(** Symbolic execution of a hook. *)
Ltac run_hook :=
  unfold try_finally, try_catch, bind, setData, setViewLoading, setViewError, setState,
    call_remote, emit, toast, modify, await, throw, console_log, ret, on_storage, zoom;
  simpl.

Ltac same_trace :=
  rewrite ?toasts_app, ?remote_calls_app; simpl; rewrite ?app_nil_r; reflexivity.

(** ** useClients: create, update, remove, toggleActive *)

Lemma replace_tentative (prev : list obj) (opt newClient : obj) (s : string) :
  lookup_field "id" opt = VStr s ->
  Forall (fun c => lookup_field "id" c <> VStr s) prev ->
  map (fun c => if strict_eq (lookup_field "id" c) (lookup_field "id" opt)
                then newClient else c) (prev ++ [opt]) = prev ++ [newClient].
Proof.
  intros Hopt Hprev. rewrite Hopt, map_app. simpl. rewrite Hopt. simpl.
  rewrite String.eqb_refl. f_equal.
  induction Hprev as [|c l Hc Hl IH]; simpl; [reflexivity|].
  rewrite IH. destruct (strict_eq (lookup_field "id" c) (VStr s)) eqn:E; [|reflexivity].
  apply strict_eq_VStr in E. contradiction.
Qed.

(** X5.  A [create] whose remote call resolves with [newClient], for data
    that carry no [id] of their own and a collection in which no entity has
    the tentative identifier: the result carries [newClient], the
    collection is the previous one followed by [newClient] (the tentative
    entity is replaced, nothing else is touched), the cache entry of the
    collection is removed, one success notification is sent and the remote
    function is called once. *)
Theorem create_success_replaces_tentative_entity (st : Storage) (prev : list obj)
    (tr : list (Event (list obj))) (clientData : value) (now : Z) (iso : string)
    (newClient : obj) :
  reliable st ->
  has_field "id" (spread_fields clientData) = false ->
  Forall (fun c => lookup_field "id" c <> VStr ("temp-" +:+ pretty now)) prev ->
  let run := useClients.create clientData now iso (Resolved newClient)
               (mkHookWorld st (Live prev) tr) in
  fst run = Normal (mkResult (Some newClient) None) /\
  hw_state (snd run) = Live (prev ++ [newClient]) /\
  items (hw_storage (snd run)) = delete (CACHE_PREFIX +:+ "clients") (items st) /\
  toasts (hw_trace (snd run)) = toasts tr ++ [(ToastSuccess, "Client created successfully")] /\
  remote_calls (hw_trace (snd run)) = remote_calls tr ++ ["createSupabaseClient"].
Proof.
  intros Hrel Hid Hprev run. unfold run.
  assert (Hopt : lookup_field "id" (useClients.optimistic_client clientData now iso)
                 = VStr ("temp-" +:+ pretty now)).
  { unfold useClients.optimistic_client.
    rewrite lookup_set_field_ne by discriminate.
    rewrite lookup_spread_absent by exact Hid. reflexivity. }
  pose proof (replace_tentative prev _ newClient _ Hopt Hprev) as Hmap.
  unfold useClients.create. run_hook.
  rewrite Hmap. rewrite (clearCache_reliable st "clients" Hrel). simpl.
  repeat split; same_trace.
Qed.

Lemma create_success_replaces_tentative_entity_witness :
  let prev := [[("id", VStr "c1"); ("name", VStr "Acme")]] in
  let newClient := [("id", VStr "c2"); ("name", VStr "NewCo")] in
  let run := useClients.create (VObj [("name", VStr "NewCo")]) 1700000000500
               "2023-11-14T22:13:20.500Z" (Resolved newClient)
               (mkHookWorld mixed_storage (Live prev) []) in
  fst run = Normal (mkResult (Some newClient) None) /\
  hw_state (snd run) = Live (prev ++ [newClient]) /\
  items (hw_storage (snd run)) = delete (CACHE_PREFIX +:+ "clients") (items mixed_storage) /\
  toasts (hw_trace (snd run)) = [(ToastSuccess, "Client created successfully")] /\
  remote_calls (hw_trace (snd run)) = ["createSupabaseClient"].
Proof.
  apply (create_success_replaces_tentative_entity mixed_storage
           [[("id", VStr "c1"); ("name", VStr "Acme")]] []).
  - intros m op. reflexivity.
  - reflexivity.
  - repeat constructor. discriminate.
Defined.

(** X6.  An [update] whose remote call resolves with [updated], for
    updates that do not change the [id]: the collection keeps its length
    and its order, an entity with another identifier is untouched, and in
    an entity with the identifier [clientId] every property has the value
    of the response when the response has it, else the value of the
    updates when they have it, else its previous value. *)
Theorem update_success_server_fields_win (st : Storage) (prev clients : list obj)
    (tr : list (Event (list obj))) (clientId : value) (updates updated : obj) :
  List.NoDup (map fst updates) ->
  List.NoDup (map fst updated) ->
  has_field "id" updates = false ->
  let run := useClients.update clients clientId (VObj updates) (Resolved updated)
               (mkHookWorld st (Live prev) tr) in
  fst run = Normal (mkResult (Some updated) None) /\
  exists final,
    hw_state (snd run) = Live final /\
    length final = length prev /\
    forall i c, prev !! i = Some c ->
      exists c', final !! i = Some c' /\
        if strict_eq (lookup_field "id" c) clientId then
          forall k, lookup_field k c' =
            if has_field k updated then lookup_field k updated
            else if has_field k updates then lookup_field k updates
            else lookup_field k c
        else c' = c.
Proof.
  intros Hnu Hnd Hid run. unfold run.
  unfold useClients.update. run_hook.
  destruct (clearCache "clients" st) as [[[]|e] st'] eqn:Hclear.
  2:{ destruct (clearCache_never_throws "clients" st) as (u & st'' & Hc).
      rewrite Hc in Hclear. discriminate. }
  simpl. split; [reflexivity|].
  eexists. split; [reflexivity|].
  split; [rewrite !length_map; reflexivity|].
  intros i c Hi. rewrite !lookup_map, Hi. simpl.
  eexists. split; [reflexivity|].
  destruct (strict_eq (lookup_field "id" c) clientId) eqn:E.
  - rewrite (lookup_spread_absent "id" c updates Hid), E.
    intros k. rewrite (lookup_spread k _ updated Hnd).
    destruct (has_field k updated); [reflexivity|].
    apply lookup_spread, Hnu.
  - rewrite E. reflexivity.
Qed.

Lemma update_success_server_fields_win_witness :
  let prev := [[("id", VStr "c1"); ("name", VStr "Acme"); ("notes", VStr "n")];
               [("id", VStr "c2"); ("name", VStr "Beta")]] in
  let run := useClients.update prev (VStr "c1") (VObj [("name", VStr "Renamed")])
               (Resolved [("id", VStr "c1"); ("name", VStr "Renamed Inc")])
               (mkHookWorld empty_storage (Live prev) []) in
  fst run = Normal (mkResult (Some [("id", VStr "c1"); ("name", VStr "Renamed Inc")]) None) /\
  exists final,
    hw_state (snd run) = Live final /\
    length final = length prev /\
    forall i c, prev !! i = Some c ->
      exists c', final !! i = Some c' /\
        if strict_eq (lookup_field "id" c) (VStr "c1") then
          forall k, lookup_field k c' =
            if has_field k [("id", VStr "c1"); ("name", VStr "Renamed Inc")]
            then lookup_field k [("id", VStr "c1"); ("name", VStr "Renamed Inc")]
            else if has_field k [("name", VStr "Renamed")]
            then lookup_field k [("name", VStr "Renamed")]
            else lookup_field k c
        else c' = c.
Proof.
  apply (update_success_server_fields_win empty_storage).
  - repeat constructor. simpl. tauto.
  - repeat constructor; simpl; intuition discriminate.
  - reflexivity.
Defined.

(** X7.  A [remove] whose remote call fails never reaches its rollback:
    the promise of [remove] rejects with [ReferenceError] (the snapshot is
    out of scope in the handler), every entity with the identifier
    [clientId] stays removed from the collection, the medium is untouched
    and no notification is sent. *)
Theorem remove_failure_is_not_rolled_back (st : Storage) (prev clients : list obj)
    (tr : list (Event (list obj))) (clientId : value) (e : JSError) :
  let run := useClients.remove clients clientId (Rejected e)
               (mkHookWorld st (Live prev) tr) in
  let kept := List.filter (fun c => negb (strict_eq (lookup_field "id" c) clientId)) prev in
  fst run = Throw (ReferenceError "prevClients") /\
  hw_state (snd run) = Live kept /\
  (forall c, strict_eq (lookup_field "id" c) clientId = true -> ~ In c kept) /\
  hw_storage (snd run) = st /\
  toasts (hw_trace (snd run)) = toasts tr /\
  remote_calls (hw_trace (snd run)) = remote_calls tr ++ ["deleteClient"].
Proof.
  intros run kept. unfold run.
  unfold useClients.remove. run_hook. fold kept.
  split; [reflexivity|]. split; [reflexivity|]. split.
  { intros c Heq Hin. apply filter_In in Hin as [_ Hin]. rewrite Heq in Hin. discriminate. }
  split; [reflexivity|]. split; same_trace.
Qed.

Lemma remove_failure_is_not_rolled_back_witness :
  let prev := [[("id", VStr "c1"); ("name", VStr "Acme")];
               [("id", VStr "c2"); ("name", VStr "Beta")]] in
  let run := useClients.remove prev (VStr "c1") (Rejected (Error "network"))
               (mkHookWorld empty_storage (Live prev) []) in
  fst run = Throw (ReferenceError "prevClients") /\
  hw_state (snd run) = Live [[("id", VStr "c2"); ("name", VStr "Beta")]] /\
  ~ In [("id", VStr "c1"); ("name", VStr "Acme")]
       [[("id", VStr "c2"); ("name", VStr "Beta")]] /\
  toasts (hw_trace (snd run)) = [].
Proof.
  destruct (remove_failure_is_not_rolled_back empty_storage
              [[("id", VStr "c1"); ("name", VStr "Acme")];
               [("id", VStr "c2"); ("name", VStr "Beta")]]
              [[("id", VStr "c1"); ("name", VStr "Acme")];
               [("id", VStr "c2"); ("name", VStr "Beta")]]
              [] (VStr "c1") (Error "network"))
    as (Hthrow & Hstate & Hgone & _ & Htoasts & _).
  split; [exact Hthrow|]. split; [exact Hstate|].
  split; [apply (Hgone [("id", VStr "c1"); ("name", VStr "Acme")]); reflexivity|].
  exact Htoasts.
Defined.

(** X8.  A [remove] whose remote call succeeds, on a medium that raises no
    error: the collection is the previous one without the entities that
    have the identifier [clientId], in the same order; the removal is
    shown before the remote call is made; the cache entry of the
    collection is removed and one success notification is sent. *)
Theorem remove_success_drops_the_entity (st : Storage) (prev clients : list obj)
    (tr : list (Event (list obj))) (clientId : value) :
  reliable st ->
  let run := useClients.remove clients clientId (Resolved tt)
               (mkHookWorld st (Live prev) tr) in
  fst run = Normal None /\
  hw_state (snd run) =
    Live (List.filter (fun c => negb (strict_eq (lookup_field "id" c) clientId)) prev) /\
  items (hw_storage (snd run)) = delete (CACHE_PREFIX +:+ "clients") (items st) /\
  rendered_before_remote (drop (length tr) (hw_trace (snd run))) = true /\
  toasts (hw_trace (snd run)) = toasts tr ++ [(ToastSuccess, "Client deleted successfully")].
Proof.
  intros Hrel run. unfold run.
  unfold useClients.remove. run_hook.
  rewrite (clearCache_reliable st "clients" Hrel). simpl.
  split; [reflexivity|]. split; [reflexivity|]. split; [reflexivity|]. split.
  - rewrite <- !app_assoc. rewrite drop_app_length. reflexivity.
  - same_trace.
Qed.

Lemma remove_success_drops_the_entity_witness :
  let prev := [[("id", VStr "c1"); ("name", VStr "Acme")];
               [("id", VStr "c2"); ("name", VStr "Beta")]] in
  let run := useClients.remove prev (VStr "c1") (Resolved tt)
               (mkHookWorld mixed_storage (Live prev) []) in
  fst run = Normal None /\
  hw_state (snd run) = Live [[("id", VStr "c2"); ("name", VStr "Beta")]] /\
  items (hw_storage (snd run)) = delete (CACHE_PREFIX +:+ "clients") (items mixed_storage) /\
  rendered_before_remote (hw_trace (snd run)) = true /\
  toasts (hw_trace (snd run)) = [(ToastSuccess, "Client deleted successfully")].
Proof.
  apply (remove_success_drops_the_entity mixed_storage
           [[("id", VStr "c1"); ("name", VStr "Acme")];
            [("id", VStr "c2"); ("name", VStr "Beta")]] _ [] (VStr "c1")).
  intros m op. reflexivity.
Defined.

(** X9.  A [toggleActive] whose remote call fails behaves as the failed
    [update] it is: it rejects with [ReferenceError], and the entity with
    the identifier [clientId] keeps the flag it was optimistically given;
    no notification is sent. *)
Theorem toggleActive_failure_leaves_flag_flipped (st : Storage) (prev clients : list obj)
    (tr : list (Event (list obj))) (clientId isActive : value) (e : JSError)
    (i : nat) (c : obj) :
  prev !! i = Some c ->
  strict_eq (lookup_field "id" c) clientId = true ->
  let run := useClients.toggleActive clients clientId isActive (Rejected e)
               (mkHookWorld st (Live prev) tr) in
  fst run = Throw (ReferenceError "prevClients") /\
  exists final c',
    hw_state (snd run) = Live final /\
    final !! i = Some c' /\
    lookup_field "is_active" c' = isActive /\
    toasts (hw_trace (snd run)) = toasts tr.
Proof.
  intros Hi Heq run. unfold run, useClients.toggleActive.
  unfold useClients.update. run_hook.
  split; [reflexivity|].
  do 2 eexists. split; [reflexivity|]. split.
  - rewrite lookup_map, Hi. simpl. rewrite Heq. reflexivity.
  - split.
    + unfold spread. simpl. apply lookup_set_field_eq.
    + same_trace.
Qed.

Lemma toggleActive_failure_leaves_flag_flipped_witness :
  let prev := [[("id", VStr "c1"); ("is_active", VBool true)]] in
  let run := useClients.toggleActive prev (VStr "c1") (VBool false)
               (Rejected (Error "network"))
               (mkHookWorld empty_storage (Live prev) []) in
  fst run = Throw (ReferenceError "prevClients") /\
  exists final c',
    hw_state (snd run) = Live final /\
    final !! 0%nat = Some c' /\
    lookup_field "is_active" c' = VBool false /\
    toasts (hw_trace (snd run)) = [].
Proof.
  apply (toggleActive_failure_leaves_flag_flipped empty_storage
           [[("id", VStr "c1"); ("is_active", VBool true)]] _ [] _ _ _ 0%nat
           [("id", VStr "c1"); ("is_active", VBool true)]).
  - reflexivity.
  - reflexivity.
Defined.

(** ** The fetching functions *)

Section FetchFacts.
Context {host : Host}.

Lemma fetchClients_settles (st : Storage) (view : View)
    (tr : list (Event View)) (now : Z) (remote : Raced value) (now_store : Z) :
  exists w' v',
    useClients.fetchClients now remote now_store (mkHookWorld st (Live view) tr)
      = (Normal tt, w') /\
    hw_state w' = Live v' /\
    view_loading v' = false.
Proof.
  destruct (getCached_never_throws "clients" now st) as (cached & st0 & Hget).
  unfold useClients.fetchClients. run_hook. rewrite Hget. simpl.
  destruct (truthy cached); simpl;
    destruct remote as [|[data|e]]; simpl;
    try (do 2 eexists; split; [reflexivity|]; split; reflexivity);
    destruct (truthy data); simpl;
    try (do 2 eexists; split; [reflexivity|]; split; reflexivity);
    destruct (setCached_never_throws "clients" data (10 * 60 * 1000) now_store st0)
      as ([] & st1 & ->); simpl;
    do 2 eexists; (split; [reflexivity|]); split; reflexivity.
Qed.

Lemma fetchClient_settles (clientId : option string) (st : Storage)
    (view : View) (tr : list (Event View)) (now : Z) (remote : Raced value)
    (now_store : Z) :
  exists w' v',
    useClient.fetchClient clientId now remote now_store (mkHookWorld st (Live view) tr)
      = (Normal tt, w') /\
    hw_state w' = Live v' /\
    view_loading v' = false /\
    (clientId = None \/ clientId = Some EmptyString ->
     hw_storage w' = st /\
     remote_calls (hw_trace w') = remote_calls tr /\
     view_data v' = view_data view /\
     view_error v' = view_error view).
Proof.
  unfold useClient.fetchClient.
  destruct clientId as [id|].
  2:{ run_hook. do 2 eexists. split; [reflexivity|]. split; [reflexivity|].
      split; [reflexivity|]. intros _. simpl.
      rewrite remote_calls_app. simpl. rewrite app_nil_r. repeat split. }
  destruct (String.eqb id EmptyString) eqn:Eid.
  { run_hook. do 2 eexists. split; [reflexivity|]. split; [reflexivity|].
      split; [reflexivity|]. intros _. simpl.
      rewrite remote_calls_app. simpl. rewrite app_nil_r. repeat split. }
  assert (Hno : ~ (Some id = None \/ Some id = Some EmptyString)).
  { intros [H|H]; [discriminate|]. injection H as ->. discriminate. }
  destruct (getCached_never_throws ("client_" +:+ id) now st) as (cached & st0 & Hget).
  run_hook. rewrite Hget. simpl.
  destruct (truthy cached); simpl;
    destruct remote as [|[data|e]]; simpl;
    try (do 2 eexists; split; [reflexivity|]; split; [reflexivity|];
         split; [reflexivity | intros H; contradiction]);
    destruct (setCached_never_throws ("client_" +:+ id) data (10 * 60 * 1000)
                now_store st0) as ([] & st1 & ->); simpl;
    do 2 eexists; (split; [reflexivity|]); (split; [reflexivity|]);
    (split; [reflexivity | intros H; contradiction]).
Qed.

End FetchFacts.

(** X10.  However the cache and the remote call behave (a hit or a miss,
    an error of the medium, a resolved, rejected or timed-out fetch),
    [fetchClients] and [fetchClient] complete without raising and end with
    [loading] false.  Without a [clientId], [fetchClient] does nothing
    else: no call on the medium, no remote call, the client and the error
    as they were. *)
Theorem fetches_always_clear_loading {host : Host} (clientId : option string)
    (st : Storage) (view : View) (tr : list (Event View)) (now : Z)
    (remote : Raced value) (now_store : Z) :
  (exists w' v',
     useClients.fetchClients now remote now_store (mkHookWorld st (Live view) tr)
       = (Normal tt, w') /\
     hw_state w' = Live v' /\
     view_loading v' = false) /\
  (exists w' v',
     useClient.fetchClient clientId now remote now_store (mkHookWorld st (Live view) tr)
       = (Normal tt, w') /\
     hw_state w' = Live v' /\
     view_loading v' = false /\
     (clientId = None \/ clientId = Some EmptyString ->
      hw_storage w' = st /\
      remote_calls (hw_trace w') = remote_calls tr /\
      view_data v' = view_data view /\
      view_error v' = view_error view)).
Proof.
  split; [apply fetchClients_settles | apply fetchClient_settles].
Qed.

Lemma fetches_always_clear_loading_witness :
  exists w' v',
    useClient.fetchClient (host := reference_host) None 1 TimedOut 2
      (mkHookWorld denied_storage (Live blank_view) []) = (Normal tt, w') /\
    hw_state w' = Live v' /\
    view_loading v' = false /\
    hw_storage w' = denied_storage /\
    remote_calls (hw_trace w') = [] /\
    view_data v' = VArr [] /\
    view_error v' = VNull.
Proof.
  destruct (fetches_always_clear_loading (host := reference_host) None denied_storage
              blank_view [] 1 TimedOut 2)
    as (_ & w' & v' & Hrun & Hstate & Hload & Hidle).
  exists w', v'. split; [exact Hrun|]. split; [exact Hstate|]. split; [exact Hload|].
  apply Hidle. left. reflexivity.
Defined.

(** X11.  When the fetch of [fetchClients] fails with [e] (it rejects, or
    the 2-second timer fires first): if the cache gave a truthy value, that
    value stays shown, no error is set and no notification is sent; if it
    did not, the collection shown is left as it was, the error is the
    message of [e] and one error notification is sent.  Either way
    [loading] ends false. *)
Theorem fetchClients_failed_fetch {host : Host} (st : Storage) (view : View)
    (tr : list (Event View)) (now : Z) (remote : Raced value) (now_store : Z)
    (e : JSError) :
  race remote "Request timed out while fetching clients" = Rejected e ->
  exists cached w',
    fst (getCached "clients" now st) = Normal cached /\
    useClients.fetchClients now remote now_store (mkHookWorld st (Live view) tr)
      = (Normal tt, w') /\
    hw_state w' =
      Live (if truthy cached then mkView cached false VNull
            else mkView (view_data view) false (VStr (err_message e))) /\
    toasts (hw_trace w') =
      toasts tr ++ (if truthy cached then [] else [(ToastError, "Failed to load clients")]).
Proof.
  intros Hrace.
  destruct (getCached_never_throws "clients" now st) as (cached & st0 & Hget).
  exists cached. unfold useClients.fetchClients. run_hook. rewrite Hget, Hrace. simpl.
  destruct (truthy cached); simpl; eexists;
    (split; [reflexivity|]); (split; [reflexivity|]); (split; [reflexivity|]);
    simpl; same_trace.
Qed.

Lemma fetchClients_failed_fetch_witness :
  exists cached w',
    fst (getCached (host := reference_host) "clients" 1 empty_storage) = Normal cached /\
    useClients.fetchClients (host := reference_host) 1 TimedOut 2
      (mkHookWorld empty_storage (Live blank_view) []) = (Normal tt, w') /\
    hw_state w' =
      Live (if truthy cached then mkView cached false VNull
            else mkView (VArr []) false (VStr "Request timed out while fetching clients")) /\
    toasts (hw_trace w') =
      [] ++ (if truthy cached then [] else [(ToastError, "Failed to load clients")]).
Proof.
  apply (fetchClients_failed_fetch (host := reference_host) empty_storage blank_view []
           1 TimedOut 2 (Error "Request timed out while fetching clients")).
  reflexivity.
Defined.

(** X12.  When the fetch of [fetchClients] resolves with a truthy [data],
    on a medium that raises no error: [data] is shown, with no error and
    [loading] false, whatever the cache held; the cache then serves it for
    ten minutes; no notification is sent. *)
Theorem fetchClients_fresh_data_is_shown_and_cached {host : Host} (st : Storage)
    (view : View) (tr : list (Event View)) (now : Z) (data data' : value)
    (now_store later : Z) :
  reliable st ->
  truthy data = true ->
  reads_back data (now_store + 10 * 60 * 1000) data' ->
  later <= now_store + 10 * 60 * 1000 ->
  exists w',
    useClients.fetchClients now (Settled (Resolved data)) now_store
      (mkHookWorld st (Live view) tr) = (Normal tt, w') /\
    hw_state w' = Live (mkView data false VNull) /\
    fst (getCached "clients" later (hw_storage w')) = Normal data' /\
    toasts (hw_trace w') = toasts tr.
Proof.
  intros Hrel Ht Hrb Hle.
  destruct (getCached_never_throws "clients" now st) as (cached & st0 & Hget).
  assert (Hrel0 : reliable st0).
  { apply (reliable_fault st); [|exact Hrel].
    pose proof (getCached_fault st "clients" now) as Hf. rewrite Hget in Hf. exact Hf. }
  pose proof (getCached_setCached_fresh st0 "clients" data data' (10 * 60 * 1000)
                now_store later Hrel0 Hrb Hle) as Hfresh.
  unfold useClients.fetchClients. run_hook. rewrite Hget. simpl.
  unfold js_or.
  destruct (setCached_never_throws "clients" data (10 * 60 * 1000) now_store st0)
    as ([] & st1 & Hset).
  rewrite Hset in Hfresh. simpl in Hfresh.
  destruct (truthy cached); simpl; rewrite Ht; simpl; rewrite Hset; simpl;
    eexists; (split; [reflexivity|]); (split; [reflexivity|]); simpl;
    (split; [rewrite Hfresh; reflexivity|]); same_trace.
Qed.

Lemma fetchClients_fresh_data_is_shown_and_cached_witness :
  exists w',
    useClients.fetchClients (host := reference_host) 1
      (Settled (Resolved (VArr [VObj [("id", VStr "c1")]]))) 2
      (mkHookWorld empty_storage (Live blank_view) []) = (Normal tt, w') /\
    hw_state w' = Live (mkView (VArr [VObj [("id", VStr "c1")]]) false VNull) /\
    fst (getCached (host := reference_host) "clients" 600002 (hw_storage w'))
      = Normal (VArr [VObj [("id", VStr "c1")]]) /\
    toasts (hw_trace w') = [].
Proof.
  apply (fetchClients_fresh_data_is_shown_and_cached (host := reference_host)
           empty_storage blank_view [] 1).
  - exact empty_storage_reliable.
  - reflexivity.
  - do 2 eexists. split; [vm_compute; reflexivity|].
    split; [discriminate|].
    split; [vm_compute; reflexivity|].
    split; reflexivity.
  - lia.
Defined.

(** X13.  When the fetch of [fetchClient] resolves with [data], on a
    medium that raises no error: the client shown is [data], whatever the
    cache held and also when [data] is [null] (there is no guard as in
    [fetchClients]), and what the cache then serves under the key of that
    client for ten minutes is [data'], what [data] reads back as from the
    JSON text of its entry: [data] itself when it survives the JSON round
    trip. *)
Theorem fetchClient_shows_what_the_fetch_returns {host : Host} (id : string)
    (st : Storage) (view : View) (tr : list (Event View)) (now : Z)
    (data data' : value) (now_store later : Z) :
  id <> EmptyString ->
  reliable st ->
  reads_back data (now_store + 10 * 60 * 1000) data' ->
  later <= now_store + 10 * 60 * 1000 ->
  exists w',
    useClient.fetchClient (Some id) now (Settled (Resolved data)) now_store
      (mkHookWorld st (Live view) tr) = (Normal tt, w') /\
    hw_state w' = Live (mkView data false VNull) /\
    fst (getCached ("client_" +:+ id) later (hw_storage w')) = Normal data'.
Proof.
  intros Hid Hrel Hrb Hle. apply String.eqb_neq in Hid.
  destruct (getCached_never_throws ("client_" +:+ id) now st) as (cached & st0 & Hget).
  assert (Hrel0 : reliable st0).
  { apply (reliable_fault st); [|exact Hrel].
    pose proof (getCached_fault st ("client_" +:+ id) now) as Hf.
    rewrite Hget in Hf. exact Hf. }
  pose proof (getCached_setCached_fresh st0 ("client_" +:+ id) data data'
                (10 * 60 * 1000) now_store later Hrel0 Hrb Hle) as Hfresh.
  destruct (setCached_never_throws ("client_" +:+ id) data (10 * 60 * 1000)
              now_store st0) as ([] & st1 & Hset).
  rewrite Hset in Hfresh. simpl in Hfresh.
  unfold useClient.fetchClient. rewrite Hid. run_hook. rewrite Hget. simpl.
  destruct (truthy cached); simpl; rewrite Hset; simpl;
    eexists; (split; [reflexivity|]); (split; [reflexivity|]); simpl;
    rewrite Hfresh; reflexivity.
Qed.

Lemma fetchClient_shows_what_the_fetch_returns_witness :
  exists w',
    useClient.fetchClient (host := reference_host) (Some "c1") 700000
      (Settled (Resolved VNull)) 700001
      (mkHookWorld
         (snd (setCached (host := reference_host) "client_c1"
                 (VObj [("id", VStr "c1")]) 600000 500000 empty_storage))
         (Live (mkView VNull true VNull)) []) = (Normal tt, w') /\
    hw_state w' = Live (mkView VNull false VNull) /\
    fst (getCached (host := reference_host) ("client_" +:+ "c1") 700002 (hw_storage w'))
      = Normal VNull.
Proof.
  apply (fetchClient_shows_what_the_fetch_returns (host := reference_host) "c1").
  - discriminate.
  - intros m op. reflexivity.
  - do 2 eexists. split; [vm_compute; reflexivity|].
    split; [discriminate|].
    split; [vm_compute; reflexivity|].
    split; reflexivity.
  - lia.
Defined.

(** ** useClient: the mutations of the single client *)

(** X14.  None of the mutations of [useClient] is optimistic: when the
    remote call of [remove], [addKeywords], [removeKeyword],
    [addSampleComment], [removeSampleComment], [addIndustrySite] or
    [removeIndustrySite] fails with [e], the function returns a result that
    carries [e], the client and the medium are as before the call, and one
    error notification of that function is sent. *)
Theorem single_client_mutations_fail_without_change (w : HookWorld value) (e : JSError)
    (id : value) :
  failed_without_change (useClient.remove (Rejected e) w) w
    (Some e) "Failed to delete client" /\
  failed_without_change (useClient.addKeywords (Rejected e) w) w
    (mkResult None (Some e)) "Failed to add keywords" /\
  failed_without_change (useClient.removeKeyword id (Rejected e) w) w
    (Some e) "Failed to remove keyword" /\
  failed_without_change (useClient.addSampleComment (Rejected e) w) w
    (mkResult None (Some e)) "Failed to add sample comment" /\
  failed_without_change (useClient.removeSampleComment id (Rejected e) w) w
    (Some e) "Failed to remove sample comment" /\
  failed_without_change (useClient.addIndustrySite (Rejected e) w) w
    (mkResult None (Some e)) "Failed to add industry site" /\
  failed_without_change (useClient.removeIndustrySite id (Rejected e) w) w
    (Some e) "Failed to remove industry site".
Proof.
  unfold failed_without_change, useClient.remove, useClient.addKeywords,
    useClient.removeKeyword, useClient.addSampleComment, useClient.removeSampleComment,
    useClient.addIndustrySite, useClient.removeIndustrySite.
  run_hook.
  repeat split; same_trace.
Qed.

Lemma filter_id_ne_app (id : value) (old : list value) (x x_id : value) :
  no_element_with_id id old ->
  get_prop x "id" = Normal x_id ->
  filter_id_ne id (old ++ [x]) = Normal (if strict_eq x_id id then old else old ++ [x]).
Proof.
  intros Hold Hx. induction Hold as [|y l (y_id & Hy & Hne) Hl IH]; simpl.
  - rewrite Hx. simpl. destruct (strict_eq x_id id); reflexivity.
  - rewrite Hy. simpl. rewrite IH. simpl. rewrite Hne.
    destruct (strict_eq x_id id); reflexivity.
Qed.

(** X15.  Adding one keyword and then removing it by its identifier gives
    the client back: for a client whose [keywords] is an array in which no
    element has the identifier [id], a successful [addKeywords] that
    returns one keyword with that identifier appends it, and a successful
    [removeKeyword(id)] after it leaves exactly the client there was. *)
Theorem addKeywords_then_removeKeyword_restores (st : Storage) (fs : obj)
    (tr : list (Event value)) (old : list value) (kw kw_id id : value) :
  lookup_field "keywords" fs = VArr old ->
  no_element_with_id id old ->
  get_prop kw "id" = Normal kw_id ->
  strict_eq kw_id id = true ->
  let w1 := snd (useClient.addKeywords (Resolved (VArr [kw]))
                   (mkHookWorld st (Live (VObj fs)) tr)) in
  let w2 := snd (useClient.removeKeyword id (Resolved tt) w1) in
  hw_state w1 = Live (VObj (set_field "keywords" (VArr (old ++ [kw])) fs)) /\
  hw_state w2 = Live (VObj fs).
Proof.
  intros Hk Hold Hkw Heq w1 w2. unfold w2, w1.
  unfold useClient.addKeywords, useClient.removeKeyword, useClient.with_appended,
    useClient.with_removed.
  run_hook. rewrite Hk. simpl. split; [reflexivity|].
  rewrite lookup_set_field_eq. simpl.
  rewrite (filter_id_ne_app id old kw kw_id Hold Hkw), Heq. simpl.
  rewrite set_field_twice, <- Hk, set_field_same; [reflexivity|].
  destruct (has_field "keywords" fs) eqn:Hh; [reflexivity|].
  rewrite (lookup_field_absent _ _ Hh) in Hk. discriminate.
Qed.

Lemma addKeywords_then_removeKeyword_restores_witness :
  let fs := [("id", VStr "c1");
             ("keywords", VArr [VObj [("id", VNum 1); ("keyword", VStr "seo")]]);
             ("name", VStr "Acme")] in
  let kw := VObj [("id", VNum 2); ("keyword", VStr "ads")] in
  let w1 := snd (useClient.addKeywords (Resolved (VArr [kw]))
                   (mkHookWorld empty_storage (Live (VObj fs)) [])) in
  let w2 := snd (useClient.removeKeyword (VNum 2) (Resolved tt) w1) in
  hw_state w1 =
    Live (VObj (set_field "keywords"
                  (VArr ([VObj [("id", VNum 1); ("keyword", VStr "seo")]] ++ [kw])) fs)) /\
  hw_state w2 = Live (VObj fs).
Proof.
  apply (addKeywords_then_removeKeyword_restores empty_storage _ []
           [VObj [("id", VNum 1); ("keyword", VStr "seo")]] _ (VNum 2) (VNum 2)).
  - reflexivity.
  - repeat constructor. exists (VNum 1). split; reflexivity.
  - reflexivity.
  - reflexivity.
Defined.

(** X16.  Adding tolerates a client without the list, removing does not:
    for a client object with no [keywords] property, a successful
    [addKeywords] creates the list, whereas a successful [removeKeyword]
    returns [{ error: null }] after the remote removal and leaves a state
    update that raises [TypeError] when it is rendered. *)
Theorem removal_from_a_missing_list_crashes (st : Storage) (fs : obj)
    (tr : list (Event value)) (id added : value) :
  has_field "keywords" fs = false ->
  let w := mkHookWorld st (Live (VObj fs)) tr in
  (exists err,
     useClient.removeKeyword id (Resolved tt) w =
       (Normal None, mkHookWorld st (Crashed err) (tr ++ [RemoteCall "removeClientKeyword"])) /\
     err_name err = "TypeError") /\
  hw_state (snd (useClient.addKeywords (Resolved (VArr [added])) w)) =
    Live (VObj (fs ++ [("keywords", VArr [added])])).
Proof.
  intros Hh w. unfold w.
  unfold useClient.addKeywords, useClient.removeKeyword, useClient.with_appended,
    useClient.with_removed.
  run_hook. rewrite (lookup_field_absent _ _ Hh). simpl. split.
  - eexists. split; reflexivity.
  - do 2 f_equal. clear w. induction fs as [|[k0 v0] fs IH]; simpl; [reflexivity|].
    simpl in Hh. apply orb_false_elim in Hh as [Hk Hh]. rewrite Hk, (IH Hh). reflexivity.
Qed.

Lemma removal_from_a_missing_list_crashes_witness :
  let fs := [("id", VStr "c1"); ("name", VStr "Acme")] in
  let w := mkHookWorld empty_storage (Live (VObj fs)) [] in
  (exists err,
     useClient.removeKeyword (VNum 1) (Resolved tt) w =
       (Normal None,
        mkHookWorld empty_storage (Crashed err) ([] ++ [RemoteCall "removeClientKeyword"])) /\
     err_name err = "TypeError") /\
  hw_state (snd (useClient.addKeywords
                   (Resolved (VArr [VObj [("id", VNum 1)]])) w)) =
    Live (VObj (fs ++ [("keywords", VArr [VObj [("id", VNum 1)]])])).
Proof.
  apply (removal_from_a_missing_list_crashes empty_storage
           [("id", VStr "c1"); ("name", VStr "Acme")] [] (VNum 1) (VObj [("id", VNum 1)])).
  reflexivity.
Defined.

(** ** useClientSelect *)

(** X17.  An option of [useClientSelect] reads as its client on every
    property the client has, because the client is spread last: [value],
    [label] and [industry] are the client's [id], [name] and [industry]
    only when the client has no property of that name. *)
Theorem clientOption_keeps_the_client_fields (client : obj) (k : string) :
  List.NoDup (map fst client) ->
  lookup_field k (useClientSelect.clientOption client) =
    if has_field k client then lookup_field k client
    else if String.eqb k "value" then lookup_field "id" client
    else if String.eqb k "label" then lookup_field "name" client
    else if String.eqb k "industry" then lookup_field "industry" client
    else VUndefined.
Proof.
  intros Hnd. unfold useClientSelect.clientOption.
  rewrite (lookup_spread k _ client Hnd).
  destruct (has_field k client); [reflexivity|]. simpl.
  destruct (String.eqb k "value"); [reflexivity|].
  destruct (String.eqb k "label"); [reflexivity|].
  destruct (String.eqb k "industry"); reflexivity.
Qed.

Lemma clientOption_keeps_the_client_fields_witness :
  lookup_field "value"
    (useClientSelect.clientOption [("id", VStr "c1"); ("name", VStr "Acme");
                                   ("value", VNum 250)]) = VNum 250.
Proof.
  apply (clientOption_keeps_the_client_fields
           [("id", VStr "c1"); ("name", VStr "Acme"); ("value", VNum 250)] "value").
  repeat constructor; simpl; intuition discriminate.
Defined.

(** ** useGenerator: marking an option *)

Lemma mark_from_length (idx : Z) (optionIndex : value) (flag : string) (l : list obj) :
  length (useGenerator.mark_from idx optionIndex flag l) = length l.
Proof.
  revert idx. induction l as [|opt l IH]; intros idx; simpl; [reflexivity|].
  rewrite IH. reflexivity.
Qed.

Lemma mark_from_lookup (idx : Z) (optionIndex : value) (flag : string) (l : list obj)
    (j : nat) :
  useGenerator.mark_from idx optionIndex flag l !! j =
    (fun opt => if strict_eq (VNum (idx + Z.of_nat j)) optionIndex
                then set_field flag (VBool true) opt else opt) <$> (l !! j).
Proof.
  revert idx j. induction l as [|opt l IH]; intros idx j; simpl.
  - destruct j; reflexivity.
  - destruct j as [|j]; simpl.
    + rewrite Z.add_0_r. reflexivity.
    + rewrite IH. replace (idx + 1 + Z.of_nat j) with (idx + Z.of_nat (S j)) by lia.
      reflexivity.
Qed.

Lemma mark_from_idempotent (idx : Z) (optionIndex : value) (flag : string) (l : list obj) :
  useGenerator.mark_from idx optionIndex flag
    (useGenerator.mark_from idx optionIndex flag l) =
  useGenerator.mark_from idx optionIndex flag l.
Proof.
  revert idx. induction l as [|opt l IH]; intros idx;
    cbn [useGenerator.mark_from]; [reflexivity|].
  rewrite IH. destruct (strict_eq (VNum idx) optionIndex); [|reflexivity].
  rewrite set_field_twice. reflexivity.
Qed.

(** X18.  [markOptionSaved(optionIndex)] keeps the number and the order
    of the options; the option at the position [optionIndex] gets
    [isSaved: true] and keeps every other property, every other option is
    untouched (so an index that is out of range, or not a number, changes
    nothing); and marking the same index again changes nothing more. *)
Theorem markOptionSaved_marks_one_option (st : Storage) (options : list obj)
    (tr : list (Event (list obj))) (optionIndex : value) :
  let w1 := snd (useGenerator.markOptionSaved optionIndex
                   (mkHookWorld st (Live options) tr)) in
  exists final,
    hw_state w1 = Live final /\
    length final = length options /\
    (forall j opt, options !! j = Some opt ->
       exists opt', final !! j = Some opt' /\
         if strict_eq (VNum (Z.of_nat j)) optionIndex
         then lookup_field "isSaved" opt' = VBool true /\
              (forall k, k <> "isSaved" -> lookup_field k opt' = lookup_field k opt)
         else opt' = opt) /\
    hw_state (snd (useGenerator.markOptionSaved optionIndex w1)) = Live final.
Proof.
  intros w1. unfold w1, useGenerator.markOptionSaved, setState, modify.
  cbn [snd hw_state hw_storage hw_trace].
  eexists. split; [reflexivity|]. split; [apply mark_from_length|]. split.
  - intros j opt Hj. rewrite mark_from_lookup, Hj, Z.add_0_l.
    destruct (strict_eq (VNum (Z.of_nat j)) optionIndex);
      eexists; (split; [reflexivity|]); cbv iota; [|reflexivity].
    split; [apply lookup_set_field_eq|].
    intros k Hk. apply lookup_set_field_ne, Hk.
  - rewrite mark_from_idempotent. reflexivity.
Qed.

Lemma markOptionSaved_marks_one_option_witness :
  let options := [[("text", VStr "a")]; [("text", VStr "b")]] in
  let w1 := snd (useGenerator.markOptionSaved (VNum 1)
                   (mkHookWorld empty_storage (Live options) [])) in
  hw_state w1 = Live [[("text", VStr "a")]; [("text", VStr "b"); ("isSaved", VBool true)]] /\
  exists opt', [[("text", VStr "a")]; [("text", VStr "b"); ("isSaved", VBool true)]] !! 1%nat
               = Some opt' /\
    lookup_field "isSaved" opt' = VBool true /\
    (forall k, k <> "isSaved" -> lookup_field k opt' = lookup_field k [("text", VStr "b")]).
Proof.
  destruct (markOptionSaved_marks_one_option empty_storage
              [[("text", VStr "a")]; [("text", VStr "b")]] [] (VNum 1))
    as (final & Hstate & _ & Hat & _).
  simpl in Hstate. injection Hstate as <-.
  split; [reflexivity|].
  destruct (Hat 1%nat [("text", VStr "b")] eq_refl) as (opt' & Hopt & Hmark).
  exists opt'. split; [exact Hopt|]. exact Hmark.
Defined.

(* ===================================================================== *)
(** * The bootstrap of the authentication context, stage by stage *)
(* ===================================================================== *)

(** ** The stages of [initializeAuth] *)




Section BootstrapStages.
Context {host : Host}.




End BootstrapStages.




Section BootstrapRuns.
Context {host : Host}.




End BootstrapRuns.


(** ** C8: the states in which the bootstrap ends *)




(* ===================================================================== *)
(** * Further properties of the authentication context *)
(* ===================================================================== *)

(** Symbolic execution of a function of the provider. *)
Ltac run_auth :=
  unfold try_catch, bind, AuthContext.on_storage, zoom, AuthContext.show_profile,
    AuthContext.setError, AuthContext.setUser, AuthContext.setProfile,
    AuthContext.setOrganization, AuthContext.setLoading, modify, await, throw, lift,
    console_log, ret;
  simpl.

(** ** Signing out, signing in, the profile *)

(** X19.  On a medium that raises no error, when the remote sign-out
    succeeds [signOut] returns [{ error: null }] and leaves the state
    Anonymous with no error message; the development flag and the cached
    profile are no longer stored, so that reading the profile from the
    cache is a miss, and none of the computed flags holds. *)
Theorem signOut_success_clears_identity (w : AuthContext.World) :
  reliable (AuthContext.storage w) ->
  exists w',
    AuthContext.signOut (Resolved None) w = (Normal None, w') /\
    AuthShapes.Anonymous w' /\
    AuthContext.error w' = VNull /\
    AuthContext.loading w' = AuthContext.loading w /\
    items (AuthContext.storage w') =
      delete (CACHE_PREFIX +:+ "userProfile")
        (delete "dev:mockAuth" (items (AuthContext.storage w))) /\
    (forall (host : Host) now,
       fst (getCached "userProfile" now (AuthContext.storage w')) = Normal VNull) /\
    AuthContext.isAuthenticated w' = false /\
    AuthContext.isOwner w' = false /\
    AuthContext.isAdmin w' = false.
Proof.
  intros Hrel.
  pose proof (removeItem_reliable (AuthContext.storage w) "dev:mockAuth" Hrel) as H1.
  pose proof (clearCache_reliable _ "userProfile"
                (removeItem_keeps_reliable _ "dev:mockAuth" Hrel)) as H2.
  rewrite H1 in H2. simpl in H2.
  unfold AuthContext.signOut, AuthContext.signOut_at, AuthContext.the_medium.
  run_auth. rewrite H1. simpl. rewrite H2. simpl.
  eexists. split; [reflexivity|]. simpl.
  split; [repeat split|]. split; [reflexivity|]. split; [reflexivity|].
  split; [reflexivity|].
  split; [intros host now; apply getCached_absent; simpl; apply lookup_delete_eq|].
  repeat split.
Qed.

Lemma signOut_success_clears_identity_witness :
  exists w',
    AuthContext.signOut (Resolved None) signed_in_world = (Normal None, w') /\
    AuthShapes.Anonymous w' /\
    AuthContext.error w' = VNull /\
    AuthContext.loading w' = AuthContext.loading signed_in_world /\
    items (AuthContext.storage w') =
      delete (CACHE_PREFIX +:+ "userProfile")
        (delete "dev:mockAuth" (items (AuthContext.storage signed_in_world))) /\
    (forall (host : Host) now,
       fst (getCached "userProfile" now (AuthContext.storage w')) = Normal VNull) /\
    AuthContext.isAuthenticated w' = false /\
    AuthContext.isOwner w' = false /\
    AuthContext.isAdmin w' = false.
Proof.
  apply signOut_success_clears_identity. intros m op. reflexivity.
Defined.

Lemma result_or_error_spec (remote : Outcome (value * option JSError))
    (w : AuthContext.World) :
  AuthContext.result_or_error remote w =
    match settles_as remote with
    | inl data =>
        (Normal (mkResult (Some data) None),
         AuthContext.mkWorld (AuthContext.storage w) (AuthContext.user w)
           (AuthContext.profile w) (AuthContext.organization w) (AuthContext.loading w)
           VNull)
    | inr e =>
        (Normal (mkResult None (Some e)),
         AuthContext.mkWorld (AuthContext.storage w) (AuthContext.user w)
           (AuthContext.profile w) (AuthContext.organization w) (AuthContext.loading w)
           (VStr (err_message e)))
    end.
Proof.
  unfold AuthContext.result_or_error. run_auth.
  destruct remote as [[data [e|]]|e]; reflexivity.
Qed.

(** X20.  [signIn], [signUp], [resetPassword] and [updatePassword] never
    reject: whether the remote call resolves with data, resolves with an
    error or rejects, they return a result, which carries the data and no
    error, or no data and the error; the error message of the state is
    cleared in the first case and is the message of the error in the other
    two.  None of them touches the user, the profile, the organization,
    the loading flag or the medium. *)
Theorem credential_calls_never_reject (remote : Outcome (value * option JSError))
    (w : AuthContext.World) :
  let after (run : Completion (Result value) * AuthContext.World) :=
    exists r, fst run = Normal r /\
      (r, AuthContext.error (snd run)) =
        match settles_as remote with
        | inl data => (mkResult (Some data) None, VNull)
        | inr e => (mkResult None (Some e), VStr (err_message e))
        end /\
      AuthContext.user (snd run) = AuthContext.user w /\
      AuthContext.profile (snd run) = AuthContext.profile w /\
      AuthContext.organization (snd run) = AuthContext.organization w /\
      AuthContext.loading (snd run) = AuthContext.loading w /\
      AuthContext.storage (snd run) = AuthContext.storage w in
  after (AuthContext.signIn remote w) /\
  after (AuthContext.signUp remote w) /\
  after (AuthContext.resetPassword remote w) /\
  after (AuthContext.updatePassword remote w).
Proof.
  intros after. unfold after, AuthContext.signIn, AuthContext.signUp,
    AuthContext.resetPassword, AuthContext.updatePassword.
  rewrite result_or_error_spec.
  destruct (settles_as remote) as [data|e]; simpl;
    repeat split; eexists; repeat split.
Qed.

(** X21.  [updateProfile] called while no user is signed in fails before
    anything is sent: whatever the remote call would have answered, the
    result carries a [TypeError] (raised by [user.id]), its message becomes
    the error message of the state, and the profile and the organization
    are left as they were. *)
Theorem updateProfile_without_user_fails_locally
    (remote : Outcome (value * option JSError)) (u : value) (w : AuthContext.World) :
  u = VNull \/ u = VUndefined ->
  exists e,
    AuthContext.updateProfile u remote w =
      (Normal (mkResult None (Some e)),
       AuthContext.mkWorld (AuthContext.storage w) (AuthContext.user w)
         (AuthContext.profile w) (AuthContext.organization w) (AuthContext.loading w)
         (VStr (err_message e))) /\
    err_name e = "TypeError".
Proof.
  intros [-> | ->]; unfold AuthContext.updateProfile; run_auth;
    exists (TypeError ("Cannot read properties of null (reading '" +:+ "id" +:+ "')"));
    split; reflexivity.
Qed.

Lemma updateProfile_without_user_fails_locally_witness :
  exists e,
    AuthContext.updateProfile VNull (Resolved (VObj [("full_name", VStr "N")], None))
      (AuthContext.initial empty_storage) =
      (Normal (mkResult None (Some e)),
       AuthContext.mkWorld empty_storage VNull VNull VNull true (VStr (err_message e))) /\
    err_name e = "TypeError".
Proof.
  apply (updateProfile_without_user_fails_locally _ VNull
           (AuthContext.initial empty_storage)).
  left. reflexivity.
Defined.

(** X22.  [updateProfile] for a signed-in user changes the profile and the
    organization together or not at all: when the query answers with data,
    the profile is the data and the organization is the organization of the
    data, or [null] when that is falsy (never another falsy value); when it
    answers with an error or rejects, both are as before and the message
    is kept.  The user, the loading flag and the medium are never
    touched. *)
Theorem updateProfile_replaces_profile_and_organization_together
    (remote : Outcome (value * option JSError)) (u : obj) (w : AuthContext.World) :
  let run := AuthContext.updateProfile (VObj u) remote w in
  AuthContext.user (snd run) = AuthContext.user w /\
  AuthContext.storage (snd run) = AuthContext.storage w /\
  AuthContext.loading (snd run) = AuthContext.loading w /\
  match settles_as remote with
  | inl data =>
      fst run = Normal (mkResult (Some data) None) /\
      AuthContext.profile (snd run) = data /\
      AuthContext.organization (snd run) = js_or (get_prop_opt data "organization") VNull /\
      (truthy (AuthContext.organization (snd run)) = true \/
       AuthContext.organization (snd run) = VNull) /\
      AuthContext.error (snd run) = VNull
  | inr e =>
      fst run = Normal (mkResult None (Some e)) /\
      AuthContext.profile (snd run) = AuthContext.profile w /\
      AuthContext.organization (snd run) = AuthContext.organization w /\
      AuthContext.error (snd run) = VStr (err_message e)
  end.
Proof.
  unfold AuthContext.updateProfile. run_auth.
  destruct remote as [[data [e|]]|e]; simpl; repeat split.
  unfold js_or. destruct (truthy (get_prop_opt data "organization")) eqn:E; auto.
Qed.

(** X23.  [refreshProfile] never raises and touches nothing but the
    profile and the organization: when the fetch resolves with a profile
    both are replaced; when it resolves with nothing, rejects or times
    out, the state is exactly as before. *)
Theorem refreshProfile_touches_profile_and_organization_only
    (remote : Raced (option obj)) (w : AuthContext.World) :
  exists w',
    AuthContext.refreshProfile remote w = (Normal tt, w') /\
    AuthContext.user w' = AuthContext.user w /\
    AuthContext.error w' = AuthContext.error w /\
    AuthContext.loading w' = AuthContext.loading w /\
    AuthContext.storage w' = AuthContext.storage w /\
    match race remote "Profile fetch timeout" with
    | Resolved (Some p) =>
        AuthContext.profile w' = VObj p /\
        AuthContext.organization w' = js_or (lookup_field "organization" p) VNull
    | _ => w' = w
    end.
Proof.
  unfold AuthContext.refreshProfile. run_auth.
  destruct (race remote "Profile fetch timeout") as [[p|]|e]; simpl;
    eexists; (split; [reflexivity|]); simpl; repeat split; destruct w; reflexivity.
Qed.

(** ** The listener of auth events *)

(** X24.  The listener of auth events never raises and never touches the
    loading flag or the error message, and it keeps the state consistent:
    if beforehand there is a profile only next to a user and an
    organization only next to a profile, the same holds afterwards,
    whatever the event, the session, the cache and the profile fetch.  An
    event whose session has no user, on a mounted component, leaves the
    state Anonymous and does not touch the medium. *)
Theorem auth_events_keep_the_state_consistent {host : Host}
    (mounted mounted_after_profile : bool) (event : string) (session : value)
    (getUserProfile : Raced (option obj)) (now : Z) (w : AuthContext.World) :
  AuthShapes.Consistent w ->
  exists w',
    AuthContext.onAuthStateChange mounted mounted_after_profile event session
      getUserProfile now w = (Normal tt, w') /\
    AuthShapes.Consistent w' /\
    AuthContext.loading w' = AuthContext.loading w /\
    AuthContext.error w' = AuthContext.error w /\
    (mounted = true -> truthy (get_prop_opt session "user") = false ->
     AuthShapes.Anonymous w' /\ AuthContext.storage w' = AuthContext.storage w).
Proof.
  intros [Hup Hpo]. unfold AuthContext.onAuthStateChange.
  destruct mounted; [|exists w; repeat split; try assumption; intros; congruence].
  destruct (truthy (get_prop_opt session "user")) eqn:Hu.
  2:{ run_auth. eexists. split; [reflexivity|]. repeat split. }
  pose proof (AuthFacts.truthy_not_null _ Hu) as Hnn.
  destruct (String.eqb event "SIGNED_IN").
  - run_auth.
    destruct (race getUserProfile "Profile fetch timeout") as [[p|]|e]; simpl;
      destruct mounted_after_profile; simpl;
      try (eexists; split; [reflexivity|]; repeat split; simpl; auto;
           intros; congruence).
    destruct (setCached_never_throws "userProfile" (VObj p) (10 * 60 * 1000) now
                (AuthContext.storage w)) as ([] & st1 & ->). simpl.
    eexists. split; [reflexivity|]. repeat split; simpl; auto; intros; congruence.
  - run_auth.
    destruct (getCached_never_throws "userProfile" now (AuthContext.storage w))
      as (cached & st0 & ->). simpl.
    destruct (truthy cached) eqn:Hc; simpl.
    + pose proof (AuthFacts.truthy_not_null _ Hc) as Hcn.
      eexists. split; [reflexivity|].
      repeat split; simpl; auto; intros; congruence.
    + eexists. split; [reflexivity|].
      repeat split; simpl; auto; intros; congruence.
Qed.

Lemma auth_events_keep_the_state_consistent_witness :
  exists w',
    AuthContext.onAuthStateChange (host := reference_host) true true "SIGNED_OUT"
      (VObj [("user", VNull)]) TimedOut 1 signed_in_world = (Normal tt, w') /\
    AuthShapes.Consistent w' /\
    AuthContext.loading w' = false /\
    AuthContext.error w' = VNull /\
    AuthShapes.Anonymous w' /\
    AuthContext.storage w' = AuthContext.storage signed_in_world.
Proof.
  destruct (auth_events_keep_the_state_consistent (host := reference_host) true true
              "SIGNED_OUT" (VObj [("user", VNull)]) TimedOut 1 signed_in_world)
    as (w' & Hrun & Hcons & Hl & He & Hout).
  { split; discriminate. }
  exists w'. split; [exact Hrun|]. split; [exact Hcons|].
  split; [exact Hl|]. split; [exact He|]. apply Hout; reflexivity.
Defined.

(** X25.  Only the event ['SIGNED_IN'] fetches the profile: for every
    other event the listener does the same whatever the fetch would
    answer and whether or not the component is still mounted when it
    would settle.  With a session user it restores from the cache: the
    user is the session user, and the profile and the organization are
    those of the cached profile when the cache gives a truthy value, and
    are left as they were when it does not. *)
Theorem only_sign_in_events_fetch_the_profile {host : Host} (mounted m m' : bool)
    (event : string) (session : value) (r r' : Raced (option obj)) (now : Z)
    (w : AuthContext.World) :
  event <> "SIGNED_IN" ->
  AuthContext.onAuthStateChange mounted m event session r now w =
  AuthContext.onAuthStateChange mounted m' event session r' now w /\
  (mounted = true ->
   truthy (get_prop_opt session "user") = true ->
   exists cached st0,
     getCached "userProfile" now (AuthContext.storage w) = (Normal cached, st0) /\
     snd (AuthContext.onAuthStateChange mounted m event session r now w) =
       if truthy cached then
         AuthContext.mkWorld st0 (get_prop_opt session "user") cached
           (js_or (get_prop_opt cached "organization") VNull)
           (AuthContext.loading w) (AuthContext.error w)
       else
         AuthContext.mkWorld st0 (get_prop_opt session "user") (AuthContext.profile w)
           (AuthContext.organization w) (AuthContext.loading w) (AuthContext.error w)).
Proof.
  intros Hev. apply String.eqb_neq in Hev. unfold AuthContext.onAuthStateChange.
  rewrite Hev.
  split; [reflexivity|]. intros -> ->.
  destruct (getCached_never_throws "userProfile" now (AuthContext.storage w))
    as (cached & st0 & Hget).
  exists cached, st0. split; [exact Hget|].
  run_auth. rewrite Hget. simpl. destruct (truthy cached); reflexivity.
Qed.

Lemma only_sign_in_events_fetch_the_profile_witness :
  AuthContext.onAuthStateChange (host := reference_host) true true "TOKEN_REFRESHED"
    session_of_u1 (Settled (Resolved (Some [("id", VStr "u1")]))) 1
    (AuthContext.initial empty_storage) =
  AuthContext.onAuthStateChange (host := reference_host) true false "TOKEN_REFRESHED"
    session_of_u1 TimedOut 1 (AuthContext.initial empty_storage) /\
  exists cached st0,
    getCached (host := reference_host) "userProfile" 1 empty_storage
      = (Normal cached, st0) /\
    snd (AuthContext.onAuthStateChange (host := reference_host) true true "TOKEN_REFRESHED"
           session_of_u1 (Settled (Resolved (Some [("id", VStr "u1")]))) 1
           (AuthContext.initial empty_storage)) =
      if truthy cached then
        AuthContext.mkWorld st0 (get_prop_opt session_of_u1 "user") cached
          (js_or (get_prop_opt cached "organization") VNull) true VNull
      else
        AuthContext.mkWorld st0 (get_prop_opt session_of_u1 "user") VNull VNull true VNull.
Proof.
  destruct (only_sign_in_events_fetch_the_profile (host := reference_host) true true false
              "TOKEN_REFRESHED" session_of_u1
              (Settled (Resolved (Some [("id", VStr "u1")]))) TimedOut 1
              (AuthContext.initial empty_storage)) as [Hsame Hcache].
  { discriminate. }
  split; [exact Hsame|]. apply Hcache; reflexivity.
Defined.

(** ** The organization of a profile *)

(** X26.  [ensureOrganization] on a profile leaves the state alone.  It
    raises exactly when the profile has an organization and a role other
    than ['owner'] and the role update rejects (that call is awaited
    outside the [try] block), and then with the rejection; otherwise it
    returns a profile.  A returned profile that has an organization has
    the role ['owner'], unless the role update resolved with an error, in
    which case the profile is returned as it was.  An organization the
    profile already had is kept, and no property other than [role],
    [organization] and [organization_id] is ever changed. *)
Theorem ensureOrganization_makes_the_owner (env : AuthContext.BootEnv) (p : obj)
    (u : value) (w : AuthContext.World) :
  let run := AuthContext.ensureOrganization env (Some p) u w in
  snd run = w /\
  (forall e, fst run = Throw e <->
     truthy (lookup_field "organization" p) = true /\
     strict_eq (lookup_field "role" p) (VStr "owner") = false /\
     AuthContext.roleUpdate env = Rejected e) /\
  fst run <> Normal None /\
  (forall p', fst run = Normal (Some p') ->
     (truthy (lookup_field "organization" p') = true ->
      lookup_field "role" p' = VStr "owner" \/
      (p' = p /\ exists err, AuthContext.roleUpdate env = Resolved (Some err))) /\
     (truthy (lookup_field "organization" p) = true ->
      lookup_field "organization" p' = lookup_field "organization" p) /\
     (forall k, k <> "role" -> k <> "organization" -> k <> "organization_id" ->
        lookup_field k p' = lookup_field k p)).
Proof.
  intros run. unfold run.
  split; [apply (AuthFacts.ensureOrganization_pure env (Some p) u w)|].
  unfold AuthContext.ensureOrganization, try_catch, bind, lift, throw, await, ret,
    console_log.
  destruct (truthy (lookup_field "organization" p)) eqn:Horg.
  - destruct (strict_eq (lookup_field "role" p) (VStr "owner")) eqn:Hrole; simpl.
    + split; [intros e; split; [discriminate | intros (_ & H & _); discriminate]|].
      split; [discriminate|].
      intros p' H. injection H as <-. split; [|split; auto].
      intros _. left. apply strict_eq_VStr, Hrole.
    + destruct (AuthContext.roleUpdate env) as [[err|]|e0]; simpl.
      * split; [intros e; split; [discriminate | intros (_ & _ & H); discriminate]|].
        split; [discriminate|].
        intros p' H. injection H as <-. split; [|split; auto].
        intros _. right. split; [reflexivity | exists err; reflexivity].
      * split; [intros e; split; [discriminate | intros (_ & _ & H); discriminate]|].
        split; [discriminate|].
        intros p' H. injection H as <-. split; [|split].
        -- intros _. left. apply lookup_set_field_eq.
        -- intros _. apply lookup_set_field_ne. discriminate.
        -- intros k Hk _ _. apply lookup_set_field_ne, Hk.
      * split.
        { intros e; split.
          - intros H. injection H as ->. repeat split.
          - intros (_ & _ & H). injection H as ->. reflexivity. }
        split; [discriminate|]. intros p' H. discriminate.
  - assert (Hsame :
      (forall e, (Normal (Some p) : Completion (option obj)) = Throw e <->
         false = true /\
         strict_eq (lookup_field "role" p) (VStr "owner") = false /\
         AuthContext.roleUpdate env = Rejected e) /\
      (Normal (Some p) : Completion (option obj)) <> Normal None /\
      (forall p', (Normal (Some p) : Completion (option obj)) = Normal (Some p') ->
         (truthy (lookup_field "organization" p') = true ->
          lookup_field "role" p' = VStr "owner" \/
          (p' = p /\ exists err, AuthContext.roleUpdate env = Resolved (Some err))) /\
         (false = true ->
          lookup_field "organization" p' = lookup_field "organization" p) /\
         (forall k, k <> "role" -> k <> "organization" -> k <> "organization_id" ->
            lookup_field k p' = lookup_field k p))).
    { split; [intros e; split; [discriminate | intros (H & _); discriminate]|].
      split; [discriminate|].
      intros p' H. injection H as <-. split; [|split; [discriminate | auto]].
      intros H. rewrite Horg in H. discriminate. }
    destruct (AuthContext.orgInsert env) as [org [orgError|]]; [exact Hsame|]. simpl.
    destruct (get_prop org "id") as [org_id|e0]; [|exact Hsame]. simpl.
    destruct (AuthContext.userUpdateError env) as [e0|]; [exact Hsame|]. simpl.
    split; [intros e; split; [discriminate | intros (H & _); discriminate]|].
    split; [discriminate|].
    intros p' H. injection H as <-. split; [|split; [discriminate|]].
    + intros _. left. apply lookup_set_field_eq.
    + intros k Hr Ho Hi. rewrite !lookup_set_field_ne by assumption. reflexivity.
Qed.

(** A member of an organization is made its owner; when the update of
    the role rejects, so does [ensureOrganization]. *)
Lemma ensureOrganization_makes_the_owner_witness :
  let p := [("id", VStr "u1"); ("role", VStr "member");
            ("organization", VObj [("id", VStr "o1")])] in
  let run := AuthContext.ensureOrganization profile_timeout_env (Some p) VNull
               (AuthContext.initial empty_storage) in
  let rejected := AuthContext.ensureOrganization role_update_rejects_env (Some p) VNull
                    (AuthContext.initial empty_storage) in
  fst run = Normal (Some (set_field "role" (VStr "owner") p)) /\
  lookup_field "role" (set_field "role" (VStr "owner") p) = VStr "owner" /\
  lookup_field "organization" (set_field "role" (VStr "owner") p)
    = VObj [("id", VStr "o1")] /\
  lookup_field "id" (set_field "role" (VStr "owner") p) = VStr "u1" /\
  ~ (exists e, fst run = Throw e) /\
  fst rejected = Throw (Error "update denied").
Proof.
  intros p run rejected.
  destruct (ensureOrganization_makes_the_owner profile_timeout_env p VNull
              (AuthContext.initial empty_storage)) as (_ & Hthrow & _ & Hret).
  destruct (ensureOrganization_makes_the_owner role_update_rejects_env p VNull
              (AuthContext.initial empty_storage)) as (_ & Hrejects & _).
  assert (Hrun : fst run = Normal (Some (set_field "role" (VStr "owner") p)))
    by reflexivity.
  destruct (Hret _ Hrun) as (Hrole & Horg & Hrest).
  split; [exact Hrun|].
  split; [destruct (Hrole eq_refl) as [H | [H _]]; [exact H | discriminate]|].
  split; [exact (Horg eq_refl)|].
  split; [apply (Hrest "id"); discriminate|].
  split; [intros [e He]; apply Hthrow in He as (_ & _ & He); discriminate|].
  apply Hrejects. repeat split.
Defined.

(** ** The stamp of the last session check *)

Lemma digit_starts_number (c : ascii) :
  ReferenceHost.is_digit c = true ->
  is_js_space c = false /\ c <> "-"%char /\ c <> "+"%char.
Proof.
  destruct c as [[] [] [] [] [] [] [] []]; simpl; intros H; try discriminate;
    (split; [reflexivity|]); split; discriminate.
Qed.

Lemma parseInt_digits (c : ascii) (r : string) :
  ReferenceHost.is_digit c = true ->
  parseInt (String c r) = Some (fst (ReferenceHost.parse_digits (String c r) 0)).
Proof.
  intros Hd. destruct (digit_starts_number c Hd) as (Hs & Hm & Hp).
  unfold parseInt. cbn [trim_start]. rewrite Hs.
  destruct c as [[] [] [] [] [] [] [] []]; try discriminate; try contradiction;
    reflexivity.
Qed.

Lemma parseInt_pretty_pos (p : positive) :
  exists c r, pretty (N.pos p) = String c r /\ ReferenceHost.is_digit c = true /\
              parseInt (String c r) = Some (Z.pos p).
Proof.
  unfold pretty, pretty_N. simpl.
  destruct (ReferenceHostFacts.pretty_go_first (N.pos p) ltac:(lia) EmptyString)
    as (c & r & Hgo & Hdig & _).
  exists c, r. split; [exact Hgo|]. split; [exact Hdig|].
  rewrite (parseInt_digits c r Hdig), <- Hgo.
  destruct (ReferenceHostFacts.parse_digits_pretty_go (N.pos p) EmptyString 0)
    as (m & -> & Hm).
  rewrite (Hm eq_refl). reflexivity.
Qed.

(** [parseInt(n.toString(), 10)] is [n]. *)
Lemma parseInt_pretty (n : Z) : parseInt (pretty n) = Some n.
Proof.
  destruct n as [|p|p].
  - reflexivity.
  - destruct (parseInt_pretty_pos p) as (c & r & Heq & _ & Hp).
    change (pretty (Z.pos p)) with (pretty (N.pos p)). rewrite Heq. exact Hp.
  - destruct (parseInt_pretty_pos p) as (c & r & Heq & Hd & Hp).
    change (pretty (Z.neg p)) with ("-" +:+ pretty (N.pos p)). rewrite Heq.
    change ("-" +:+ String c r) with (String "-" (String c r)).
    rewrite (parseInt_digits c r Hd) in Hp.
    remember (ReferenceHost.parse_digits (String c r) 0) as pd eqn:Hpd.
    injection Hp as Hp.
    unfold parseInt. cbn [trim_start].
    change (is_js_space "-") with false. cbv beta iota.
    rewrite Hd, <- Hpd, Hp. reflexivity.
Qed.

Lemma pretty_nonempty (n : Z) : String.eqb (pretty n) EmptyString = false.
Proof.
  apply String.eqb_neq. intros H. pose proof (parseInt_pretty n) as Hp.
  rewrite H in Hp. discriminate.
Qed.

(** [lastSessionCheckRef] on a medium that raises no error. *)
Lemma lastSessionCheckRef_reliable (st : Storage) (now : Z) :
  reliable st ->
  let text := match items st !! "lastSessionCheck" with
              | Some t => if String.eqb t EmptyString then "0" else t
              | None => "0"
              end in
  let due := match parseInt text with
             | Some last => 3600000 <? now - last
             | None => false
             end in
  fst (AuthContext.lastSessionCheckRef now st) = Normal due /\
  items (snd (AuthContext.lastSessionCheckRef now st)) =
    (if due then <["lastSessionCheck" := pretty now]> (items st) else items st) /\
  fault (snd (AuthContext.lastSessionCheckRef now st)) = fault st.
Proof.
  intros Hrel text due. unfold due, text.
  unfold AuthContext.lastSessionCheckRef, bind, getItem, setItem, guarded, ret.
  rewrite Hrel. simpl.
  destruct (parseInt _) as [last|]; [|repeat split].
  destruct (3600000 <? now - last); simpl; [|repeat split].
  rewrite Hrel. simpl. repeat split.
Qed.

(** X27.  The session check is throttled to one per hour: on a medium
    that raises no error, once [lastSessionCheckRef] has answered [true]
    at the time [t] the stamp stored is [t], and a call at a time [t']
    answers [true] exactly when more than 3600000 ms have passed since
    [t]; when it answers [false] it stores nothing. *)
Theorem lastSessionCheckRef_throttles (st : Storage) (t t' : Z) :
  reliable st ->
  fst (AuthContext.lastSessionCheckRef t st) = Normal true ->
  let st1 := snd (AuthContext.lastSessionCheckRef t st) in
  items st1 !! "lastSessionCheck" = Some (pretty t) /\
  fst (AuthContext.lastSessionCheckRef t' st1) = Normal (3600000 <? t' - t) /\
  (t' - t <= 3600000 ->
   items (snd (AuthContext.lastSessionCheckRef t' st1)) = items st1).
Proof.
  intros Hrel Hdue st1.
  destruct (lastSessionCheckRef_reliable st t Hrel) as (Hres & Hitems & Hfault).
  rewrite Hres in Hdue. injection Hdue as Hdue. rewrite Hdue in Hitems.
  assert (Hstamp : items st1 !! "lastSessionCheck" = Some (pretty t))
    by (unfold st1; rewrite Hitems; apply lookup_insert_eq).
  assert (Hrel1 : reliable st1) by (apply (reliable_fault st); assumption).
  destruct (lastSessionCheckRef_reliable st1 t' Hrel1) as (Hres' & Hitems' & _).
  rewrite Hstamp, pretty_nonempty, parseInt_pretty in Hres', Hitems'.
  split; [exact Hstamp|]. split; [exact Hres'|].
  intros Hle. rewrite Hitems'.
  destruct (3600000 <? t' - t) eqn:E; [|reflexivity].
  apply Z.ltb_lt in E. lia.
Qed.

Lemma lastSessionCheckRef_throttles_witness :
  let st1 := snd (AuthContext.lastSessionCheckRef 1700000000000 mixed_storage) in
  items st1 !! "lastSessionCheck" = Some (pretty 1700000000000) /\
  fst (AuthContext.lastSessionCheckRef 1700003600000 st1)
    = Normal (3600000 <? 1700003600000 - 1700000000000) /\
  (1700003600000 - 1700000000000 <= 3600000 ->
   items (snd (AuthContext.lastSessionCheckRef 1700003600000 st1)) = items st1).
Proof.
  apply (lastSessionCheckRef_throttles mixed_storage).
  - intros m op. reflexivity.
  - vm_compute. reflexivity.
Defined.

(** X28.  A stamp that does not begin with a number stops the session
    checks for good: on a medium that raises no error, with such a stamp
    stored, [lastSessionCheckRef] answers [false] at every time and leaves
    the stamp as it is, so the next call finds the same. *)
Theorem lastSessionCheckRef_unreadable_stamp_stops_the_checks (st : Storage)
    (text : string) (now : Z) :
  reliable st ->
  items st !! "lastSessionCheck" = Some text ->
  text <> EmptyString ->
  parseInt text = None ->
  fst (AuthContext.lastSessionCheckRef now st) = Normal false /\
  items (snd (AuthContext.lastSessionCheckRef now st)) = items st /\
  reliable (snd (AuthContext.lastSessionCheckRef now st)).
Proof.
  intros Hrel Hi Hne Hp.
  destruct (lastSessionCheckRef_reliable st now Hrel) as (Hres & Hitems & Hfault).
  apply String.eqb_neq in Hne. rewrite Hi, Hne, Hp in Hres, Hitems.
  split; [exact Hres|]. split; [exact Hitems|].
  apply (reliable_fault st); assumption.
Qed.

Lemma lastSessionCheckRef_unreadable_stamp_stops_the_checks_witness :
  fst (AuthContext.lastSessionCheckRef 1700000000000 garbled_stamp_storage)
    = Normal false /\
  items (snd (AuthContext.lastSessionCheckRef 1700000000000 garbled_stamp_storage))
    = items garbled_stamp_storage /\
  reliable (snd (AuthContext.lastSessionCheckRef 1700000000000 garbled_stamp_storage)).
Proof.
  apply (lastSessionCheckRef_unreadable_stamp_stops_the_checks garbled_stamp_storage
           "yesterday").
  - intros m op. reflexivity.
  - reflexivity.
  - discriminate.
  - reflexivity.
Defined.

(** X29.  Unlike the cache layer, [lastSessionCheckRef] lets the errors of
    the medium out: when reading the stamp raises [e], or when no stamp is
    stored, the check is due and writing the stamp raises [e], the call
    raises [e] and nothing is stored. *)
Theorem lastSessionCheckRef_medium_errors_escape (st : Storage) (now : Z) (e : JSError) :
  (fault st (items st) (OpGetItem "lastSessionCheck") = Some e ->
   fst (AuthContext.lastSessionCheckRef now st) = Throw e /\
   items (snd (AuthContext.lastSessionCheckRef now st)) = items st) /\
  (fault st (items st) (OpGetItem "lastSessionCheck") = None ->
   items st !! "lastSessionCheck" = None ->
   3600000 < now ->
   fault st (items st) (OpSetItem "lastSessionCheck" (pretty now)) = Some e ->
   fst (AuthContext.lastSessionCheckRef now st) = Throw e /\
   items (snd (AuthContext.lastSessionCheckRef now st)) = items st).
Proof.
  unfold AuthContext.lastSessionCheckRef, bind, getItem, setItem, guarded, ret. split.
  - intros ->. split; reflexivity.
  - intros -> Hi Hnow Hset. simpl. rewrite Hi.
    change (parseInt "0") with (Some 0). cbv iota. rewrite Z.sub_0_r.
    apply Z.ltb_lt in Hnow. rewrite Hnow. simpl. rewrite Hset. split; reflexivity.
Qed.

Lemma lastSessionCheckRef_medium_errors_escape_witness :
  fst (AuthContext.lastSessionCheckRef 1700000000000 denied_storage)
    = Throw SecurityError /\
  fst (AuthContext.lastSessionCheckRef 1700000000000 full_storage)
    = Throw QuotaExceededError.
Proof.
  destruct (lastSessionCheckRef_medium_errors_escape denied_storage 1700000000000
              SecurityError) as [Hget _].
  destruct (lastSessionCheckRef_medium_errors_escape full_storage 1700000000000
              QuotaExceededError) as [_ Hset].
  split.
  - apply Hget. reflexivity.
  - apply Hset; reflexivity.
Defined.

(** ** The bootstrap always settles *)


